(** * Process context publisher: codec, publisher state machine and self-reader

    A shallow embedding of [otel_process_ctx.c] (the non-NOOP Linux build,
    with the self-reader compiled in).

    Conventions of the embedding:
    - a [char] is a [byte]; a C string is the [list byte] of its characters
      before the terminating NUL, so [strlen] is [length];
    - a nullable [const char *] read by the codec is an [option (list byte)];
    - [size_t] values are unbounded [Z] (no object in memory is large enough
      to wrap a 64-bit [size_t]); [uint16_t] and [uint32_t] conversions are
      written out as [mod];
    - pointers into a buffer are offsets ([nat]) from its start. *)

From Stdlib Require Import ZArith Lia.
From Stdlib Require Import Init.Byte.
From Stdlib Require Strings.Byte.
From stdpp Require Import base numbers option list strings relations.

Local Open Scope Z_scope.

(** ** Characters and integer conversions *)

Definition byte_to_Z (b : byte) : Z := Z.of_N (Byte.to_N b).

(** [(char) z]: conversion of an integer to a character keeps the low 8 bits. *)
Definition to_char (z : Z) : byte :=
  default x00 (Byte.of_N (Z.to_N (z mod 256))).

Definition uint16 (z : Z) : Z := z mod 65536.
Definition uint32 (z : Z) : Z := z mod 4294967296.
Definition uint8 (z : Z) : Z := z mod 256.

Definition strlen (s : list byte) : Z := Z.of_nat (length s).

Global Instance byte_eq_dec : EqDecision byte := Byte.byte_eq_dec.

(** The C string stored in a buffer holding [raw] followed by a NUL: the
    characters before the first NUL ([strdup], [strcmp] and [strlen] see no
    further). *)
Fixpoint cstr (raw : list byte) : list byte :=
  match raw with
  | [] => []
  | c :: rest => if decide (c = x00) then [] else c :: cstr rest
  end.

Definition KEY_VALUE_LIMIT : Z := 4096.
Definition UINT14_MAX : Z := 16383.
Definition OTEL_CTX_SIGNATURE : list byte := String.list_byte_of_string "OTEL_CTX".

(** ** Results and the attribute object *)

(** Modelled from the spec: the struct is declared in [otel_process_ctx.h],
    which is not among the sources; its two fields are the ones every
    initialiser of [otel_process_ctx.c] names ([.success], [.error_message],
    the latter NULL on success). *)
Record otel_process_ctx_result := {
  success : bool;
  error_message : option string
}.

(** [__FILE__ ":" ADD_QUOTES(__LINE__)] appended to every message built in
    the source. *)
Definition located (msg line : string) : string :=
  msg +:+ " (otel_process_ctx.c:" +:+ line +:+ ")".

Definition failure (msg line : string) : otel_process_ctx_result :=
  {| success := false; error_message := Some (located msg line) |}.

Definition succeeded : otel_process_ctx_result :=
  {| success := true; error_message := None |}.

(** Modelled from the spec: [otel_process_ctx_data] is declared in
    [otel_process_ctx.h], which is not among the sources; its fields are the
    seven strings and the [resources] array that [empty_data] initialises
    and the encoder reads. The record is parametric in what a string field
    and the resources field hold: the codec reads the strings themselves
    ([otel_process_ctx_data]), the cleanup code sees heap pointers
    ([otel_process_ctx_data_ptrs], further down). *)
Record otel_process_ctx_data_of (Str Arr : Type) := {
  deployment_environment_name : Str;
  service_instance_id : Str;
  service_name : Str;
  service_version : Str;
  telemetry_sdk_language : Str;
  telemetry_sdk_version : Str;
  telemetry_sdk_name : Str;
  resources : Arr
}.
Arguments deployment_environment_name {Str Arr} _.
Arguments service_instance_id {Str Arr} _.
Arguments service_name {Str Arr} _.
Arguments service_version {Str Arr} _.
Arguments telemetry_sdk_language {Str Arr} _.
Arguments telemetry_sdk_version {Str Arr} _.
Arguments telemetry_sdk_name {Str Arr} _.
Arguments resources {Str Arr} _.

(** The attribute object as the codec reads it. A string field is [None]
    when the pointer is NULL. [resources] is [None] when the array pointer is
    NULL, otherwise the array cells before the terminating NULL. *)
Definition otel_process_ctx_data : Type :=
  otel_process_ctx_data_of (option (list byte)) (option (list (list byte))).

Definition empty_data : otel_process_ctx_data :=
  {| deployment_environment_name := None;
     service_instance_id := None;
     service_name := None;
     service_version := None;
     telemetry_sdk_language := None;
     telemetry_sdk_version := None;
     telemetry_sdk_name := None;
     resources := None |}.

(** ** Encoder: size pre-pass *)

(** [protobuf_varint_size(uint16_t value)] *)
Definition protobuf_varint_size (value : Z) : Z :=
  if 128 <=? value then 2 else 1.

(** [protobuf_record_size(size_t len)]; the argument of
    [protobuf_varint_size] is converted to [uint16_t] at the call. *)
Definition protobuf_record_size (len : Z) : Z :=
  1 + protobuf_varint_size (uint16 len) + len.

Definition protobuf_string_size (str : list byte) : Z :=
  protobuf_record_size (strlen str).

Definition protobuf_otel_keyvalue_string_size (key value : list byte) : Z :=
  let key_field_size := protobuf_string_size key in
  let value_field_size := protobuf_record_size (protobuf_string_size value) in
  key_field_size + value_field_size.

(** The cells of a NULL-terminated [const char **] array that precede the
    first NULL. Neither loop of the source reads past that cell once the
    entry count is known to be even. *)
Fixpoint non_null_prefix (cells : list (option (list byte))) : list (list byte) :=
  match cells with
  | Some s :: rest => s :: non_null_prefix rest
  | _ => []
  end.

(** Second loop of [validate_and_calculate_protobuf_payload_size], over the
    non-NULL entries two at a time; returns the result and [*out_pairs_size]. *)
Fixpoint validate_pairs (entries : list (list byte)) (out_pairs_size : Z)
  : otel_process_ctx_result * Z :=
  match entries with
  | key :: value :: rest =>
      if KEY_VALUE_LIMIT <? strlen key then
        (failure "Length of key in otel_process_ctx_data exceeds 4096 limit" "312",
         out_pairs_size)
      else if KEY_VALUE_LIMIT <? strlen value then
        (failure "Length of value in otel_process_ctx_data exceeds 4096 limit" "315",
         out_pairs_size)
      else
        validate_pairs rest
          (out_pairs_size
           + protobuf_record_size (protobuf_otel_keyvalue_string_size key value))
  | _ => (succeeded, out_pairs_size)
  end.

(** [entries] are the cells of [pairs] before its first NULL. *)
Definition validate_and_calculate_protobuf_payload_size (entries : list (list byte))
  : otel_process_ctx_result * Z :=
  let num_entries := length entries in
  if Nat.odd num_entries then
    (failure "Value in otel_process_ctx_data is NULL" "303", 0)
  else validate_pairs entries 0.

(** ** Encoder: emit pass *)

(** The write cursor: the buffer being filled and the offset of [*ptr] in
    it. A store through [*ptr] is a list update at that offset, and the
    cursor moves on by one. A store outside the buffer leaves the list alone
    while the cursor still moves on, so a writer that ends with the cursor
    at the end of the buffer has made every store inside it
    ([encode_writes_exactly_prepass_size]). *)
Record wstate := {
  buf : list byte;
  ptr : nat
}.

(** Store [c] through the cursor and advance it by one. *)
Definition write_char (c : byte) (st : wstate) : wstate :=
  {| buf := <[ptr st := c]> (buf st); ptr := S (ptr st) |}.

(** [memcpy] of [str] at the cursor, then advance the cursor by its length. *)
Definition write_bytes (str : list byte) (st : wstate) : wstate :=
  foldl (fun st c => write_char c st) st str.

(** [write_protobuf_varint(char **ptr, uint16_t value)] *)
Definition write_protobuf_varint (value : Z) (st : wstate) : wstate :=
  let value := uint16 value in
  if protobuf_varint_size value =? 1 then
    write_char (to_char value) st
  else
    let st := write_char (to_char (Z.lor (Z.land value 0x7F) 0x80)) st in
    write_char (to_char (Z.shiftr value 7)) st.

Definition write_protobuf_string (str : list byte) (st : wstate) : wstate :=
  let len := strlen str in
  let st := write_protobuf_varint len st in
  write_bytes str st.

(** [write_protobuf_tag(char **ptr, uint8_t field_number)] *)
Definition write_protobuf_tag (field_number : Z) (st : wstate) : wstate :=
  write_char (to_char (Z.lor (Z.shiftl (uint8 field_number) 3) 2)) st.

Definition write_attribute (key value : list byte) (st : wstate) : wstate :=
  let st := write_protobuf_tag 1 st in
  let st := write_protobuf_varint (protobuf_otel_keyvalue_string_size key value) st in
  let st := write_protobuf_tag 1 st in
  let st := write_protobuf_string key st in
  let st := write_protobuf_tag 2 st in
  let st := write_protobuf_varint (protobuf_string_size value) st in
  let st := write_protobuf_tag 1 st in
  write_protobuf_string value st.

(** [for (i = 0; pairs[i * 2] != NULL; i++) write_attribute(...)] over the
    non-NULL entries. *)
Fixpoint write_attributes (entries : list (list byte)) (st : wstate) : wstate :=
  match entries with
  | key :: value :: rest => write_attributes rest (write_attribute key value st)
  | _ => st
  end.

Definition bytes_of (s : string) : list byte := String.list_byte_of_string s.

(** The local [pairs] array of the encoder, without its final NULL cell. *)
Definition identity_cells (data : otel_process_ctx_data) : list (option (list byte)) :=
  [ Some (bytes_of "deployment.environment.name"); deployment_environment_name data;
    Some (bytes_of "service.instance.id"); service_instance_id data;
    Some (bytes_of "service.name"); service_name data;
    Some (bytes_of "service.version"); service_version data;
    Some (bytes_of "telemetry.sdk.language"); telemetry_sdk_language data;
    Some (bytes_of "telemetry.sdk.version"); telemetry_sdk_version data;
    Some (bytes_of "telemetry.sdk.name"); telemetry_sdk_name data ].

(** What [otel_process_ctx_encode_protobuf_payload] leaves in its
    out-parameters on success. *)
Record encoded := {
  enc_bytes : list byte;   (* the calloc'ed buffer, [total_size] bytes *)
  enc_size : Z;            (* [*out_size], a [uint32_t] *)
  enc_ptr : nat            (* where the write cursor stopped *)
}.

(** [calloc_ok] tells whether the one [calloc] of the call succeeds. *)
Definition otel_process_ctx_encode_protobuf_payload
    (calloc_ok : bool) (data : otel_process_ctx_data)
  : otel_process_ctx_result * option encoded :=
  let pairs := non_null_prefix (identity_cells data) in
  let '(validation_result, pairs_size) :=
    validate_and_calculate_protobuf_payload_size pairs in
  if negb (success validation_result) then (validation_result, None) else
  let '(validation_result, resources_pairs_size) :=
    match resources data with
    | Some res => validate_and_calculate_protobuf_payload_size res
    | None => (validation_result, 0)
    end in
  if negb (success validation_result) then (validation_result, None) else
  let total_size := pairs_size + resources_pairs_size in
  if negb calloc_ok then
    (failure "Failed to allocate memory for payload" "394", None)
  else
    let st := {| buf := replicate (Z.to_nat total_size) x00; ptr := 0 |} in
    let st := write_attributes pairs st in
    let st := match resources data with
              | Some res => write_attributes res st
              | None => st
              end in
    (succeeded,
     Some {| enc_bytes := buf st; enc_size := uint32 total_size; enc_ptr := ptr st |}).


(** ** The emit pass as a byte stream *)

(** The bytes each writer stores, in order. The writers themselves work on
    the cursor; [emits] relates the two views. *)
Definition varint_bytes (value : Z) : list byte :=
  let value := uint16 value in
  if protobuf_varint_size value =? 1 then [to_char value]
  else [to_char (Z.lor (Z.land value 0x7F) 0x80); to_char (Z.shiftr value 7)].

Definition tag_byte (field_number : Z) : byte :=
  to_char (Z.lor (Z.shiftl (uint8 field_number) 3) 2).

Definition string_bytes (str : list byte) : list byte :=
  varint_bytes (strlen str) ++ str.

Definition attribute_bytes (key value : list byte) : list byte :=
  [tag_byte 1] ++ varint_bytes (protobuf_otel_keyvalue_string_size key value)
  ++ [tag_byte 1] ++ string_bytes key
  ++ [tag_byte 2] ++ varint_bytes (protobuf_string_size value)
  ++ [tag_byte 1] ++ string_bytes value.

Fixpoint attributes_bytes (entries : list (list byte)) : list byte :=
  match entries with
  | key :: value :: rest => attribute_bytes key value ++ attributes_bytes rest
  | _ => []
  end.

(** Overwrite [length bs] cells of the buffer at the cursor with [bs]. *)
Definition put (bs : list byte) (st : wstate) : wstate :=
  {| buf := take (ptr st) (buf st) ++ bs ++ drop (ptr st + length bs) (buf st);
     ptr := ptr st + length bs |}.

(** A writer that stays inside the buffer stores exactly [bs]. *)
Definition emits (w : wstate -> wstate) (bs : list byte) : Prop :=
  forall st, (ptr st + length bs <= length (buf st))%nat -> w st = put bs st.


(** ** Decoder (self-reader) *)

(** [(unsigned char) **ptr] *)
Definition peek (mem : list byte) (ptr : nat) : Z := byte_to_Z (nth ptr mem x00).

(** The readers return [None] where the source returns [false], and
    otherwise the advanced cursor with the value read. *)
Definition read_protobuf_varint (mem : list byte) (ptr end_ptr : nat)
  : option (nat * Z) :=
  if (end_ptr <=? ptr)%nat then None else
  let first_byte := peek mem ptr in
  let ptr := S ptr in
  if first_byte <? 128 then Some (ptr, first_byte)
  else
    if (end_ptr <=? ptr)%nat then None else
    let second_byte := peek mem ptr in
    let ptr := S ptr in
    let value := uint16 (Z.lor (Z.land first_byte 0x7F) (Z.shiftl second_byte 7)) in
    if value <=? UINT14_MAX then Some (ptr, value) else None.

(** Returns the bytes copied into [buffer]; the source then stores a NUL
    after them. *)
Definition read_protobuf_string (mem : list byte) (ptr end_ptr : nat)
  : option (nat * list byte) :=
  match read_protobuf_varint mem ptr end_ptr with
  | None => None
  | Some (ptr, len) =>
      if (KEY_VALUE_LIMIT + 1 <=? len) || (end_ptr <? ptr + Z.to_nat len)%nat
      then None
      else Some ((ptr + Z.to_nat len)%nat, take (Z.to_nat len) (drop ptr mem))
  end.

Definition read_protobuf_tag (mem : list byte) (ptr end_ptr : nat)
  : option (nat * Z) :=
  if (end_ptr <=? ptr)%nat then None else
  let tag := peek mem ptr in
  let ptr := S ptr in
  let wire_type := uint8 (Z.land tag 0x07) in
  let field_number := uint8 (Z.shiftr tag 3) in
  if wire_type =? 2 then Some (ptr, field_number) else None.

(** Result of a loop run with a bound on its iterations. *)
Inductive parse (A : Type) :=
  | Parsed (a : A)
  | Rejected
  | OutOfFuel.
Arguments Parsed {A} _.
Arguments Rejected {A}.
Arguments OutOfFuel {A}.

(** Locals of one iteration of the outer loop, with the two scratch buffers. *)
Record kv_state := {
  kv_ptr : nat;
  key_found : bool;
  value_found : bool;
  key_buffer : list byte;
  value_buffer : list byte
}.

(** [while (ptr < kv_end) { ... }]: the KeyValue body. *)
Fixpoint parse_keyvalue (fuel : nat) (mem : list byte) (kv_end : nat) (s : kv_state)
  : parse kv_state :=
  if (kv_end <=? kv_ptr s)%nat then Parsed s else
  match fuel with
  | O => OutOfFuel
  | S fuel =>
      match read_protobuf_tag mem (kv_ptr s) kv_end with
      | None => Rejected
      | Some (ptr, kv_field) =>
          if kv_field =? 1 then
            match read_protobuf_string mem ptr kv_end with
            | None => Rejected
            | Some (ptr, raw) =>
                parse_keyvalue fuel mem kv_end
                  {| kv_ptr := ptr; key_found := true; value_found := value_found s;
                     key_buffer := raw; value_buffer := value_buffer s |}
            end
          else if kv_field =? 2 then
            match read_protobuf_varint mem ptr kv_end with
            | None => Rejected
            | Some (ptr, _any_len) =>
                match read_protobuf_tag mem ptr kv_end with
                | None => Rejected
                | Some (ptr, any_field) =>
                    if any_field =? 1 then
                      match read_protobuf_string mem ptr kv_end with
                      | None => Rejected
                      | Some (ptr, raw) =>
                          parse_keyvalue fuel mem kv_end
                            {| kv_ptr := ptr; key_found := key_found s;
                               value_found := true;
                               key_buffer := key_buffer s; value_buffer := raw |}
                      end
                    else
                      parse_keyvalue fuel mem kv_end
                        {| kv_ptr := ptr; key_found := key_found s;
                           value_found := value_found s;
                           key_buffer := key_buffer s;
                           value_buffer := value_buffer s |}
                end
            end
          else
            parse_keyvalue fuel mem kv_end
              {| kv_ptr := ptr; key_found := key_found s;
                 value_found := value_found s;
                 key_buffer := key_buffer s; value_buffer := value_buffer s |}
      end
  end.

Definition data_with_resources (res : option (list (list byte)))
    (d : otel_process_ctx_data) : otel_process_ctx_data :=
  {| deployment_environment_name := deployment_environment_name d;
     service_instance_id := service_instance_id d;
     service_name := service_name d;
     service_version := service_version d;
     telemetry_sdk_language := telemetry_sdk_language d;
     telemetry_sdk_version := telemetry_sdk_version d;
     telemetry_sdk_name := telemetry_sdk_name d;
     resources := res |}.

Definition resource_capacity : nat := 201.

(** "Dispatch based on key": [key] and [value] are the C strings held by
    the two buffers. [None] when the resources array is full. *)
Definition dispatch (key value : list byte) (d : otel_process_ctx_data)
  : option otel_process_ctx_data :=
  if decide (key = bytes_of "deployment.environment.name") then
    Some {| deployment_environment_name := Some value;
            service_instance_id := service_instance_id d;
            service_name := service_name d;
            service_version := service_version d;
            telemetry_sdk_language := telemetry_sdk_language d;
            telemetry_sdk_version := telemetry_sdk_version d;
            telemetry_sdk_name := telemetry_sdk_name d;
            resources := resources d |}
  else if decide (key = bytes_of "service.instance.id") then
    Some {| deployment_environment_name := deployment_environment_name d;
            service_instance_id := Some value;
            service_name := service_name d;
            service_version := service_version d;
            telemetry_sdk_language := telemetry_sdk_language d;
            telemetry_sdk_version := telemetry_sdk_version d;
            telemetry_sdk_name := telemetry_sdk_name d;
            resources := resources d |}
  else if decide (key = bytes_of "service.name") then
    Some {| deployment_environment_name := deployment_environment_name d;
            service_instance_id := service_instance_id d;
            service_name := Some value;
            service_version := service_version d;
            telemetry_sdk_language := telemetry_sdk_language d;
            telemetry_sdk_version := telemetry_sdk_version d;
            telemetry_sdk_name := telemetry_sdk_name d;
            resources := resources d |}
  else if decide (key = bytes_of "service.version") then
    Some {| deployment_environment_name := deployment_environment_name d;
            service_instance_id := service_instance_id d;
            service_name := service_name d;
            service_version := Some value;
            telemetry_sdk_language := telemetry_sdk_language d;
            telemetry_sdk_version := telemetry_sdk_version d;
            telemetry_sdk_name := telemetry_sdk_name d;
            resources := resources d |}
  else if decide (key = bytes_of "telemetry.sdk.language") then
    Some {| deployment_environment_name := deployment_environment_name d;
            service_instance_id := service_instance_id d;
            service_name := service_name d;
            service_version := service_version d;
            telemetry_sdk_language := Some value;
            telemetry_sdk_version := telemetry_sdk_version d;
            telemetry_sdk_name := telemetry_sdk_name d;
            resources := resources d |}
  else if decide (key = bytes_of "telemetry.sdk.version") then
    Some {| deployment_environment_name := deployment_environment_name d;
            service_instance_id := service_instance_id d;
            service_name := service_name d;
            service_version := service_version d;
            telemetry_sdk_language := telemetry_sdk_language d;
            telemetry_sdk_version := Some value;
            telemetry_sdk_name := telemetry_sdk_name d;
            resources := resources d |}
  else if decide (key = bytes_of "telemetry.sdk.name") then
    Some {| deployment_environment_name := deployment_environment_name d;
            service_instance_id := service_instance_id d;
            service_name := service_name d;
            service_version := service_version d;
            telemetry_sdk_language := telemetry_sdk_language d;
            telemetry_sdk_version := telemetry_sdk_version d;
            telemetry_sdk_name := Some value;
            resources := resources d |}
  else
    let res := default [] (resources d) in
    let resource_index := length res in
    if (resource_capacity <=? resource_index + 2)%nat then None
    else Some (data_with_resources (Some (res ++ [key; value])) d).

(** State carried by the outer loop. *)
Record decoder := {
  dec_ptr : nat;
  dec_key_buffer : list byte;
  dec_value_buffer : list byte;
  data_out : otel_process_ctx_data
}.

(** [while (ptr < end_ptr) { ... }]: one attributes entry per iteration. *)
Fixpoint parse_attributes (fuel : nat) (mem : list byte) (end_ptr : nat) (s : decoder)
  : parse decoder :=
  if (end_ptr <=? dec_ptr s)%nat then Parsed s else
  match fuel with
  | O => OutOfFuel
  | S fuel =>
      match read_protobuf_tag mem (dec_ptr s) end_ptr with
      | None => Rejected
      | Some (ptr, field_number) =>
          if negb (field_number =? 1) then Rejected else
          match read_protobuf_varint mem ptr end_ptr with
          | None => Rejected
          | Some (ptr, kv_len) =>
              let kv_end := (ptr + Z.to_nat kv_len)%nat in
              if (end_ptr <? kv_end)%nat then Rejected else
              match parse_keyvalue (Z.to_nat kv_len) mem kv_end
                      {| kv_ptr := ptr; key_found := false; value_found := false;
                         key_buffer := dec_key_buffer s;
                         value_buffer := dec_value_buffer s |} with
              | Rejected => Rejected
              | OutOfFuel => OutOfFuel
              | Parsed kv =>
                  if negb (key_found kv) || negb (value_found kv) then Rejected else
                  let value := cstr (value_buffer kv) in
                  match dispatch (cstr (key_buffer kv)) value (data_out s) with
                  | None => Rejected
                  | Some d =>
                      parse_attributes fuel mem end_ptr
                        {| dec_ptr := kv_ptr kv;
                           dec_key_buffer := key_buffer kv;
                           dec_value_buffer := value_buffer kv;
                           data_out := d |}
                  end
              end
          end
      end
  end.

Definition is_set {A : Type} (o : option A) : bool :=
  match o with Some _ => true | None => false end.

(** "Validate all required fields were found" *)
Definition all_required_found (d : otel_process_ctx_data) : bool :=
  is_set (deployment_environment_name d) &&
  is_set (service_instance_id d) &&
  is_set (service_name d) &&
  is_set (service_version d) &&
  is_set (telemetry_sdk_language d) &&
  is_set (telemetry_sdk_version d) &&
  is_set (telemetry_sdk_name d).

(** [payload_size] is the offset of [end_ptr]. Every heap allocation of the
    decoder ([calloc] of the resources array, [strdup]) is taken to succeed.
    [None] where the source returns [false]. Each iteration of either loop
    consumes at least one byte, so [payload_size] iterations are enough
    ([decode_never_out_of_fuel]). *)
Definition otel_process_ctx_decode_payload
    (payload : list byte) (payload_size : nat) (key_buffer value_buffer : list byte)
  : option otel_process_ctx_data :=
  match parse_attributes payload_size payload payload_size
          {| dec_ptr := 0;
             dec_key_buffer := key_buffer;
             dec_value_buffer := value_buffer;
             data_out := data_with_resources (Some []) empty_data |} with
  | Parsed s => if all_required_found (data_out s) then Some (data_out s) else None
  | _ => None
  end.

(** ** Quantities the encoder's properties are stated with *)

(** The [pairs] array of the encoder as its loops see it. *)
Definition identity_entries (data : otel_process_ctx_data) : list (list byte) :=
  non_null_prefix (identity_cells data).

Definition resource_entries (data : otel_process_ctx_data) : list (list byte) :=
  default [] (resources data).

(** Both calls of the size pre-pass succeed. *)
Definition passes_validation (data : otel_process_ctx_data) : bool :=
  success (validate_and_calculate_protobuf_payload_size (identity_entries data)).1
  && match resources data with
     | Some res => success (validate_and_calculate_protobuf_payload_size res).1
     | None => true
     end.

(** [total_size] as the pre-pass computes it. *)
Definition prepass_total_size (data : otel_process_ctx_data) : Z :=
  (validate_and_calculate_protobuf_payload_size (identity_entries data)).2
  + match resources data with
    | Some res => (validate_and_calculate_protobuf_payload_size res).2
    | None => 0
    end.

(** No identity field is NULL and the resources array, when given, holds
    whole pairs. *)
Definition well_formed (data : otel_process_ctx_data) : bool :=
  all_required_found data && Nat.even (length (resource_entries data)).

(** [strstr(message, needle) != NULL] on the message of a result. *)
Definition message_contains (needle : string) (r : otel_process_ctx_result) : bool :=
  match error_message r with
  | Some m => is_set (String.index 0 needle m)
  | None => false
  end.

(** Every string the encoder is handed: the identity keys and values, then
    the resource keys and values. *)
Definition data_strings (data : otel_process_ctx_data) : list (list byte) :=
  identity_entries data ++ resource_entries data.

(** A two-byte scratch buffer with the cursor at its start. *)
Definition scratch : wstate := {| buf := [x00; x00]; ptr := 0 |}.

(** Sample attribute objects used to exercise the statements below. *)
Definition sample_data : otel_process_ctx_data :=
  {| deployment_environment_name := Some (bytes_of "prod");
     service_instance_id := Some (bytes_of "123d8444-2c7e-46e3-89f6-6217880f7123");
     service_name := Some (bytes_of "my-service");
     service_version := Some (bytes_of "4.5.6");
     telemetry_sdk_language := Some (bytes_of "c");
     telemetry_sdk_version := Some (bytes_of "1.2.3");
     telemetry_sdk_name := Some (bytes_of "example_ctx.c");
     resources := Some [bytes_of "resource.key1"; bytes_of "resource.value1";
                        bytes_of "resource.key2"; bytes_of "resource.value2"] |}.

(** ** The wire syntax the decoder accepts

    A declarative description of the payloads the decoder walks through
    without rejecting, used to state what it accepts; it follows the words
    of the wire-format description rather than the control flow of the
    decoder: a payload is a sequence of records, a record is a tag, a varint
    length and a body, a body is a sequence of fields. *)

(** A varint as it occurs in a payload: one byte, or two bytes. *)
Inductive varint_tok :=
  | Varint1 (b : byte)
  | Varint2 (b1 b2 : byte).

Definition varint_tok_bytes (t : varint_tok) : list byte :=
  match t with
  | Varint1 b => [b]
  | Varint2 b1 b2 => [b1; b2]
  end.

Definition varint_tok_value (t : varint_tok) : Z :=
  match t with
  | Varint1 b => byte_to_Z b
  | Varint2 b1 b2 =>
      uint16 (Z.lor (Z.land (byte_to_Z b1) 0x7F) (Z.shiftl (byte_to_Z b2) 7))
  end.

(** One byte without the continuation bit, or two bytes whose value is at
    most 16383. *)
Definition varint_tok_ok (t : varint_tok) : bool :=
  match t with
  | Varint1 b => byte_to_Z b <? 128
  | Varint2 b1 b2 => (128 <=? byte_to_Z b1) && (varint_tok_value t <=? UINT14_MAX)
  end.

Definition wire_type (tag : byte) : Z := uint8 (Z.land (byte_to_Z tag) 0x07).
Definition field_number (tag : byte) : Z := uint8 (Z.shiftr (byte_to_Z tag) 3).
Definition LEN : Z := 2.

(** A tag with wire type LEN and the given field number. *)
Definition tag_ok (tag : byte) (field : Z) : bool :=
  (wire_type tag =? LEN) && (field_number tag =? field).

(** A length-prefixed string: the varint gives the length of [raw], at most
    4096. *)
Definition string_ok (len : varint_tok) (raw : list byte) : bool :=
  varint_tok_ok len
  && (varint_tok_value len =? strlen raw)
  && (strlen raw <=? KEY_VALUE_LIMIT).

(** The fields of a KeyValue body. *)
Inductive kv_item :=
  | KeyItem (tag : byte) (len : varint_tok) (raw : list byte)
  | ValueItem (tag : byte) (any_len : varint_tok) (any_tag : byte)
              (len : varint_tok) (raw : list byte)
  | ValueSkipped (tag : byte) (any_len : varint_tok) (any_tag : byte)
  | UnknownItem (tag : byte).

Definition kv_item_bytes (i : kv_item) : list byte :=
  match i with
  | KeyItem tag len raw => [tag] ++ varint_tok_bytes len ++ raw
  | ValueItem tag any_len any_tag len raw =>
      [tag] ++ varint_tok_bytes any_len ++ [any_tag] ++ varint_tok_bytes len ++ raw
  | ValueSkipped tag any_len any_tag => [tag] ++ varint_tok_bytes any_len ++ [any_tag]
  | UnknownItem tag => [tag]
  end.

Definition kv_item_ok (i : kv_item) : bool :=
  match i with
  | KeyItem tag len raw => tag_ok tag 1 && string_ok len raw
  | ValueItem tag any_len any_tag len raw =>
      tag_ok tag 2 && varint_tok_ok any_len && tag_ok any_tag 1 && string_ok len raw
  | ValueSkipped tag any_len any_tag =>
      tag_ok tag 2 && varint_tok_ok any_len
      && (wire_type any_tag =? LEN) && negb (field_number any_tag =? 1)
  | UnknownItem tag =>
      (wire_type tag =? LEN)
      && negb (field_number tag =? 1) && negb (field_number tag =? 2)
  end.

Definition kv_items_bytes (items : list kv_item) : list byte :=
  concat (kv_item_bytes <$> items).

(** The last key, and the last value, of a body. *)
Fixpoint last_key (items : list kv_item) (acc : option (list byte)) : option (list byte) :=
  match items with
  | [] => acc
  | KeyItem _ _ raw :: rest => last_key rest (Some raw)
  | _ :: rest => last_key rest acc
  end.

Fixpoint last_value (items : list kv_item) (acc : option (list byte)) : option (list byte) :=
  match items with
  | [] => acc
  | ValueItem _ _ _ _ raw :: rest => last_value rest (Some raw)
  | _ :: rest => last_value rest acc
  end.

Record kv_record := {
  rec_tag : byte;
  rec_len : varint_tok;
  rec_items : list kv_item
}.

Definition kv_record_bytes (r : kv_record) : list byte :=
  [rec_tag r] ++ varint_tok_bytes (rec_len r) ++ kv_items_bytes (rec_items r).

(** Tag with wire type LEN and field number 1, a varint that is the length
    of the body, well-formed fields, with a key and a value among them. *)
Definition kv_record_ok (r : kv_record) : bool :=
  tag_ok (rec_tag r) 1
  && varint_tok_ok (rec_len r)
  && (varint_tok_value (rec_len r) =? strlen (kv_items_bytes (rec_items r)))
  && forallb kv_item_ok (rec_items r)
  && is_set (last_key (rec_items r) None)
  && is_set (last_value (rec_items r) None).

Definition records_bytes (recs : list kv_record) : list byte :=
  concat (kv_record_bytes <$> recs).

(** The key and the value a record carries, as C strings. *)
Definition record_pair (r : kv_record) : list byte * list byte :=
  (cstr (default [] (last_key (rec_items r) None)),
   cstr (default [] (last_value (rec_items r) None))).

Definition identity_keys : list (list byte) :=
  [ bytes_of "deployment.environment.name"; bytes_of "service.instance.id";
    bytes_of "service.name"; bytes_of "service.version";
    bytes_of "telemetry.sdk.language"; bytes_of "telemetry.sdk.version";
    bytes_of "telemetry.sdk.name" ].

Definition is_identity_key (key : list byte) : bool :=
  bool_decide (key ∈ identity_keys).

(** The pairs whose key is none of the seven identity keys. *)
Definition resource_pairs (pairs : list (list byte * list byte))
  : list (list byte * list byte) :=
  filter (fun kv => is_identity_key kv.1 = false) pairs.

(** All dispatches of a payload, in order. *)
Fixpoint dispatch_all (pairs : list (list byte * list byte)) (d : otel_process_ctx_data)
  : option otel_process_ctx_data :=
  match pairs with
  | [] => Some d
  | (key, value) :: rest =>
      match dispatch key value d with
      | Some d => dispatch_all rest d
      | None => None
      end
  end.

(** The effect of one body field on the locals of the KeyValue loop. *)
Definition apply_item (s : kv_state) (i : kv_item) : kv_state :=
  match i with
  | KeyItem _ len raw =>
      {| kv_ptr := S (kv_ptr s) + length (varint_tok_bytes len) + length raw;
         key_found := true; value_found := value_found s;
         key_buffer := raw; value_buffer := value_buffer s |}
  | ValueItem _ any_len _ len raw =>
      {| kv_ptr := S (S (kv_ptr s) + length (varint_tok_bytes any_len))
                   + length (varint_tok_bytes len) + length raw;
         key_found := key_found s; value_found := true;
         key_buffer := key_buffer s; value_buffer := raw |}
  | ValueSkipped _ any_len _ =>
      {| kv_ptr := S (S (kv_ptr s) + length (varint_tok_bytes any_len));
         key_found := key_found s; value_found := value_found s;
         key_buffer := key_buffer s; value_buffer := value_buffer s |}
  | UnknownItem _ =>
      {| kv_ptr := S (kv_ptr s);
         key_found := key_found s; value_found := value_found s;
         key_buffer := key_buffer s; value_buffer := value_buffer s |}
  end.

(** The attribute object a finished loop leaves in [*data_out]. *)
Definition parsed_data (r : parse decoder) : option otel_process_ctx_data :=
  match r with
  | Parsed s => Some (data_out s)
  | _ => None
  end.

(** The resources array right after its [calloc]: every cell NULL. *)
Definition initial_data_out : otel_process_ctx_data :=
  data_with_resources (Some []) empty_data.

(** The identity field a key selects, if any. *)
Definition get_field (key : list byte) (d : otel_process_ctx_data)
  : option (list byte) :=
  if decide (key = bytes_of "deployment.environment.name") then
    deployment_environment_name d
  else if decide (key = bytes_of "service.instance.id") then service_instance_id d
  else if decide (key = bytes_of "service.name") then service_name d
  else if decide (key = bytes_of "service.version") then service_version d
  else if decide (key = bytes_of "telemetry.sdk.language") then telemetry_sdk_language d
  else if decide (key = bytes_of "telemetry.sdk.version") then telemetry_sdk_version d
  else if decide (key = bytes_of "telemetry.sdk.name") then telemetry_sdk_name d
  else None.

(** The final check of the decoder on the attribute object of the loop. *)
Definition require_identity (d : otel_process_ctx_data) : option otel_process_ctx_data :=
  if all_required_found d then Some d else None.

(** A list of keys and values, two cells per pair. *)
Fixpoint flatten_pairs (pairs : list (list byte * list byte)) : list (list byte) :=
  match pairs with
  | [] => []
  | (k, v) :: rest => k :: v :: flatten_pairs rest
  end.

Fixpoint pair_up (entries : list (list byte)) : list (list byte * list byte) :=
  match entries with
  | k :: v :: rest => (k, v) :: pair_up rest
  | _ => []
  end.

(** A payload the encoder never produces: the encoding of [sample_data]
    with a stray tag of field 3 put in front of the first KeyValue body
    (and the length of that body adjusted). *)
Definition lax_payload : list byte :=
  match attributes_bytes (identity_entries sample_data ++ resource_entries sample_data) with
  | t :: n :: body => t :: to_char (byte_to_Z n + 1) :: tag_byte 3 :: body
  | _ => []
  end.

(** The record the encoder emits for one attribute, in the wire syntax. *)
Definition varint_tok_of (value : Z) : varint_tok :=
  let value := uint16 value in
  if protobuf_varint_size value =? 1 then Varint1 (to_char value)
  else Varint2 (to_char (Z.lor (Z.land value 0x7F) 0x80)) (to_char (Z.shiftr value 7)).

Definition record_of (kv : list byte * list byte) : kv_record :=
  {| rec_tag := tag_byte 1;
     rec_len := varint_tok_of (protobuf_otel_keyvalue_string_size kv.1 kv.2);
     rec_items :=
       [ KeyItem (tag_byte 1) (varint_tok_of (strlen kv.1)) kv.1;
         ValueItem (tag_byte 2) (varint_tok_of (protobuf_string_size kv.2))
                   (tag_byte 1) (varint_tok_of (strlen kv.2)) kv.2 ] |}.

(** An attribute object whose resources hold a pair keyed by an identity
    key. *)
Definition shadowing_data : otel_process_ctx_data :=
  data_with_resources
    (Some [bytes_of "resource.key1"; bytes_of "resource.value1";
           bytes_of "service.name"; bytes_of "other-service"])
    sample_data.

(** The strings handed to the encoder are C strings: no NUL inside. *)
Definition c_strings (l : list (list byte)) : Prop :=
  Forall (fun s => x00 ∉ s) l.

(** ** Process memory

    The heap holds the [malloc]/[calloc]/[strdup] blocks; a pointer is [0]
    for NULL or [S i] for the block in cell [i]. [free] empties the cell and
    addresses are not handed out again. *)

Inductive block :=
  | Bytes (bytes : list byte)          (* a payload or a C string *)
  | Pointers (cells : list nat).       (* a [const char **] array *)

Definition NULL : nat := 0.

Definition heap_lookup (p : nat) (h : list (option block)) : option block :=
  match p with
  | O => None
  | S i => mjoin (h !! i)
  end.

(** [free(p)]; [free(NULL)] does nothing. *)
Definition free (p : nat) (h : list (option block)) : list (option block) :=
  match p with
  | O => h
  | S i => <[i := None]> h
  end.

(** A successful allocation holding [b]: the new pointer and heap. *)
Definition alloc (b : block) (h : list (option block)) : nat * list (option block) :=
  (S (length h), h ++ [Some b]).

(** The header written into the published mapping. *)
Record otel_process_ctx_mapping := {
  otel_process_ctx_signature : list byte;
  otel_process_ctx_version : Z;
  otel_process_payload_size : Z;
  otel_process_ctx_published_at_ns : Z;
  otel_process_payload : nat
}.

(** The value of an [otel_process_ctx_mapping *]. *)
Inductive mapping_ptr :=
  | MapNull
  | MAP_FAILED
  | MapAt (region : nat).

Record otel_process_ctx_state := {
  publisher_pid : Z;
  mapping : mapping_ptr;
  payload : nat
}.

(** What the publisher reads and writes: its singleton, the heap, the
    header-sized regions mapped into the address space and the pid
    [getpid()] returns. *)
Record process := {
  published_state : otel_process_ctx_state;
  heap : list (option block);
  regions : list (option otel_process_ctx_mapping);
  pid : Z
}.

(** The outcome of each system or library call one API call may issue. *)
Record syscalls := {
  clock_gettime : option (Z * Z);      (* [tv_sec], [tv_nsec]; [None] for -1 *)
  calloc_ok : bool;
  memfd_create_ok : bool;
  ftruncate_ok : bool;
  mmap_ok : bool;
  close_ok : bool;
  madvise_ok : bool;
  munmap_ok : bool
}.

Definition uint64 (z : Z) : Z := z mod 18446744073709551616.

Definition time_now_ns (env : syscalls) : Z :=
  match clock_gettime env with
  | None => 0
  | Some (tv_sec, tv_nsec) => uint64 (tv_sec * 1000000000 + tv_nsec)
  end.

Definition ctx_is_published (state : otel_process_ctx_state) (getpid : Z) : bool :=
  match mapping state with
  | MapAt _ => getpid =? publisher_pid state
  | _ => false
  end.

Definition zero_state : otel_process_ctx_state :=
  {| publisher_pid := 0; mapping := MapNull; payload := NULL |}.

Definition zero_mapping : otel_process_ctx_mapping :=
  {| otel_process_ctx_signature := replicate 8 x00;
     otel_process_ctx_version := 0;
     otel_process_payload_size := 0;
     otel_process_ctx_published_at_ns := 0;
     otel_process_payload := NULL |}.

Definition set_published_state (s : otel_process_ctx_state) (w : process) : process :=
  {| published_state := s; heap := heap w; regions := regions w; pid := pid w |}.

Definition set_heap (h : list (option block)) (w : process) : process :=
  {| published_state := published_state w; heap := h; regions := regions w; pid := pid w |}.

Definition set_regions (r : list (option otel_process_ctx_mapping)) (w : process)
  : process :=
  {| published_state := published_state w; heap := heap w; regions := r; pid := pid w |}.

(** [munmap(state.mapping, sizeof(otel_process_ctx_mapping)) == 0] *)
Definition munmap (env : syscalls) (m : mapping_ptr) (w : process) : bool * process :=
  if munmap_ok env then
    (true, match m with
           | MapAt r => set_regions (<[r := None]> (regions w)) w
           | _ => w
           end)
  else (false, w).

Definition otel_process_ctx_drop_current (env : syscalls) (w : process)
  : bool * process :=
  let state := published_state w in
  let w := set_published_state zero_state w in
  let '(success, w) :=
    if ctx_is_published state (pid w) then munmap env (mapping state) w
    else (true, w) in
  let w := set_heap (free (payload state) (heap w)) w in
  (success, w).

(** A store through [published_state.mapping]. *)
Definition store_mapping (f : otel_process_ctx_mapping -> otel_process_ctx_mapping)
    (w : process) : process :=
  match mapping (published_state w) with
  | MapAt r => set_regions (alter (fmap f) r (regions w)) w
  | _ => w
  end.

Definition load_mapping (w : process) : option otel_process_ctx_mapping :=
  match mapping (published_state w) with
  | MapAt r => mjoin (regions w !! r)
  | _ => None
  end.

Definition set_published_at_ns (t : Z) (m : otel_process_ctx_mapping)
  : otel_process_ctx_mapping :=
  {| otel_process_ctx_signature := otel_process_ctx_signature m;
     otel_process_ctx_version := otel_process_ctx_version m;
     otel_process_payload_size := otel_process_payload_size m;
     otel_process_ctx_published_at_ns := t;
     otel_process_payload := otel_process_payload m |}.

Definition set_payload_size (n : Z) (m : otel_process_ctx_mapping)
  : otel_process_ctx_mapping :=
  {| otel_process_ctx_signature := otel_process_ctx_signature m;
     otel_process_ctx_version := otel_process_ctx_version m;
     otel_process_payload_size := n;
     otel_process_ctx_published_at_ns := otel_process_ctx_published_at_ns m;
     otel_process_payload := otel_process_payload m |}.

Definition set_payload (p : nat) (m : otel_process_ctx_mapping)
  : otel_process_ctx_mapping :=
  {| otel_process_ctx_signature := otel_process_ctx_signature m;
     otel_process_ctx_version := otel_process_ctx_version m;
     otel_process_payload_size := otel_process_payload_size m;
     otel_process_ctx_published_at_ns := otel_process_ctx_published_at_ns m;
     otel_process_payload := p |}.

Definition set_signature (s : list byte) (m : otel_process_ctx_mapping)
  : otel_process_ctx_mapping :=
  {| otel_process_ctx_signature := s;
     otel_process_ctx_version := otel_process_ctx_version m;
     otel_process_payload_size := otel_process_payload_size m;
     otel_process_ctx_published_at_ns := otel_process_ctx_published_at_ns m;
     otel_process_payload := otel_process_payload m |}.

(** ** Update, statement by statement

    The statements of [otel_process_ctx_update] that follow the encoding of
    the new payload, one step each; every state in between is one an
    observer of the mapping may see. The fences and the [prctl] call change
    nothing in the state modelled here. *)

Inductive update_pc :=
  | ZeroTimestamp       (* published_at_ns = 0 *)
  | FenceAfterZero
  | StorePayloadSize
  | StorePayload
  | FenceAfterData
  | StoreTimestamp      (* published_at_ns = the new time *)
  | NameMapping         (* prctl *)
  | FreeOldPayload
  | UpdateBookkeeping
  | UpdateDone.

(** The locals of [otel_process_ctx_update] once the payload is encoded. *)
Record update_locals := {
  new_published_at_ns : Z;
  new_payload_size : Z;
  new_payload : nat
}.

Definition update_step (l : update_locals) (s : update_pc * process)
  : option (update_pc * process) :=
  let '(pc, w) := s in
  match pc with
  | ZeroTimestamp => Some (FenceAfterZero, store_mapping (set_published_at_ns 0) w)
  | FenceAfterZero => Some (StorePayloadSize, w)
  | StorePayloadSize =>
      Some (StorePayload, store_mapping (set_payload_size (new_payload_size l)) w)
  | StorePayload => Some (FenceAfterData, store_mapping (set_payload (new_payload l)) w)
  | FenceAfterData => Some (StoreTimestamp, w)
  | StoreTimestamp =>
      Some (NameMapping, store_mapping (set_published_at_ns (new_published_at_ns l)) w)
  | NameMapping => Some (FreeOldPayload, w)
  | FreeOldPayload =>
      Some (UpdateBookkeeping,
            set_heap (free (payload (published_state w)) (heap w)) w)
  | UpdateBookkeeping =>
      Some (UpdateDone,
            set_published_state
              {| publisher_pid := publisher_pid (published_state w);
                 mapping := mapping (published_state w);
                 payload := new_payload l |} w)
  | UpdateDone => None
  end.

(** The states passed through from [s] on, [s] first. *)
Fixpoint update_trace (fuel : nat) (l : update_locals) (s : update_pc * process)
  : list (update_pc * process) :=
  match fuel with
  | O => [s]
  | S fuel =>
      match update_step l s with
      | Some s' => s :: update_trace fuel l s'
      | None => [s]
      end
  end.

(** Nine statements follow the encoding. *)
Definition update_statements : nat := 9.

Definition run_update (l : update_locals) (w : process) : process :=
  (default (ZeroTimestamp, w) (last (update_trace update_statements l (ZeroTimestamp, w)))).2.


(** The state in which the statements after the encoding start: the new
    payload sits in a fresh heap block. *)
Definition update_start (e : encoded) (published_at_ns : Z) (w : process)
  : update_locals * process :=
  let '(p, h) := alloc (Bytes (enc_bytes e)) (heap w) in
  ({| new_published_at_ns := published_at_ns;
      new_payload_size := enc_size e;
      new_payload := p |},
   set_heap h w).

Definition otel_process_ctx_update (env : syscalls) (published_at_ns : Z)
    (data : option otel_process_ctx_data) (w : process)
  : otel_process_ctx_result * process :=
  match data with
  | Some data =>
      if negb (ctx_is_published (published_state w) (pid w)) then
        (failure "Unexpected: otel_process_ctx_data is NULL or context is not published"
                 "242", w)
      else
        match otel_process_ctx_encode_protobuf_payload (calloc_ok env) data with
        | (result, None) => (result, w)
        | (_, Some e) =>
            let '(l, w) := update_start e published_at_ns w in
            (succeeded, run_update l w)
        end
  | None =>
      (failure "Unexpected: otel_process_ctx_data is NULL or context is not published"
               "242", w)
  end.

(** ** Publish *)

Definition otel_process_ctx_publish (env : syscalls)
    (data : option otel_process_ctx_data) (w : process)
  : otel_process_ctx_result * process :=
  match data with
  | None => (failure "otel_process_ctx_data is NULL" "121", w)
  | Some data =>
      let published_at_ns := time_now_ns env in
      if published_at_ns =? 0 then (failure "Failed to get current time" "125", w)
      else if ctx_is_published (published_state w) (pid w) then
        otel_process_ctx_update env published_at_ns (Some data) w
      else
        let '(dropped, w) := otel_process_ctx_drop_current env w in
        if negb dropped then (failure "Failed to drop previous context" "134", w)
        else
          match otel_process_ctx_encode_protobuf_payload (calloc_ok env) data with
          | (result, None) => (result, w)
          | (_, Some e) =>
              let payload_size := enc_size e in
              let '(p, h) := alloc (Bytes (enc_bytes e)) (heap w) in
              let w := set_heap h w in
              let with_mapping (m : mapping_ptr) (w : process) :=
                set_published_state
                  {| publisher_pid := pid w; mapping := m; payload := p |} w in
              (* publisher_pid is set before the mapping exists *)
              let w := with_mapping MapNull w in
              let mmap (w : process) : process :=
                if mmap_ok env then
                  with_mapping (MapAt (length (regions w)))
                    (set_regions (regions w ++ [Some zero_mapping]) w)
                else with_mapping MAP_FAILED w in
              if memfd_create_ok env && negb (ftruncate_ok env) then
                (failure "Failed to truncate memfd" "152",
                 (otel_process_ctx_drop_current env w).2)
              else
                let w := mmap w in
                let failed_to_close_fd := memfd_create_ok env && negb (close_ok env) in
                if negb (mmap_ok env) || failed_to_close_fd then
                  let w := (otel_process_ctx_drop_current env w).2 in
                  if failed_to_close_fd then (failure "Failed to close memfd" "164", w)
                  else (failure "Failed to allocate mapping" "166", w)
                else if negb (madvise_ok env) then
                  let '(dropped, w) := otel_process_ctx_drop_current env w in
                  if dropped then (failure "Failed to setup MADV_DONTFORK" "174", w)
                  else (failure "Failed to drop context" "176", w)
                else
                  let w := store_mapping
                             (fun _ =>
                                {| otel_process_ctx_signature := replicate 8 x00;
                                   otel_process_ctx_version := 2;
                                   otel_process_payload_size := payload_size;
                                   otel_process_ctx_published_at_ns := published_at_ns;
                                   otel_process_payload := p |}) w in
                  (* fence, then the signature *)
                  let w := store_mapping (set_signature OTEL_CTX_SIGNATURE) w in
                  (succeeded, w)
          end
  end.

(** What an observer of the mapping reads: timestamp, payload size and
    payload pointer. *)
Definition observe (w : process) : option (Z * Z * nat) :=
  match load_mapping w with
  | Some m => Some (otel_process_ctx_published_at_ns m,
                    otel_process_payload_size m, otel_process_payload m)
  | None => None
  end.

(** The published context reflects [data]: the header is complete, its
    timestamp is not zero and its payload pointer and size are those of a
    live buffer holding the encoding of [data]. *)
Definition reflects (data : otel_process_ctx_data) (w : process) : Prop :=
  exists m,
    load_mapping w = Some m
    /\ otel_process_ctx_published_at_ns m <> 0
    /\ heap_lookup (otel_process_payload m) (heap w)
       = Some (Bytes (attributes_bytes (identity_entries data)
                      ++ attributes_bytes (resource_entries data)))
    /\ otel_process_payload_size m = uint32 (prepass_total_size data).

Definition initial_process (getpid : Z) : process :=
  {| published_state := zero_state; heap := []; regions := []; pid := getpid |}.

Definition good_env (now : Z) : syscalls :=
  {| clock_gettime := Some (now, 0); calloc_ok := true; memfd_create_ok := true;
     ftruncate_ok := true; mmap_ok := true; close_ok := true; madvise_ok := true;
     munmap_ok := true |}.

(** The header an observer finds while the update of a mapping holding
    [m0] stands before statement [pc]. *)
Definition header_at (pc : update_pc) (l : update_locals) (m0 : otel_process_ctx_mapping)
  : otel_process_ctx_mapping :=
  match pc with
  | ZeroTimestamp => m0
  | FenceAfterZero | StorePayloadSize => set_published_at_ns 0 m0
  | StorePayload => set_payload_size (new_payload_size l) (set_published_at_ns 0 m0)
  | FenceAfterData | StoreTimestamp =>
      set_payload (new_payload l)
        (set_payload_size (new_payload_size l) (set_published_at_ns 0 m0))
  | NameMapping | FreeOldPayload | UpdateBookkeeping | UpdateDone =>
      set_published_at_ns (new_published_at_ns l)
        (set_payload (new_payload l)
           (set_payload_size (new_payload_size l) (set_published_at_ns 0 m0)))
  end.




(** The singleton and the mapping agree that [data] is published by this
    process. *)
Definition published (data : otel_process_ctx_data) (w : process) : Prop :=
  ctx_is_published (published_state w) (pid w) = true
  /\ reflects data w
  /\ exists m, load_mapping w = Some m
               /\ payload (published_state w) = otel_process_payload m.

(** A second attribute object, and one with a 4097-byte service name. *)
Definition updated_data : otel_process_ctx_data :=
  {| deployment_environment_name := Some (bytes_of "staging");
     service_instance_id := Some (bytes_of "456d8444-2c7e-46e3-89f6-6217880f7456");
     service_name := Some (bytes_of "my-service-updated");
     service_version := Some (bytes_of "7.8.9");
     telemetry_sdk_language := Some (bytes_of "c");
     telemetry_sdk_version := Some (bytes_of "1.2.3");
     telemetry_sdk_name := Some (bytes_of "example_ctx.c");
     resources := None |}.

Definition oversize_data : otel_process_ctx_data :=
  {| deployment_environment_name := Some (bytes_of "staging");
     service_instance_id := Some (bytes_of "456");
     service_name := Some (replicate 4097 "a"%byte);
     service_version := Some (bytes_of "7.8.9");
     telemetry_sdk_language := Some (bytes_of "c");
     telemetry_sdk_version := Some (bytes_of "1.2.3");
     telemetry_sdk_name := Some (bytes_of "example_ctx.c");
     resources := None |}.

(** The process after a first successful publish of [sample_data]. *)
Definition published_sample : process :=
  (otel_process_ctx_publish (good_env 1) (Some sample_data) (initial_process 42)).2.




(** The process while the update started in [w1] stands before statement
    [pc]. *)
Definition process_at (pc : update_pc) (l : update_locals) (w1 : process) : process :=
  let zeroed := store_mapping (set_published_at_ns 0) w1 in
  let sized := store_mapping (set_payload_size (new_payload_size l)) zeroed in
  let pointed := store_mapping (set_payload (new_payload l)) sized in
  let stamped := store_mapping (set_published_at_ns (new_published_at_ns l)) pointed in
  let freed := set_heap (free (payload (published_state stamped)) (heap stamped)) stamped in
  match pc with
  | ZeroTimestamp => w1
  | FenceAfterZero | StorePayloadSize => zeroed
  | StorePayload => sized
  | FenceAfterData | StoreTimestamp => pointed
  | NameMapping | FreeOldPayload => stamped
  | UpdateBookkeeping => freed
  | UpdateDone =>
      set_published_state
        {| publisher_pid := publisher_pid (published_state freed);
           mapping := mapping (published_state freed);
           payload := new_payload l |} freed
  end.

(** ** Dropping a read result *)

(** The attribute object as the cleanup code sees it: every field a heap
    pointer, [resources] a pointer to a NULL-terminated array of pointers. *)
Definition otel_process_ctx_data_ptrs : Type := otel_process_ctx_data_of nat nat.

Definition empty_data_ptrs : otel_process_ctx_data_ptrs :=
  {| deployment_environment_name := NULL;
     service_instance_id := NULL;
     service_name := NULL;
     service_version := NULL;
     telemetry_sdk_language := NULL;
     telemetry_sdk_version := NULL;
     telemetry_sdk_name := NULL;
     resources := NULL |}.

(** Modelled from the spec: [otel_process_ctx_read_result] is declared in
    [otel_process_ctx.h], which is not among the sources; its fields are the
    ones the initialisers of [otel_process_ctx_read] name. *)
Record otel_process_ctx_read_result := {
  read_success : bool;
  read_error_message : option string;
  data : otel_process_ctx_data_ptrs
}.

(** [if (p) free(p)] *)
Definition free_if_set (p : nat) (h : list (option block)) : list (option block) :=
  if decide (p = NULL) then h else free p h.

(** The seven conditional frees at the head of
    [otel_process_ctx_read_data_drop]. *)
Definition drop_identity_strings (d : otel_process_ctx_data_ptrs)
    (h : list (option block)) : list (option block) :=
  let h := free_if_set (deployment_environment_name d) h in
  let h := free_if_set (service_instance_id d) h in
  let h := free_if_set (service_name d) h in
  let h := free_if_set (service_version d) h in
  let h := free_if_set (telemetry_sdk_language d) h in
  let h := free_if_set (telemetry_sdk_version d) h in
  free_if_set (telemetry_sdk_name d) h.

(** The cells of an array up to its first NULL. *)
Fixpoint until_null (cells : list nat) : list nat :=
  match cells with
  | [] => []
  | O :: _ => []
  | p :: rest => p :: until_null rest
  end.

(** The cells [data.resources[i]] the loop visits, read from the array
    block as it stands when the loop starts. *)
Definition resource_cells (p : nat) (h : list (option block)) : list nat :=
  match heap_lookup p h with
  | Some (Pointers cells) => until_null cells
  | _ => []
  end.

Definition otel_process_ctx_read_data_drop (d : otel_process_ctx_data_ptrs)
    (h : list (option block)) : list (option block) :=
  let h := drop_identity_strings d h in
  if decide (resources d = NULL) then h
  else
    let h := foldl (fun h p => free p h) h (resource_cells (resources d) h) in
    free (resources d) h.

Definition dropped_result : otel_process_ctx_read_result :=
  {| read_success := false;
     read_error_message := Some "Data dropped";
     data := empty_data_ptrs |}.

(** [result] is [None] for a NULL pointer. Returns the flag, the result
    object behind the pointer and the heap. *)
Definition otel_process_ctx_read_drop (result : option otel_process_ctx_read_result)
    (h : list (option block))
  : bool * option otel_process_ctx_read_result * list (option block) :=
  match result with
  | None => (false, None, h)
  | Some r =>
      if negb (read_success r) then (false, Some r, h)
      else (true, Some dropped_result, otel_process_ctx_read_data_drop (data r) h)
  end.

(** Every pointer the data of a read result owns: its seven strings, the
    strings of its resources array and the array. *)
Definition owned_pointers (d : otel_process_ctx_data_ptrs) (h : list (option block))
  : list nat :=
  [ deployment_environment_name d; service_instance_id d; service_name d;
    service_version d; telemetry_sdk_language d; telemetry_sdk_version d;
    telemetry_sdk_name d ]
  ++ (if decide (resources d = NULL) then []
      else resource_cells (resources d) (drop_identity_strings d h) ++ [resources d]).

(** A heap holding the data of a read result, and that result. *)
Definition sample_heap : list (option block) :=
  [ Some (Bytes (bytes_of "prod")); Some (Bytes (bytes_of "123"));
    Some (Bytes (bytes_of "my-service")); Some (Bytes (bytes_of "4.5.6"));
    Some (Bytes (bytes_of "c")); Some (Bytes (bytes_of "1.2.3"));
    Some (Bytes (bytes_of "example_ctx.c"));
    Some (Pointers [9; 10; 0]%nat);
    Some (Bytes (bytes_of "resource.key1")); Some (Bytes (bytes_of "resource.value1"));
    Some (Bytes (bytes_of "unrelated")) ].

Definition sample_read_result : otel_process_ctx_read_result :=
  {| read_success := true;
     read_error_message := None;
     data := {| deployment_environment_name := 1%nat;
                service_instance_id := 2%nat;
                service_name := 3%nat;
                service_version := 4%nat;
                telemetry_sdk_language := 5%nat;
                telemetry_sdk_version := 6%nat;
                telemetry_sdk_name := 7%nat;
                resources := 8%nat |} |}.

(** ** Further sample objects *)

(** An attribute object with a NULL field behind a 4097-byte one. *)
Definition null_field_data : otel_process_ctx_data :=
  {| deployment_environment_name := Some (replicate 4097 "a"%byte);
     service_instance_id := None;
     service_name := Some (bytes_of "my-service");
     service_version := Some (bytes_of "4.5.6");
     telemetry_sdk_language := Some (bytes_of "c");
     telemetry_sdk_version := Some (bytes_of "1.2.3");
     telemetry_sdk_name := Some (bytes_of "example_ctx.c");
     resources := None |}.

(** ** What the decoder depends on *)

(** Two runs of the KeyValue loop that stand at the same place: the scratch
    buffers count only once they have been written. *)
Definition kv_similar (s s' : kv_state) : Prop :=
  kv_ptr s = kv_ptr s'
  /\ key_found s = key_found s'
  /\ value_found s = value_found s'
  /\ (key_found s = true -> key_buffer s = key_buffer s')
  /\ (value_found s = true -> value_buffer s = value_buffer s').

Definition parse_similar {A : Type} (R : A -> A -> Prop) (r r' : parse A) : Prop :=
  match r, r' with
  | Parsed a, Parsed a' => R a a'
  | Rejected, Rejected => True
  | OutOfFuel, OutOfFuel => True
  | _, _ => False
  end.

Definition decoder_similar (s s' : decoder) : Prop :=
  dec_ptr s = dec_ptr s' /\ data_out s = data_out s'.

(** The payload the encoder emits for [sample_data]. *)
Definition sample_payload : list byte :=
  attributes_bytes (identity_entries sample_data)
  ++ attributes_bytes (resource_entries sample_data).

(** The value of the last pair keyed [key], if any. *)
Definition last_value_of (key : list byte) (pairs : list (list byte * list byte))
  : option (list byte) :=
  foldl (fun acc kv => if decide (kv.1 = key) then Some kv.2 else acc) None pairs.

(** The records the encoder emits for [shadowing_data], and what the
    decoder makes of them. *)
Definition shadowing_records : list kv_record :=
  record_of <$> pair_up (data_strings shadowing_data).

Definition shadowing_decoded : otel_process_ctx_data :=
  {| deployment_environment_name := Some (bytes_of "prod");
     service_instance_id := Some (bytes_of "123d8444-2c7e-46e3-89f6-6217880f7123");
     service_name := Some (bytes_of "other-service");
     service_version := Some (bytes_of "4.5.6");
     telemetry_sdk_language := Some (bytes_of "c");
     telemetry_sdk_version := Some (bytes_of "1.2.3");
     telemetry_sdk_name := Some (bytes_of "example_ctx.c");
     resources := Some [bytes_of "resource.key1"; bytes_of "resource.value1"] |}.

(** ** The publisher over many calls *)

(** A call into the publisher, with the outcomes of the system calls it
    issues. *)
Inductive api_call :=
  | CallPublish (env : syscalls) (data : option otel_process_ctx_data)
  | CallDropCurrent (env : syscalls).

Definition api_run (c : api_call) (w : process) : process :=
  match c with
  | CallPublish env data => (otel_process_ctx_publish env data w).2
  | CallDropCurrent env => (otel_process_ctx_drop_current env w).2
  end.

(** What [fork()] leaves in the child: a copy of the singleton and of the
    heap under another pid. Which regions the child has is left open (the
    published mapping is not among them once [madvise] has marked it
    MADV_DONTFORK). The pid of the child is not the one recorded in the
    singleton, which is the pid of the parent or of an earlier ancestor. *)
Definition forked (w w' : process) : Prop :=
  published_state w' = published_state w
  /\ heap w' = heap w
  /\ pid w' <> publisher_pid (published_state w).

(** One step of the life of the publisher: a call, or a fork after which
    the child is followed. *)
Definition api_steps_to (w w' : process) : Prop :=
  (exists c, w' = api_run c w) \/ forked w w'.

(** No heap block is live except the payload the singleton points at. *)
Definition no_leak (w : process) : Prop :=
  forall p b, heap_lookup p (heap w) = Some b -> p = payload (published_state w).

(** The header as the comments of [otel_process_ctx_mapping] describe it:
    signature and version in place, a nonzero timestamp, and a payload
    pointer that is the one kept in the singleton and points at a live
    buffer of the size the header gives (modulo 2^32, the width of the size
    field). *)
Definition header_valid (w : process) : Prop :=
  exists m bs,
    load_mapping w = Some m
    /\ otel_process_ctx_signature m = OTEL_CTX_SIGNATURE
    /\ otel_process_ctx_version m = 2
    /\ 0 < otel_process_ctx_published_at_ns m < 18446744073709551616
    /\ otel_process_payload m = payload (published_state w)
    /\ otel_process_payload m <> NULL
    /\ heap_lookup (otel_process_payload m) (heap w) = Some (Bytes bs)
    /\ otel_process_payload_size m = uint32 (Z.of_nat (length bs)).

(** The state of a process in which no context is published by the
    publisher, left by the first part of a fresh publish: singleton zeroed,
    the payload it pointed at freed. *)
Definition dropped (w : process) : process :=
  set_heap (free (payload (published_state w)) (heap w))
    (set_published_state zero_state w).

(** The process after a fresh publish of the encoding [e] went through:
    the payload in a new heap block, the header in a new region. *)
Definition freshly_published (e : encoded) (published_at_ns : Z) (w : process)
  : process :=
  let w0 := dropped w in
  {| published_state :=
       {| publisher_pid := pid w;
          mapping := MapAt (length (regions w));
          payload := S (length (heap w)) |};
     heap := heap w0 ++ [Some (Bytes (enc_bytes e))];
     regions := regions w
                ++ [Some {| otel_process_ctx_signature := OTEL_CTX_SIGNATURE;
                            otel_process_ctx_version := 2;
                            otel_process_payload_size := enc_size e;
                            otel_process_ctx_published_at_ns := published_at_ns;
                            otel_process_payload := S (length (heap w)) |}];
     pid := pid w |}.

(** Every system call of a fresh publish goes through ([memfd_create] may
    fail: the anonymous mapping is used then). *)
Definition mapping_calls_ok (env : syscalls) : bool :=
  mmap_ok env && madvise_ok env
  && (negb (memfd_create_ok env) || (ftruncate_ok env && close_ok env)).

(** The process after a fresh publish that got as far as encoding the
    payload and then failed: singleton zeroed, the new payload freed again,
    and [tail] for what became of the region if one was mapped. *)
Definition publish_undone (tail : list (option otel_process_ctx_mapping)) (w : process)
  : process :=
  {| published_state := zero_state;
     heap := heap (dropped w) ++ [None];
     regions := regions w ++ tail;
     pid := pid w |}.

(** The errors of the mapping part of a fresh publish. *)
Definition mapping_errors : list otel_process_ctx_result :=
  [ failure "Failed to truncate memfd" "152";
    failure "Failed to close memfd" "164";
    failure "Failed to allocate mapping" "166";
    failure "Failed to setup MADV_DONTFORK" "174";
    failure "Failed to drop context" "176" ].

(** The process after an update to the encoding [e] went through: the new
    payload in a new heap block, the old one freed, the header of the
    mapping rewritten in place. *)
Definition updated (e : encoded) (published_at_ns : Z) (w : process) : process :=
  let '(l, w1) := update_start e published_at_ns w in run_update l w1.

(** Every result the encoder can return. *)
Definition encode_results : list otel_process_ctx_result :=
  [ succeeded;
    failure "Value in otel_process_ctx_data is NULL" "303";
    failure "Length of key in otel_process_ctx_data exceeds 4096 limit" "312";
    failure "Length of value in otel_process_ctx_data exceeds 4096 limit" "315";
    failure "Failed to allocate memory for payload" "394" ].

(** Every result publish can return. *)
Definition publish_results : list otel_process_ctx_result :=
  [ failure "otel_process_ctx_data is NULL" "121";
    failure "Failed to get current time" "125" ]
  ++ encode_results ++ mapping_errors.

(** Every system call works except [madvise]. *)
Definition no_madvise_env : syscalls :=
  {| clock_gettime := Some (1, 0); calloc_ok := true; memfd_create_ok := true;
     ftruncate_ok := true; mmap_ok := true; close_ok := true; madvise_ok := false;
     munmap_ok := true |}.

(** * The self-reader

    [otel_process_ctx_read] and what it calls: the scan of
    [/proc/self/maps], the check of the header and the decoder at work on
    the heap. *)

(** ** Finding the mapping *)

Definition ULLONG_MAX : Z := 18446744073709551615.

(** [isspace] in the C locale. *)
Definition isspace (c : byte) : bool :=
  let z := byte_to_Z c in (z =? 32) || ((9 <=? z) && (z <=? 13)).

(** The value of a hexadecimal digit, upper or lower case. *)
Definition hex_digit_value (c : byte) : option Z :=
  let z := byte_to_Z c in
  if (48 <=? z) && (z <=? 57) then Some (z - 48)
  else if (97 <=? z) && (z <=? 102) then Some (z - 87)
  else if (65 <=? z) && (z <=? 70) then Some (z - 55)
  else None.

Fixpoint skip_spaces (s : list byte) : list byte :=
  match s with
  | c :: rest => if isspace c then skip_spaces rest else s
  | [] => []
  end.

(** The number the leading hexadecimal digits of [s] denote, continuing
    from [acc]. *)
Fixpoint hex_digits_value (s : list byte) (acc : Z) : Z :=
  match s with
  | c :: rest =>
      match hex_digit_value c with
      | Some d => hex_digits_value rest (acc * 16 + d)
      | None => acc
      end
  | [] => acc
  end.

(** [strtoull(s, &endptr, 16)], the value returned: white space, an
    optional sign, an optional [0x] or [0X], then the digits; [ULLONG_MAX]
    when the digits denote more than that, the negation modulo 2^64 behind
    a minus sign, and 0 when there is no digit. *)
Definition strtoull16 (s : list byte) : Z :=
  let s := skip_spaces s in
  let '(negative, s) :=
    match s with
    | c :: rest =>
        if decide (c = "-"%byte) then (true, rest)
        else if decide (c = "+"%byte) then (false, rest)
        else (false, s)
    | [] => (false, s)
    end in
  let s :=
    match s with
    | c0 :: cx :: rest =>
        if bool_decide (c0 = "0"%byte)
           && (bool_decide (cx = "x"%byte) || bool_decide (cx = "X"%byte))
        then rest else s
    | _ => s
    end in
  let value := hex_digits_value s 0 in
  if ULLONG_MAX <? value then ULLONG_MAX
  else if negative then uint64 (- value)
  else value.

(** [parse_mapping_start(char *line)]: the address, 0 for NULL. *)
Definition parse_mapping_start (line : list byte) : Z :=
  let start := strtoull16 line in
  if (start =? 0) || (start =? ULLONG_MAX) then 0 else start.

(** [strstr(haystack, needle) != NULL] *)
Fixpoint strstr (haystack needle : list byte) : bool :=
  bool_decide (needle `prefix_of` haystack)
  || match haystack with
     | _ :: rest => strstr rest needle
     | [] => false
     end.

(** The test of [try_finding_mapping] on the C string [fgets] left in
    [line]. *)
Definition is_process_ctx (line : list byte) : bool :=
  strstr (cstr line) (bytes_of "[anon_shmem:OTEL_CTX]")
  || strstr (cstr line) (bytes_of "/memfd:OTEL_CTX").

(** [fgets(line, n + 1, fp)] on the rest of the file: the characters read,
    at most [n] of them and none after a newline, and what is left of the
    file. *)
Fixpoint fgets (n : nat) (stream : list byte) : list byte * list byte :=
  match n, stream with
  | S n, c :: rest =>
      if decide (c = "010"%byte) then ([c], rest)
      else let '(line, rest) := fgets n rest in (c :: line, rest)
  | _, _ => ([], stream)
  end.

(** [sizeof(line)] *)
Definition LINE_SIZE : nat := Z.to_nat 8192.

(** The loop of [try_finding_mapping]; [fgets] returns NULL at the end of
    the file. Every turn reads at least one character. *)
Fixpoint scan_maps (fuel : nat) (stream : list byte) : Z :=
  match fuel with
  | O => 0
  | S fuel =>
      match stream with
      | [] => 0
      | _ =>
          let '(line, rest) := fgets (LINE_SIZE - 1) stream in
          if is_process_ctx line then parse_mapping_start line
          else scan_maps fuel rest
      end
  end.

(** [maps] is what [/proc/self/maps] holds, [None] when [fopen] fails. *)
Definition try_finding_mapping (maps : option (list byte)) : Z :=
  match maps with
  | None => 0
  | Some stream => scan_maps (length stream) stream
  end.

(** A hexadecimal digit as [/proc/self/maps] prints it. *)
Definition hex_char (d : Z) : byte :=
  to_char (if d <? 10 then 48 + d else 87 + d).

(** The number a list of digit values denotes, most significant first. *)
Definition hex_value (digits : list Z) : Z :=
  foldl (fun acc d => acc * 16 + d) 0 digits.

(** A line of [/proc/self/maps] as [fgets] returns it whole: it ends at its
    only newline and fits the line buffer. *)
Definition maps_line (line : list byte) : Prop :=
  exists body, line = body ++ ["010"%byte]
               /\ ("010"%byte ∉ body)
               /\ (length line < LINE_SIZE)%nat.

(** A line of [/proc/self/maps] for the published mapping, at address
    0x7f12a000, between two other lines. *)
Definition sample_maps : list byte :=
  bytes_of "55d0c0a00000-55d0c0a01000 r--p 00000000 08:01 1234 /usr/bin/example_ctx"
  ++ ["010"%byte]
  ++ bytes_of "7f12a000-7f12b000 rw-p 00000000 00:01 2049 /memfd:OTEL_CTX (deleted)"
  ++ ["010"%byte]
  ++ bytes_of "7ffc1000-7ffc2000 rw-p 00000000 00:00 0 [stack]"
  ++ ["010"%byte].

Definition sample_maps_line : list byte :=
  bytes_of "7f12a000-7f12b000 rw-p 00000000 00:01 2049 /memfd:OTEL_CTX (deleted)"
  ++ ["010"%byte].

(** ** The decoder at work on the heap

    [otel_process_ctx_decode_payload] once more, this time with what it
    allocates: the resources array, a copy of every value and of every
    resource key, and the pointers it leaves in [*data_out]. The parsing is
    the one of the decoder above; the cells of the two scratch buffers are
    kept in the state of the loop as before. *)

(** The allocator: the heap, and for each allocation still to come whether
    it succeeds ([true]) or returns NULL; every allocation past the end of
    the list succeeds. *)
Record allocator := {
  blocks : list (option block);
  outcomes : list bool
}.

Definition malloc (b : block) (a : allocator) : nat * allocator :=
  match outcomes a with
  | false :: rest => (NULL, {| blocks := blocks a; outcomes := rest |})
  | _ =>
      let '(p, h) := alloc b (blocks a) in
      (p, {| blocks := h; outcomes := tail (outcomes a) |})
  end.

(** [strdup(buffer)]: a copy of the C string in [buffer]. *)
Definition strdup (buffer : list byte) (a : allocator) : nat * allocator :=
  malloc (Bytes (cstr buffer)) a.

(** [calloc(n, 1)] *)
Definition calloc_bytes (n : nat) (a : allocator) : nat * allocator :=
  malloc (Bytes (replicate n x00)) a.

(** [calloc] of an array of [n] pointers *)
Definition calloc_pointers (n : nat) (a : allocator) : nat * allocator :=
  malloc (Pointers (replicate n NULL)) a.

Definition on_blocks (f : list (option block) -> list (option block)) (a : allocator)
  : allocator :=
  {| blocks := f (blocks a); outcomes := outcomes a |}.

(** [array[index] = p] on a [const char **] in the heap. *)
Definition store_cell (array index p : nat) (h : list (option block))
  : list (option block) :=
  match array with
  | O => h
  | S i =>
      alter (fun cell => match cell with
                         | Some (Pointers cells) => Some (Pointers (<[index := p]> cells))
                         | _ => cell
                         end) i h
  end.

(** The [strcmp] chain of "Dispatch based on key" on the fields of
    [*data_out]: the attribute object with [value] in the field [key]
    names, [None] when [key] is none of the seven. *)
Definition set_identity_field {Str Arr : Type} (key : list byte) (value : Str)
    (d : otel_process_ctx_data_of Str Arr) : option (otel_process_ctx_data_of Str Arr) :=
  if decide (key = bytes_of "deployment.environment.name") then
    Some {| deployment_environment_name := value;
            service_instance_id := service_instance_id d;
            service_name := service_name d;
            service_version := service_version d;
            telemetry_sdk_language := telemetry_sdk_language d;
            telemetry_sdk_version := telemetry_sdk_version d;
            telemetry_sdk_name := telemetry_sdk_name d;
            resources := resources d |}
  else if decide (key = bytes_of "service.instance.id") then
    Some {| deployment_environment_name := deployment_environment_name d;
            service_instance_id := value;
            service_name := service_name d;
            service_version := service_version d;
            telemetry_sdk_language := telemetry_sdk_language d;
            telemetry_sdk_version := telemetry_sdk_version d;
            telemetry_sdk_name := telemetry_sdk_name d;
            resources := resources d |}
  else if decide (key = bytes_of "service.name") then
    Some {| deployment_environment_name := deployment_environment_name d;
            service_instance_id := service_instance_id d;
            service_name := value;
            service_version := service_version d;
            telemetry_sdk_language := telemetry_sdk_language d;
            telemetry_sdk_version := telemetry_sdk_version d;
            telemetry_sdk_name := telemetry_sdk_name d;
            resources := resources d |}
  else if decide (key = bytes_of "service.version") then
    Some {| deployment_environment_name := deployment_environment_name d;
            service_instance_id := service_instance_id d;
            service_name := service_name d;
            service_version := value;
            telemetry_sdk_language := telemetry_sdk_language d;
            telemetry_sdk_version := telemetry_sdk_version d;
            telemetry_sdk_name := telemetry_sdk_name d;
            resources := resources d |}
  else if decide (key = bytes_of "telemetry.sdk.language") then
    Some {| deployment_environment_name := deployment_environment_name d;
            service_instance_id := service_instance_id d;
            service_name := service_name d;
            service_version := service_version d;
            telemetry_sdk_language := value;
            telemetry_sdk_version := telemetry_sdk_version d;
            telemetry_sdk_name := telemetry_sdk_name d;
            resources := resources d |}
  else if decide (key = bytes_of "telemetry.sdk.version") then
    Some {| deployment_environment_name := deployment_environment_name d;
            service_instance_id := service_instance_id d;
            service_name := service_name d;
            service_version := service_version d;
            telemetry_sdk_language := telemetry_sdk_language d;
            telemetry_sdk_version := value;
            telemetry_sdk_name := telemetry_sdk_name d;
            resources := resources d |}
  else if decide (key = bytes_of "telemetry.sdk.name") then
    Some {| deployment_environment_name := deployment_environment_name d;
            service_instance_id := service_instance_id d;
            service_name := service_name d;
            service_version := service_version d;
            telemetry_sdk_language := telemetry_sdk_language d;
            telemetry_sdk_version := telemetry_sdk_version d;
            telemetry_sdk_name := value;
            resources := resources d |}
  else None.

(** The first part of the body of the outer loop, down to the check of
    [key_found] and [value_found]: the locals of the KeyValue loop when a
    KeyValue with a key and a value was read, [Rejected] where the source
    returns [false]. *)
Definition read_keyvalue (mem : list byte) (ptr end_ptr : nat)
    (key_buffer value_buffer : list byte) : parse kv_state :=
  match read_protobuf_tag mem ptr end_ptr with
  | None => Rejected
  | Some (ptr, field_number) =>
      if negb (field_number =? 1) then Rejected else
      match read_protobuf_varint mem ptr end_ptr with
      | None => Rejected
      | Some (ptr, kv_len) =>
          let kv_end := (ptr + Z.to_nat kv_len)%nat in
          if (end_ptr <? kv_end)%nat then Rejected else
          match parse_keyvalue (Z.to_nat kv_len) mem kv_end
                  {| kv_ptr := ptr; key_found := false; value_found := false;
                     key_buffer := key_buffer; value_buffer := value_buffer |} with
          | Parsed kv =>
              if negb (key_found kv) || negb (value_found kv) then Rejected
              else Parsed kv
          | other => other
          end
      end
  end.

(** What the decoder has built so far: [*data_out], [resource_index] and
    the heap. *)
Record heap_out := {
  out_data : otel_process_ctx_data_ptrs;
  out_index : nat;
  out_allocator : allocator
}.

(** How the second part of the body of the outer loop ends: the pair is
    stored and the loop goes on, or the function returns [false]. *)
Inductive stored :=
  | Stored (o : heap_out)
  | Refused (o : heap_out).

(** The second part of the body of the outer loop: the copy of the value,
    the dispatch, and for an unknown key the copy of the key and the two
    stores into the resources array. *)
Definition store_keyvalue (key_buffer value_buffer : list byte) (o : heap_out)
  : stored :=
  let '(value, a) := strdup value_buffer (out_allocator o) in
  if decide (value = NULL) then
    Refused {| out_data := out_data o; out_index := out_index o; out_allocator := a |}
  else
    match set_identity_field (cstr key_buffer) value (out_data o) with
    | Some d =>
        Stored {| out_data := d; out_index := out_index o; out_allocator := a |}
    | None =>
        let '(key, a) := strdup key_buffer a in
        if bool_decide (key = NULL) || (resource_capacity <=? out_index o + 2)%nat then
          Refused {| out_data := out_data o; out_index := out_index o;
                     out_allocator := on_blocks (free value) (on_blocks (free key) a) |}
        else
          let array := resources (out_data o) in
          let a := on_blocks (store_cell array (out_index o) key) a in
          let a := on_blocks (store_cell array (out_index o + 1) value) a in
          Stored {| out_data := out_data o; out_index := out_index o + 2;
                    out_allocator := a |}
    end.

(** State carried by the outer loop. *)
Record heap_decoder := {
  hd_ptr : nat;
  hd_key_buffer : list byte;
  hd_value_buffer : list byte;
  hd_out : heap_out
}.

(** How a run of the outer loop ends: at the end of the payload, or with
    the function returning [false]. *)
Inductive heap_parse :=
  | HeapParsed (s : heap_decoder)
  | HeapRejected (o : heap_out)
  | HeapOutOfFuel.

(** [while (ptr < end_ptr) { ... }] *)
Fixpoint parse_attributes_on_heap (fuel : nat) (mem : list byte) (end_ptr : nat)
    (s : heap_decoder) : heap_parse :=
  if (end_ptr <=? hd_ptr s)%nat then HeapParsed s else
  match fuel with
  | O => HeapOutOfFuel
  | S fuel =>
      match read_keyvalue mem (hd_ptr s) end_ptr (hd_key_buffer s) (hd_value_buffer s) with
      | Rejected => HeapRejected (hd_out s)
      | OutOfFuel => HeapOutOfFuel
      | Parsed kv =>
          match store_keyvalue (key_buffer kv) (value_buffer kv) (hd_out s) with
          | Stored o =>
              parse_attributes_on_heap fuel mem end_ptr
                {| hd_ptr := kv_ptr kv;
                   hd_key_buffer := key_buffer kv;
                   hd_value_buffer := value_buffer kv;
                   hd_out := o |}
          | Refused o => HeapRejected o
          end
      end
  end.

(** "Validate all required fields were found", on the pointers. *)
Definition all_required_set (d : otel_process_ctx_data_ptrs) : bool :=
  negb (bool_decide (deployment_environment_name d = NULL))
  && negb (bool_decide (service_instance_id d = NULL))
  && negb (bool_decide (service_name d = NULL))
  && negb (bool_decide (service_version d = NULL))
  && negb (bool_decide (telemetry_sdk_language d = NULL))
  && negb (bool_decide (telemetry_sdk_version d = NULL))
  && negb (bool_decide (telemetry_sdk_name d = NULL)).

Definition with_resources_ptr (array : nat) (d : otel_process_ctx_data_ptrs)
  : otel_process_ctx_data_ptrs :=
  {| deployment_environment_name := deployment_environment_name d;
     service_instance_id := service_instance_id d;
     service_name := service_name d;
     service_version := service_version d;
     telemetry_sdk_language := telemetry_sdk_language d;
     telemetry_sdk_version := telemetry_sdk_version d;
     telemetry_sdk_name := telemetry_sdk_name d;
     resources := array |}.

(** [otel_process_ctx_decode_payload] with its heap: the flag returned,
    [*data_out] and the allocator afterwards. The loop never runs out of
    fuel ([parse_attributes_on_heap_fuel]). *)
Definition decode_payload_on_heap (payload : list byte) (payload_size : nat)
    (key_buffer value_buffer : list byte) (a : allocator)
  : bool * otel_process_ctx_data_ptrs * allocator :=
  let '(array, a) := calloc_pointers resource_capacity a in
  let data_out := with_resources_ptr array empty_data_ptrs in
  if decide (array = NULL) then (false, data_out, a) else
  match parse_attributes_on_heap payload_size payload payload_size
          {| hd_ptr := 0;
             hd_key_buffer := key_buffer;
             hd_value_buffer := value_buffer;
             hd_out := {| out_data := data_out; out_index := 0; out_allocator := a |} |}
  with
  | HeapParsed s =>
      (all_required_set (out_data (hd_out s)), out_data (hd_out s),
       out_allocator (hd_out s))
  | HeapRejected o => (false, out_data o, out_allocator o)
  | HeapOutOfFuel => (false, data_out, a)
  end.

(** ** Reading the published context *)

(** What [otel_process_ctx_read] finds around it: the text of
    [/proc/self/maps] ([None] when it cannot be opened), the region, if
    any, that starts at a given address, and the outcomes of its
    allocations. *)
Record reader_env := {
  proc_self_maps : option (list byte);
  region_at : Z -> option nat;
  read_outcomes : list bool
}.

Definition read_failure (msg line : string) : otel_process_ctx_read_result :=
  {| read_success := false;
     read_error_message := Some (located msg line);
     data := empty_data_ptrs |}.

(** [otel_process_ctx_read]: the result and the heap afterwards. [None]
    when the call dereferences memory that is not there: an address from
    [/proc/self/maps] at which no region starts, a payload pointer that is
    not a live buffer of at least [payload_size] bytes. [strncmp] over the
    eight bytes of the signature field is 0 exactly when they are those of
    "OTEL_CTX", none of which is NUL. *)
Definition otel_process_ctx_read (env : reader_env) (w : process)
  : option (otel_process_ctx_read_result * list (option block)) :=
  let mapping := try_finding_mapping (proc_self_maps env) in
  if mapping =? 0 then Some (read_failure "No OTEL_CTX mapping found" "592", heap w)
  else
    match region_at env mapping ≫= (fun r => regions w !! r) with
    | Some (Some m) =>
        if negb (bool_decide (take 8 (otel_process_ctx_signature m) = OTEL_CTX_SIGNATURE))
           || negb (otel_process_ctx_version m =? 2) then
          Some (read_failure "Invalid OTEL_CTX signature or version" "596", heap w)
        else
          let a := {| blocks := heap w; outcomes := read_outcomes env |} in
          let '(key_buffer, a) := calloc_bytes (Z.to_nat (KEY_VALUE_LIMIT + 1)) a in
          let '(value_buffer, a) := calloc_bytes (Z.to_nat (KEY_VALUE_LIMIT + 1)) a in
          if bool_decide (key_buffer = NULL) || bool_decide (value_buffer = NULL) then
            let a := on_blocks (free value_buffer) (on_blocks (free key_buffer) a) in
            Some (read_failure "Failed to allocate decode buffers" "606", blocks a)
          else
            match heap_lookup (otel_process_payload m) (blocks a) with
            | Some (Bytes payload) =>
                let payload_size := Z.to_nat (otel_process_payload_size m) in
                if (length payload <? payload_size)%nat then None else
                let '(success, data, a) :=
                  decode_payload_on_heap payload payload_size
                    (replicate (Z.to_nat (KEY_VALUE_LIMIT + 1)) x00)
                    (replicate (Z.to_nat (KEY_VALUE_LIMIT + 1)) x00) a in
                let a := on_blocks (free value_buffer) (on_blocks (free key_buffer) a) in
                if negb success then
                  Some (read_failure "Failed to decode payload" "615",
                        otel_process_ctx_read_data_drop data (blocks a))
                else
                  Some ({| read_success := true;
                           read_error_message := None;
                           data := data |}, blocks a)
            | _ => None
            end
    | _ => None
    end.

(** ** The decoder on the heap, pair by pair *)

(** The second part of the body of the outer loop over the contents the
    two scratch buffers take from one KeyValue to the next. *)
Fixpoint store_all (buffers : list (list byte * list byte)) (o : heap_out) : stored :=
  match buffers with
  | [] => Stored o
  | (key_buffer, value_buffer) :: rest =>
      match store_keyvalue key_buffer value_buffer o with
      | Stored o => store_all rest o
      | Refused o => Refused o
      end
  end.

(** What the two scratch buffers hold once a record is read. *)
Definition record_buffers (r : kv_record) : list byte * list byte :=
  (default [] (last_key (rec_items r) None), default [] (last_value (rec_items r) None)).

Definition heap_parse_stored (r : heap_parse) : option stored :=
  match r with
  | HeapParsed s => Some (Stored (hd_out s))
  | HeapRejected o => Some (Refused o)
  | HeapOutOfFuel => None
  end.

(** What [decode_payload_on_heap] returns for a run that ended as [r]. *)
Definition decode_result (r : stored) : bool * otel_process_ctx_data_ptrs * allocator :=
  match r with
  | Stored o => (all_required_set (out_data o), out_data o, out_allocator o)
  | Refused o => (false, out_data o, out_allocator o)
  end.

(** The field a key names, generic in what a field holds. *)
Definition get_identity_field {Str Arr : Type} (key : list byte)
    (d : otel_process_ctx_data_of Str Arr) : option Str :=
  if decide (key = bytes_of "deployment.environment.name") then
    Some (deployment_environment_name d)
  else if decide (key = bytes_of "service.instance.id") then Some (service_instance_id d)
  else if decide (key = bytes_of "service.name") then Some (service_name d)
  else if decide (key = bytes_of "service.version") then Some (service_version d)
  else if decide (key = bytes_of "telemetry.sdk.language") then
    Some (telemetry_sdk_language d)
  else if decide (key = bytes_of "telemetry.sdk.version") then
    Some (telemetry_sdk_version d)
  else if decide (key = bytes_of "telemetry.sdk.name") then Some (telemetry_sdk_name d)
  else None.

(** The seven identity fields of an attribute object. *)
Definition identity_fields {Str Arr : Type} (d : otel_process_ctx_data_of Str Arr)
  : list Str :=
  [ deployment_environment_name d; service_instance_id d; service_name d;
    service_version d; telemetry_sdk_language d; telemetry_sdk_version d;
    telemetry_sdk_name d ].

(** ** What a read result holds *)

(** The pointer [p] is NULL for no string, or points at a live copy of the
    string. *)
Definition field_represents (h : list (option block)) (p : nat)
    (v : option (list byte)) : Prop :=
  match v with
  | None => p = NULL
  | Some s => heap_lookup p h = Some (Bytes s)
  end.

(** The attribute object [dp] of a read result holds [d]: each field points
    at a copy of the field of [d], and the resources array, read up to its
    first NULL cell, which it has, points at copies of the resources of
    [d]. *)
Definition represents (h : list (option block)) (dp : otel_process_ctx_data_ptrs)
    (d : otel_process_ctx_data) : Prop :=
  Forall2 (field_represents h) (identity_fields dp) (identity_fields d)
  /\ exists cells strings,
       heap_lookup (resources dp) h = Some (Pointers cells)
       /\ NULL ∈ cells
       /\ resources d = Some strings
       /\ Forall2 (fun p s => heap_lookup p h = Some (Bytes s)) (until_null cells) strings.

(** The state of the decoder on the heap, seen from outside: the heap [h0]
    it started from is intact below the blocks it allocated, the first of
    which is the resources array; the array holds the pointers stored so
    far, then NULL cells; every identity field is NULL or one of the blocks
    allocated; every live block allocated after the array is held by a
    field or by a cell; and fields and cells point at copies of what the
    attribute object [d] holds. *)
Definition decoder_heap (h0 : list (option block)) (o : heap_out)
    (d : otel_process_ctx_data) : Prop :=
  let h := blocks (out_allocator o) in
  let array := S (length h0) in
  (forall p, (p <= length h0)%nat -> heap_lookup p h = heap_lookup p h0)
  /\ resources (out_data o) = array
  /\ Forall (fun p => p = NULL \/ (array < p)%nat) (identity_fields (out_data o))
  /\ Forall2 (field_represents h) (identity_fields (out_data o)) (identity_fields d)
  /\ exists ptrs strings,
       heap_lookup array h
       = Some (Pointers (ptrs ++ replicate (resource_capacity - out_index o) NULL))
       /\ length ptrs = out_index o
       /\ (out_index o < resource_capacity)%nat
       /\ Forall (fun p => (array < p)%nat) ptrs
       /\ (forall p, (array < p)%nat -> is_Some (heap_lookup p h) ->
                     p ∈ identity_fields (out_data o) \/ p ∈ ptrs)
       /\ resources d = Some strings
       /\ Forall2 (fun p s => heap_lookup p h = Some (Bytes s)) ptrs strings.

(** The heap_out a run of the second part ended with. *)
Definition stored_out (r : stored) : heap_out :=
  match r with
  | Stored o => o
  | Refused o => o
  end.

(** The identity keys among [keys] have their field still NULL, and none
    occurs twice. *)
Definition fields_pending (keys : list (list byte)) (dp : otel_process_ctx_data_ptrs)
  : Prop :=
  NoDup (filter (fun k => is_identity_key k = true) keys)
  /\ forall k, k ∈ keys -> is_identity_key k = true ->
               get_identity_field k dp = Some NULL.

(** The C strings in a pair of scratch buffers. *)
Definition buffer_strings (kv : list byte * list byte) : list byte * list byte :=
  (cstr kv.1, cstr kv.2).

(** ** The reader and the publisher in one process *)

(** [/proc/self/maps] leads the reader to the mapping of the publisher: it
    names an address, and the region the publisher mapped starts there. *)
Definition finds_published_mapping (env : reader_env) (w : process) : Prop :=
  try_finding_mapping (proc_self_maps env) <> 0
  /\ exists r, region_at env (try_finding_mapping (proc_self_maps env)) = Some r
               /\ mapping (published_state w) = MapAt r.

(** What [otel_process_ctx_read] hands out for the published attribute
    object [d]: its seven fields, and its resources as an array, empty when
    [d] has none. *)
Definition as_read (d : otel_process_ctx_data) : otel_process_ctx_data :=
  data_with_resources (Some (resource_entries d)) d.

(** The heap after [otel_process_ctx_read] returned [res] and
    [otel_process_ctx_read_drop] was called on it. *)
Definition after_read_drop (res : otel_process_ctx_read_result)
    (h : list (option block)) : list (option block) :=
  (otel_process_ctx_read_drop (Some res) h).2.

(** The reader of [published_sample]: its mapping shows in [sample_maps],
    and the allocations succeed or fail as [outs] says. *)
Definition sample_reader_env (outs : list bool) : reader_env :=
  {| proc_self_maps := Some sample_maps;
     region_at := fun a => if a =? 0x7f12a000 then Some 0%nat else None;
     read_outcomes := outs |}.

(** ** Facts about characters *)

Lemma byte_to_Z_range (b : byte) : 0 <= byte_to_Z b < 256.
Proof.
  unfold byte_to_Z. pose proof (Byte.to_N_bounded b). lia.
Qed.

Lemma byte_to_Z_to_char (z : Z) : byte_to_Z (to_char z) = z mod 256.
Proof.
  unfold byte_to_Z, to_char.
  assert (Hr : 0 <= z mod 256 < 256) by (apply Z.mod_pos_bound; lia).
  destruct (Byte.of_N (Z.to_N (z mod 256))) as [b|] eqn:E.
  - apply Byte.to_of_N in E. simpl. rewrite E. lia.
  - apply Byte.of_N_None_iff in E. lia.
Qed.

Lemma to_char_byte_to_Z (b : byte) : to_char (byte_to_Z b) = b.
Proof.
  unfold to_char. pose proof (byte_to_Z_range b) as Hr.
  rewrite Z.mod_small by lia. unfold byte_to_Z.
  rewrite N2Z.id, Byte.of_to_N. reflexivity.
Qed.

Lemma cstr_no_nul (s : list byte) : x00 ∉ s -> cstr s = s.
Proof.
  induction s as [|c s IH]; intros Hn; [reflexivity|].
  simpl. destruct (decide (c = x00)) as [->|_].
  - exfalso. apply Hn. left.
  - f_equal. apply IH. intros Hin. apply Hn. right. exact Hin.
Qed.

Lemma put_length (bs : list byte) (st : wstate) :
  (ptr st + length bs <= length (buf st))%nat ->
  length (buf (put bs st)) = length (buf st).
Proof.
  intros H. simpl. rewrite !length_app, length_take, length_drop. lia.
Qed.

Lemma put_put (b1 b2 : list byte) (st : wstate) :
  (ptr st + length (b1 ++ b2) <= length (buf st))%nat ->
  put b2 (put b1 st) = put (b1 ++ b2) st.
Proof.
  intros H. rewrite length_app in H.
  unfold put; simpl. f_equal; [|rewrite length_app; lia].
  rewrite (app_assoc (take _ _) b1).
  rewrite take_app_length'
    by (rewrite length_app, length_take; lia).
  rewrite drop_app_ge by (rewrite length_app, length_take; lia).
  rewrite length_app, length_take, drop_drop, length_app.
  rewrite <- !app_assoc. do 4 f_equal. lia.
Qed.

Lemma emits_seq (w1 w2 : wstate -> wstate) (b1 b2 : list byte) :
  emits w1 b1 -> emits w2 b2 -> emits (fun st => w2 (w1 st)) (b1 ++ b2).
Proof.
  intros H1 H2 st Hst. pose proof Hst as Hst'. rewrite length_app in Hst'.
  rewrite H1 by lia.
  rewrite H2 by (rewrite put_length by lia; simpl; lia).
  apply put_put. exact Hst.
Qed.

Lemma emits_write_char (c : byte) : emits (write_char c) [c].
Proof.
  intros st Hst. simpl in Hst. unfold write_char, put. simpl. f_equal; [|lia].
  rewrite insert_take_drop by lia. do 3 f_equal. lia.
Qed.

Lemma emits_nil : emits (fun st => st) [].
Proof.
  intros [b p] _. unfold put. simpl. rewrite Nat.add_0_r, take_drop. reflexivity.
Qed.

Lemma emits_write_bytes (str : list byte) : emits (write_bytes str) str.
Proof.
  induction str as [|c str IH].
  - apply emits_nil.
  - change (c :: str) with ([c] ++ str).
    apply (emits_seq (write_char c) (write_bytes str)); [apply emits_write_char|exact IH].
Qed.

Lemma emits_write_protobuf_varint (value : Z) :
  emits (write_protobuf_varint value) (varint_bytes value).
Proof.
  unfold write_protobuf_varint, varint_bytes.
  destruct (protobuf_varint_size (uint16 value) =? 1).
  - apply emits_write_char.
  - apply (emits_seq (write_char _) (write_char _) [_] [_]); apply emits_write_char.
Qed.

Lemma emits_write_protobuf_tag (f : Z) : emits (write_protobuf_tag f) [tag_byte f].
Proof. apply emits_write_char. Qed.

Lemma emits_write_protobuf_string (str : list byte) :
  emits (write_protobuf_string str) (string_bytes str).
Proof.
  apply (emits_seq (write_protobuf_varint _) (write_bytes str)).
  - apply emits_write_protobuf_varint.
  - apply emits_write_bytes.
Qed.

Lemma emits_write_attribute (key value : list byte) :
  emits (write_attribute key value) (attribute_bytes key value).
Proof.
  exact
    (emits_seq _ _ _ _ (emits_write_protobuf_tag 1)
    (emits_seq _ _ _ _
       (emits_write_protobuf_varint (protobuf_otel_keyvalue_string_size key value))
    (emits_seq _ _ _ _ (emits_write_protobuf_tag 1)
    (emits_seq _ _ _ _ (emits_write_protobuf_string key)
    (emits_seq _ _ _ _ (emits_write_protobuf_tag 2)
    (emits_seq _ _ _ _ (emits_write_protobuf_varint (protobuf_string_size value))
    (emits_seq _ _ _ _ (emits_write_protobuf_tag 1)
       (emits_write_protobuf_string value)))))))).
Qed.

(** Induction over a list two cells at a time, the way the loops of the
    codec walk a [pairs] array. *)
Lemma pairs_ind {A : Type} (P : list A -> Prop) :
  P [] ->
  (forall k, P [k]) ->
  (forall k v rest, P rest -> P (k :: v :: rest)) ->
  forall l, P l.
Proof.
  intros Hnil Hone Hstep l.
  induction l as [l IH] using (induction_ltof1 _ (@length _)).
  destruct l as [|k [|v rest]]; [exact Hnil|apply Hone|].
  apply Hstep, IH. unfold ltof. cbn [length]. lia.
Qed.

Lemma emits_write_attributes (entries : list (list byte)) :
  emits (write_attributes entries) (attributes_bytes entries).
Proof.
  induction entries as [|key|key value rest IH] using pairs_ind;
    try apply emits_nil.
  change (emits (fun st => write_attributes rest (write_attribute key value st))
            (attribute_bytes key value ++ attributes_bytes rest)).
  apply (emits_seq (write_attribute key value) (write_attributes rest));
    [apply emits_write_attribute|exact IH].
Qed.

(** ** The size pre-pass and the emit pass agree *)

Lemma varint_bytes_length (v : Z) :
  Z.of_nat (length (varint_bytes v)) = protobuf_varint_size (uint16 v).
Proof.
  unfold varint_bytes, protobuf_varint_size.
  destruct (128 <=? uint16 v); reflexivity.
Qed.

Lemma string_bytes_length (s : list byte) :
  Z.of_nat (length (string_bytes s)) = protobuf_string_size s - 1.
Proof.
  unfold string_bytes, protobuf_string_size, protobuf_record_size.
  rewrite length_app, Nat2Z.inj_add, varint_bytes_length. unfold strlen. lia.
Qed.

Lemma attribute_bytes_length (key value : list byte) :
  Z.of_nat (length (attribute_bytes key value))
  = protobuf_record_size (protobuf_otel_keyvalue_string_size key value).
Proof.
  unfold attribute_bytes.
  repeat (rewrite length_app, Nat2Z.inj_add).
  rewrite !string_bytes_length, !varint_bytes_length.
  unfold protobuf_otel_keyvalue_string_size.
  set (ks := protobuf_string_size key). set (vs := protobuf_string_size value).
  unfold protobuf_record_size. simpl length. lia.
Qed.

Lemma validate_pairs_size (entries : list (list byte)) (acc : Z) :
  success (validate_pairs entries acc).1 = true ->
  (validate_pairs entries acc).2 = acc + Z.of_nat (length (attributes_bytes entries)).
Proof.
  revert acc.
  induction entries as [|key|key value rest IH] using pairs_ind; intros acc;
    cbn [validate_pairs attributes_bytes fst snd length]; try lia.
  destruct (KEY_VALUE_LIMIT <? strlen key); [discriminate|].
  destruct (KEY_VALUE_LIMIT <? strlen value); [discriminate|].
  intros Hok. rewrite IH by exact Hok.
  rewrite length_app, Nat2Z.inj_add, attribute_bytes_length. lia.
Qed.

Lemma validate_size (entries : list (list byte)) :
  success (validate_and_calculate_protobuf_payload_size entries).1 = true ->
  (validate_and_calculate_protobuf_payload_size entries).2
  = Z.of_nat (length (attributes_bytes entries)).
Proof.
  unfold validate_and_calculate_protobuf_payload_size.
  destruct (Nat.odd (length entries)); [discriminate|].
  intros H. rewrite validate_pairs_size by exact H. lia.
Qed.

Lemma prepass_total_size_bytes (data : otel_process_ctx_data) :
  passes_validation data = true ->
  prepass_total_size data
  = Z.of_nat (length (attributes_bytes (identity_entries data)
                      ++ attributes_bytes (resource_entries data))).
Proof.
  unfold passes_validation, prepass_total_size, resource_entries.
  intros [H1 H2]%andb_true_iff.
  rewrite length_app, Nat2Z.inj_add, validate_size by exact H1.
  destruct (resources data) as [res|]; simpl.
  - rewrite validate_size by exact H2. reflexivity.
  - reflexivity.
Qed.

Lemma put_all (bs : list byte) :
  put bs {| buf := replicate (length bs) x00; ptr := 0 |}
  = {| buf := bs; ptr := length bs |}.
Proof.
  unfold put. simpl. rewrite drop_ge by (rewrite length_replicate; lia).
  rewrite app_nil_r. reflexivity.
Qed.

(** The encoder unfolded on an attribute object that passes validation. *)
Lemma encode_success (data : otel_process_ctx_data) :
  passes_validation data = true ->
  otel_process_ctx_encode_protobuf_payload true data
  = (succeeded,
     Some {| enc_bytes := attributes_bytes (identity_entries data)
                          ++ attributes_bytes (resource_entries data);
             enc_size := uint32 (prepass_total_size data);
             enc_ptr := Z.to_nat (prepass_total_size data) |}).
Proof.
  intros Hv. pose proof (prepass_total_size_bytes data Hv) as Hsz.
  rewrite Hsz at 2. rewrite Nat2Z.id. clear Hsz. revert Hv.
  unfold passes_validation, prepass_total_size, resource_entries,
    otel_process_ctx_encode_protobuf_payload.
  fold (identity_entries data).
  generalize (identity_entries data) as ids. intros ids.
  destruct (validate_and_calculate_protobuf_payload_size ids) as [r1 n1] eqn:E1.
  cbn [fst snd]. intros [H1 H2]%andb_true_iff. rewrite H1. cbn [negb].
  assert (Hn1 : n1 = Z.of_nat (length (attributes_bytes ids))).
  { pose proof (validate_size ids) as Hs. rewrite E1 in Hs. apply Hs, H1. }
  destruct (resources data) as [res|]; cbn [default].
  - destruct (validate_and_calculate_protobuf_payload_size res) as [r2 n2] eqn:E2.
    cbn [fst snd] in *. rewrite H2. cbn [negb].
    assert (Hn2 : n2 = Z.of_nat (length (attributes_bytes res))).
    { pose proof (validate_size res) as Hs. rewrite E2 in Hs. apply Hs, H2. }
    subst n1 n2. rewrite <- Nat2Z.inj_add, Nat2Z.id, <- length_app.
    assert (Hw : write_attributes res
                   (write_attributes ids
                      {| buf := replicate (length (attributes_bytes ids
                                                   ++ attributes_bytes res)) x00;
                         ptr := 0 |})
                 = {| buf := attributes_bytes ids ++ attributes_bytes res;
                      ptr := length (attributes_bytes ids ++ attributes_bytes res) |}).
    { rewrite <- put_all.
      apply (emits_seq (write_attributes ids) (write_attributes res));
        [apply emits_write_attributes..|].
      cbn [buf ptr]. rewrite length_replicate. lia. }
    rewrite Hw. reflexivity.
  - rewrite H1. cbn [negb]. subst n1.
    rewrite Z.add_0_r, Nat2Z.id, app_nil_r.
    rewrite (emits_write_attributes ids _)
      by (cbn [buf ptr]; rewrite length_replicate; lia).
    rewrite put_all. reflexivity.
Qed.

(** ** Varints: bit operations as arithmetic *)

Lemma land_7F (z : Z) : Z.land z 0x7F = z mod 128.
Proof. change 0x7F with (Z.ones 7). rewrite Z.land_ones by lia. reflexivity. Qed.

Lemma shiftr_7 (z : Z) : Z.shiftr z 7 = z / 128.
Proof. rewrite Z.shiftr_div_pow2 by lia. reflexivity. Qed.

Lemma lor_shiftl_disjoint (a b k : Z) :
  0 <= k -> 0 <= a < 2 ^ k -> Z.lor a (Z.shiftl b k) = a + b * 2 ^ k.
Proof.
  intros Hk Ha.
  assert (Hland : Z.land a (Z.shiftl b k) = 0).
  { apply Z.bits_inj'. intros i Hi.
    rewrite Z.land_spec, Z.bits_0.
    destruct (Z.lt_ge_cases i k) as [Hlt|Hge].
    - rewrite Z.shiftl_spec_low by lia. apply andb_false_r.
    - destruct (Z.eq_dec a 0) as [->|Hne]; [rewrite Z.bits_0; reflexivity|].
      rewrite (Z.bits_above_log2 a i); [reflexivity|lia|].
      apply Z.lt_le_trans with k; [|lia].
      apply Z.log2_lt_pow2; lia. }
  rewrite <- Z.lxor_lor by exact Hland.
  rewrite <- Z.add_nocarry_lxor by exact Hland.
  rewrite Z.shiftl_mul_pow2 by lia. reflexivity.
Qed.

Lemma lor_0x80 (a : Z) : 0 <= a < 128 -> Z.lor a 0x80 = a + 128.
Proof.
  intros Ha. change (Z.lor a 0x80) with (Z.lor a (Z.shiftl 1 7)).
  rewrite lor_shiftl_disjoint by (change (2 ^ 7) with 128; lia).
  change (2 ^ 7) with 128. lia.
Qed.

(** The value the decoder computes from a two-byte varint. *)
Lemma varint_value_2 (b1 b2 : Z) :
  0 <= b1 < 256 -> 0 <= b2 < 256 ->
  uint16 (Z.lor (Z.land b1 0x7F) (Z.shiftl b2 7)) = b1 mod 128 + b2 * 128.
Proof.
  intros H1 H2. rewrite land_7F.
  rewrite lor_shiftl_disjoint
    by (change (2 ^ 7) with 128; try apply Z.mod_pos_bound; lia).
  unfold uint16. change (2 ^ 7) with 128.
  apply Z.mod_small. pose proof (Z.mod_pos_bound b1 128). lia.
Qed.

Lemma uint16_small (z : Z) : 0 <= z < 65536 -> uint16 z = z.
Proof. intros H. apply Z.mod_small. exact H. Qed.

(** ** Readers on a buffer whose content at the cursor is known *)

Lemma peek_drop (mem : list byte) (p : nat) (b : byte) (rest : list byte) :
  drop p mem = b :: rest -> peek mem p = byte_to_Z b /\ drop (S p) mem = rest.
Proof.
  intros H. unfold peek. split.
  - f_equal. rewrite nth_lookup, <- (Nat.add_0_r p), <- lookup_drop, H. reflexivity.
  - replace (S p) with (p + 1)%nat by lia.
    rewrite <- drop_drop, H. reflexivity.
Qed.

Lemma read_protobuf_varint_bytes (mem : list byte) (p e : nat) (v : Z) (rest : list byte) :
  drop p mem = varint_bytes v ++ rest ->
  0 <= v <= UINT14_MAX ->
  (p + length (varint_bytes v) <= e)%nat ->
  read_protobuf_varint mem p e = Some ((p + length (varint_bytes v))%nat, v).
Proof.
  unfold UINT14_MAX. intros Hd Hv He.
  pose proof (varint_bytes_length v) as Hlen.
  rewrite uint16_small in Hlen by lia.
  revert Hd He Hlen. unfold varint_bytes, protobuf_varint_size, read_protobuf_varint.
  rewrite (uint16_small v) by lia.
  destruct (Z.leb_spec 128 v) as [Hbig|Hsmall]; cbn [Z.eqb Pos.eqb app length].
  - intros Hd He _.
    destruct (peek_drop _ _ _ _ Hd) as [Hp1 Hd1].
    destruct (peek_drop _ _ _ _ Hd1) as [Hp2 _].
    rewrite Hp1, Hp2, !byte_to_Z_to_char.
    rewrite land_7F, shiftr_7, lor_0x80 by (apply Z.mod_pos_bound; lia).
    destruct (Nat.leb_spec e p); [lia|].
    destruct (Z.ltb_spec ((v mod 128 + 128) mod 256) 128) as [Hlt|_].
    { pose proof (Z.mod_pos_bound v 128). rewrite Z.mod_small in Hlt; lia. }
    destruct (Nat.leb_spec e (S p)); [lia|].
    rewrite varint_value_2 by (apply Z.mod_pos_bound; lia).
    replace ((v mod 128 + 128) mod 256 mod 128 + v / 128 mod 256 * 128) with v
      by (Z.to_euclidean_division_equations; lia).
    destruct (Z.leb_spec v UINT14_MAX) as [_|Hgt]; [|unfold UINT14_MAX in Hgt; lia].
    do 2 f_equal. lia.
  - intros Hd He _.
    destruct (peek_drop _ _ _ _ Hd) as [Hp1 _].
    rewrite Hp1, byte_to_Z_to_char, Z.mod_small by lia.
    destruct (Nat.leb_spec e p); [lia|].
    destruct (Z.ltb_spec v 128); [|lia].
    do 2 f_equal. lia.
Qed.

Lemma varint_write_read (n : Z) :
  0 <= n <= UINT14_MAX ->
  let st := write_protobuf_varint n scratch in
  read_protobuf_varint (buf st) 0 (ptr st) = Some (ptr st, n).
Proof.
  intros Hn.
  assert (Hlen : (length (varint_bytes n) <= 2)%nat).
  { unfold varint_bytes. destruct (_ =? 1); simpl; lia. }
  rewrite (emits_write_protobuf_varint n scratch) by (simpl; lia).
  unfold put, scratch. cbn [buf ptr take drop app Nat.add].
  apply (read_protobuf_varint_bytes _ 0 _ n (drop (length (varint_bytes n)) [x00; x00]));
    [reflexivity|exact Hn|simpl; lia].
Qed.

(** ** Encoder: the length limits *)

Lemma size_bounds (key value : list byte) :
  strlen key <= KEY_VALUE_LIMIT -> strlen value <= KEY_VALUE_LIMIT ->
  0 <= strlen key <= 4096 /\ 0 <= strlen value <= 4096 /\
  2 <= protobuf_string_size value <= 4099 /\
  6 <= protobuf_otel_keyvalue_string_size key value <= 8201.
Proof.
  unfold KEY_VALUE_LIMIT, protobuf_otel_keyvalue_string_size, protobuf_string_size,
    protobuf_record_size, protobuf_varint_size, uint16, strlen.
  intros Hk Hv.
  repeat match goal with |- context [128 <=? ?x] => destruct (128 <=? x) end; lia.
Qed.

(** C7: under the 4096-byte caps, each of the four lengths the encoder
    emits as a varint (key length, value length, AnyValue record size,
    KeyValue record size) is at most 16383, and the one or two bytes written
    for it read back as the same number; the KeyValue record size is at most
    8201. *)
Theorem emitted_lengths_fit_14_bits (key value : list byte) :
  strlen key <= KEY_VALUE_LIMIT ->
  strlen value <= KEY_VALUE_LIMIT ->
  Forall (fun n =>
            0 <= n <= UINT14_MAX /\
            let st := write_protobuf_varint n scratch in
            read_protobuf_varint (buf st) 0 (ptr st) = Some (ptr st, n))
         [strlen key; strlen value; protobuf_string_size value;
          protobuf_otel_keyvalue_string_size key value]
  /\ protobuf_otel_keyvalue_string_size key value <= 8201 <= UINT14_MAX.
Proof.
  intros Hk Hv.
  destruct (size_bounds key value Hk Hv) as (B1 & B2 & B3 & B4).
  split; [|unfold UINT14_MAX; lia].
  repeat constructor; try (unfold UINT14_MAX; lia);
    apply varint_write_read; unfold UINT14_MAX; lia.
Qed.

Lemma emitted_lengths_fit_14_bits_witness :
  strlen (bytes_of "service.name") <= KEY_VALUE_LIMIT /\
  strlen (bytes_of "my-service") <= KEY_VALUE_LIMIT /\
  protobuf_otel_keyvalue_string_size (bytes_of "service.name") (bytes_of "my-service")
  <= 8201 <= UINT14_MAX.
Proof.
  assert (H1 : strlen (bytes_of "service.name") <= KEY_VALUE_LIMIT)
    by (vm_compute; discriminate).
  assert (H2 : strlen (bytes_of "my-service") <= KEY_VALUE_LIMIT)
    by (vm_compute; discriminate).
  split; [exact H1|]. split; [exact H2|].
  exact (proj2 (emitted_lengths_fit_14_bits _ _ H1 H2)).
Defined.

(** The bound of 8201 is reached by a key and a value of 4096 bytes each. *)
Example keyvalue_size_at_the_caps :
  protobuf_otel_keyvalue_string_size (replicate 4096 "k"%byte) (replicate 4096 "v"%byte)
  = 8201.
Proof. vm_compute. reflexivity. Qed.

(** C9: on every attribute object that passes validation the encoder
    succeeds, its write cursor stops exactly at the size computed by the
    pre-pass, which is the length of the buffer, and the buffer holds the
    emitted attributes and nothing else. The cursor moves by one at every
    store, so stopping at the end of the buffer means every store was made
    inside it. *)
Theorem encode_writes_exactly_prepass_size (data : otel_process_ctx_data) :
  passes_validation data = true ->
  exists e,
    otel_process_ctx_encode_protobuf_payload true data = (succeeded, Some e)
    /\ 0 <= prepass_total_size data
    /\ enc_ptr e = Z.to_nat (prepass_total_size data)
    /\ length (enc_bytes e) = enc_ptr e
    /\ enc_bytes e = attributes_bytes (identity_entries data)
                     ++ attributes_bytes (resource_entries data).
Proof.
  intros Hv. eexists. split; [apply encode_success, Hv|].
  pose proof (prepass_total_size_bytes data Hv) as Hsz. cbn [enc_ptr enc_bytes].
  rewrite Hsz, Nat2Z.id. repeat split; lia.
Qed.

Lemma encode_writes_exactly_prepass_size_witness :
  passes_validation sample_data = true /\
  exists e,
    otel_process_ctx_encode_protobuf_payload true sample_data = (succeeded, Some e)
    /\ 0 <= prepass_total_size sample_data
    /\ enc_ptr e = Z.to_nat (prepass_total_size sample_data)
    /\ length (enc_bytes e) = enc_ptr e
    /\ enc_bytes e = attributes_bytes (identity_entries sample_data)
                     ++ attributes_bytes (resource_entries sample_data).
Proof.
  split; [reflexivity|].
  apply (encode_writes_exactly_prepass_size sample_data). reflexivity.
Defined.

Lemma validate_pairs_within_limit (entries : list (list byte)) (acc : Z) :
  Forall (fun s => strlen s <= KEY_VALUE_LIMIT) entries ->
  (validate_pairs entries acc).1 = succeeded.
Proof.
  revert acc.
  induction entries as [|key|key value rest IH] using pairs_ind; intros acc Hall;
    try reflexivity.
  apply Forall_cons in Hall as [Hk Hall]. apply Forall_cons in Hall as [Hv Hall].
  cbn [validate_pairs].
  destruct (Z.ltb_spec KEY_VALUE_LIMIT (strlen key)); [lia|].
  destruct (Z.ltb_spec KEY_VALUE_LIMIT (strlen value)); [lia|].
  apply IH, Hall.
Qed.

Lemma validate_pairs_over_limit (entries : list (list byte)) (acc : Z) :
  Nat.even (length entries) = true ->
  Exists (fun s => KEY_VALUE_LIMIT < strlen s) entries ->
  success (validate_pairs entries acc).1 = false
  /\ message_contains "exceeds 4096 limit" (validate_pairs entries acc).1 = true.
Proof.
  revert acc.
  induction entries as [|key|key value rest IH] using pairs_ind;
    intros acc Heven Hex.
  - inversion Hex.
  - discriminate Heven.
  - cbn [validate_pairs].
    destruct (Z.ltb_spec KEY_VALUE_LIMIT (strlen key)) as [|Hk]; [split; reflexivity|].
    destruct (Z.ltb_spec KEY_VALUE_LIMIT (strlen value)) as [|Hv]; [split; reflexivity|].
    apply IH; [exact Heven|].
    apply Exists_cons in Hex as [Hex|Hex]; [lia|].
    apply Exists_cons in Hex as [Hex|Hex]; [lia|exact Hex].
Qed.

Lemma well_formed_identity_entries (data : otel_process_ctx_data) :
  all_required_found data = true ->
  exists v1 v2 v3 v4 v5 v6 v7,
    identity_entries data =
    [ bytes_of "deployment.environment.name"; v1;
      bytes_of "service.instance.id"; v2;
      bytes_of "service.name"; v3;
      bytes_of "service.version"; v4;
      bytes_of "telemetry.sdk.language"; v5;
      bytes_of "telemetry.sdk.version"; v6;
      bytes_of "telemetry.sdk.name"; v7 ]
    /\ data = {| deployment_environment_name := Some v1;
                 service_instance_id := Some v2;
                 service_name := Some v3;
                 service_version := Some v4;
                 telemetry_sdk_language := Some v5;
                 telemetry_sdk_version := Some v6;
                 telemetry_sdk_name := Some v7;
                 resources := resources data |}.
Proof.
  destruct data as [[v1|] [v2|] [v3|] [v4|] [v5|] [v6|] [v7|] res];
    try discriminate.
  intros _. exists v1, v2, v3, v4, v5, v6, v7. split; reflexivity.
Qed.

Lemma well_formed_identity_even (data : otel_process_ctx_data) :
  all_required_found data = true ->
  Nat.odd (length (identity_entries data)) = false.
Proof.
  intros H. destruct (well_formed_identity_entries data H)
    as (v1 & v2 & v3 & v4 & v5 & v6 & v7 & -> & _).
  reflexivity.
Qed.

Lemma encode_fails_identity (calloc_ok : bool) (data : otel_process_ctx_data) :
  success (validate_and_calculate_protobuf_payload_size (identity_entries data)).1 = false ->
  otel_process_ctx_encode_protobuf_payload calloc_ok data
  = ((validate_and_calculate_protobuf_payload_size (identity_entries data)).1, None).
Proof.
  unfold otel_process_ctx_encode_protobuf_payload. fold (identity_entries data).
  destruct (validate_and_calculate_protobuf_payload_size (identity_entries data))
    as [r1 n1].
  cbn [fst]. intros ->. reflexivity.
Qed.


Lemma encode_fails_calloc (data : otel_process_ctx_data) :
  passes_validation data = true ->
  otel_process_ctx_encode_protobuf_payload false data
  = (failure "Failed to allocate memory for payload" "394", None).
Proof.
  unfold passes_validation, otel_process_ctx_encode_protobuf_payload.
  fold (identity_entries data).
  destruct (validate_and_calculate_protobuf_payload_size (identity_entries data))
    as [r1 n1].
  cbn [fst]. intros [H1 H2]%andb_true_iff. rewrite H1. cbn [negb].
  destruct (resources data) as [res|].
  - destruct (validate_and_calculate_protobuf_payload_size res) as [r2 n2].
    cbn [fst] in H2. rewrite H2. reflexivity.
  - rewrite H1. reflexivity.
Qed.

Lemma encode_Some (calloc_ok : bool) (data : otel_process_ctx_data)
    (r : otel_process_ctx_result) (e : encoded) :
  otel_process_ctx_encode_protobuf_payload calloc_ok data = (r, Some e) ->
  calloc_ok = true /\ passes_validation data = true.
Proof.
  unfold otel_process_ctx_encode_protobuf_payload, passes_validation.
  fold (identity_entries data).
  destruct (validate_and_calculate_protobuf_payload_size (identity_entries data))
    as [r1 n1].
  cbn [fst]. destruct (success r1) eqn:E1; [|discriminate]. cbn [negb].
  destruct (resources data) as [res|].
  - destruct (validate_and_calculate_protobuf_payload_size res) as [r2 n2].
    cbn [fst]. destruct (success r2); [|discriminate]. cbn [negb].
    destruct calloc_ok; [auto|discriminate].
  - rewrite E1. cbn [negb]. destruct calloc_ok; [auto|discriminate].
Qed.

Lemma encode_failure_no_buffer (calloc_ok : bool) (data : otel_process_ctx_data) :
  success (otel_process_ctx_encode_protobuf_payload calloc_ok data).1 = false ->
  (otel_process_ctx_encode_protobuf_payload calloc_ok data).2 = None.
Proof.
  destruct (otel_process_ctx_encode_protobuf_payload calloc_ok data) as [r [e|]] eqn:E;
    [|reflexivity].
  destruct (encode_Some _ _ _ _ E) as [-> Hv]. rewrite encode_success in E by exact Hv.
  injection E as <- _. discriminate.
Qed.

Lemma within_limit_passes_validation (data : otel_process_ctx_data) :
  well_formed data = true ->
  Forall (fun s => strlen s <= KEY_VALUE_LIMIT) (data_strings data) ->
  passes_validation data = true.
Proof.
  unfold well_formed, data_strings. intros [Hreq Heven]%andb_true_iff [Hid Hres]%Forall_app.
  pose proof (well_formed_identity_even data Hreq) as Hodd.
  assert (Hodd2 : Nat.odd (length (resource_entries data)) = false)
    by (rewrite <- Nat.negb_even, Heven; reflexivity).
  unfold passes_validation, validate_and_calculate_protobuf_payload_size.
  rewrite Hodd, validate_pairs_within_limit by exact Hid.
  unfold resource_entries in *. destruct (resources data) as [res|]; [|reflexivity].
  cbn [default from_option id] in *.
  rewrite Hodd2, validate_pairs_within_limit by exact Hres. reflexivity.
Qed.

Lemma encode_validation_failure (calloc_ok : bool) (data : otel_process_ctx_data) :
  passes_validation data = false ->
  success (otel_process_ctx_encode_protobuf_payload calloc_ok data).1 = false
  /\ (otel_process_ctx_encode_protobuf_payload calloc_ok data).2 = None.
Proof.
  intros Hv.
  destruct (success (otel_process_ctx_encode_protobuf_payload calloc_ok data).1) eqn:Es.
  - exfalso.
    destruct (otel_process_ctx_encode_protobuf_payload calloc_ok data) as [r [e|]] eqn:E.
    + destruct (encode_Some _ _ _ _ E) as [_ Hv']. congruence.
    + revert E Hv. unfold otel_process_ctx_encode_protobuf_payload, passes_validation.
      fold (identity_entries data).
      destruct (validate_and_calculate_protobuf_payload_size (identity_entries data))
        as [r1 n1].
      cbn [fst]. destruct (success r1) eqn:E1; cbn [negb andb].
      * destruct (resources data) as [res|].
        -- destruct (validate_and_calculate_protobuf_payload_size res) as [r2 n2].
           cbn [fst]. destruct (success r2) eqn:E2; cbn [negb]; [discriminate|].
           destruct calloc_ok; cbn [negb]; intros [= <-]; cbn [fst] in Es; congruence.
        -- discriminate.
      * intros [= <-]. cbn [fst] in Es. congruence.
  - split; [reflexivity|]. apply encode_failure_no_buffer, Es.
Qed.






(** The two sides of the limit on a concrete field: a service name of 4096
    bytes is encoded, one of 4097 bytes is refused. *)
Example encode_at_and_over_the_limit :
  success (otel_process_ctx_encode_protobuf_payload true
             {| deployment_environment_name := Some (bytes_of "prod");
                service_instance_id := Some (bytes_of "123");
                service_name := Some (replicate 4096 "a"%byte);
                service_version := Some (bytes_of "4.5.6");
                telemetry_sdk_language := Some (bytes_of "c");
                telemetry_sdk_version := Some (bytes_of "1.2.3");
                telemetry_sdk_name := Some (bytes_of "example_ctx.c");
                resources := None |}).1 = true
  /\ otel_process_ctx_encode_protobuf_payload true oversize_data
     = (failure "Length of value in otel_process_ctx_data exceeds 4096 limit" "315",
        None).
Proof. split; vm_compute; reflexivity. Qed.


(** ** Readers against the wire syntax *)

Lemma drop_nth (mem : list byte) (p : nat) :
  (p < length mem)%nat -> drop p mem = nth p mem x00 :: drop (S p) mem.
Proof.
  intros Hp. destruct (lookup_lt_is_Some_2 mem p Hp) as [b Hb].
  rewrite nth_lookup, Hb. apply drop_S, Hb.
Qed.

Lemma read_protobuf_tag_at (mem : list byte) (p e : nat) (tag : byte) (rest : list byte) :
  drop p mem = tag :: rest -> (p < e)%nat ->
  read_protobuf_tag mem p e
  = if wire_type tag =? LEN then Some (S p, field_number tag) else None.
Proof.
  intros Hd He. unfold read_protobuf_tag.
  destruct (Nat.leb_spec e p); [lia|].
  destruct (peek_drop _ _ _ _ Hd) as [-> _]. reflexivity.
Qed.

Lemma read_protobuf_tag_len (mem : list byte) (p e : nat) (tag : byte) (rest : list byte) :
  drop p mem = tag :: rest -> (p < e)%nat -> wire_type tag = LEN ->
  read_protobuf_tag mem p e = Some (S p, field_number tag).
Proof.
  intros Hd He Hw. rewrite (read_protobuf_tag_at _ _ _ _ _ Hd He), Hw. reflexivity.
Qed.

Lemma read_protobuf_tag_inv (mem : list byte) (p e p' : nat) (f : Z) :
  read_protobuf_tag mem p e = Some (p', f) -> (e <= length mem)%nat ->
  exists tag, drop p mem = tag :: drop p' mem /\ p' = S p /\ (p' <= e)%nat
              /\ wire_type tag = LEN /\ f = field_number tag.
Proof.
  unfold read_protobuf_tag. destruct (Nat.leb_spec e p); [discriminate|].
  intros Hr He. exists (nth p mem x00).
  unfold peek in Hr. fold (wire_type (nth p mem x00)) in Hr.
  fold (field_number (nth p mem x00)) in Hr.
  destruct (Z.eqb_spec (wire_type (nth p mem x00)) 2) as [Hw|]; [|discriminate].
  injection Hr as <- <-. repeat split; try lia; try assumption.
  apply drop_nth. lia.
Qed.

Lemma read_protobuf_varint_at (mem : list byte) (p e : nat) (t : varint_tok)
    (rest : list byte) :
  drop p mem = varint_tok_bytes t ++ rest ->
  varint_tok_ok t = true ->
  (p + length (varint_tok_bytes t) <= e)%nat ->
  read_protobuf_varint mem p e
  = Some ((p + length (varint_tok_bytes t))%nat, varint_tok_value t).
Proof.
  intros Hd Hok He. unfold read_protobuf_varint.
  destruct t as [b|b1 b2]; cbn [varint_tok_bytes length app] in *.
  - destruct (Nat.leb_spec e p); [lia|].
    destruct (peek_drop _ _ _ _ Hd) as [-> _].
    cbn [varint_tok_ok] in Hok. rewrite Hok. do 2 f_equal. lia.
  - destruct (Nat.leb_spec e p); [lia|].
    destruct (peek_drop _ _ _ _ Hd) as [-> Hd1].
    destruct (peek_drop _ _ _ _ Hd1) as [-> _].
    cbn [varint_tok_ok varint_tok_value] in *.
    apply andb_true_iff in Hok as [H1 H2].
    destruct (Z.ltb_spec (byte_to_Z b1) 128); [lia|].
    destruct (Nat.leb_spec e (S p)); [lia|].
    rewrite H2. do 2 f_equal. lia.
Qed.

Lemma read_protobuf_varint_inv (mem : list byte) (p e p' : nat) (v : Z) :
  read_protobuf_varint mem p e = Some (p', v) -> (e <= length mem)%nat ->
  exists t, drop p mem = varint_tok_bytes t ++ drop p' mem
            /\ p' = (p + length (varint_tok_bytes t))%nat /\ (p' <= e)%nat
            /\ varint_tok_ok t = true /\ v = varint_tok_value t.
Proof.
  unfold read_protobuf_varint. destruct (Nat.leb_spec e p); [discriminate|].
  intros Hr He. unfold peek in Hr.
  destruct (Z.ltb_spec (byte_to_Z (nth p mem x00)) 128) as [Hlt|Hge].
  - injection Hr as <- <-. exists (Varint1 (nth p mem x00)).
    cbn [varint_tok_bytes varint_tok_ok varint_tok_value length app].
    split; [apply drop_nth; lia|]. split; [lia|]. split; [lia|].
    split; [apply Z.ltb_lt, Hlt|reflexivity].
  - destruct (Nat.leb_spec e (S p)); [discriminate|].
    destruct (Z.leb_spec
      (uint16 (Z.lor (Z.land (byte_to_Z (nth p mem x00)) 127)
                     (Z.shiftl (byte_to_Z (nth (S p) mem x00)) 7))) UINT14_MAX)
      as [Hle|]; [|discriminate].
    injection Hr as <- <-. exists (Varint2 (nth p mem x00) (nth (S p) mem x00)).
    cbn [varint_tok_bytes varint_tok_ok varint_tok_value length app].
    split.
    { rewrite (drop_nth mem p) by lia. rewrite (drop_nth mem (S p)) by lia. reflexivity. }
    split; [lia|]. split; [lia|]. split; [|reflexivity].
    apply andb_true_iff. split; [apply Z.leb_le; lia|apply Z.leb_le, Hle].
Qed.

Lemma read_protobuf_string_at (mem : list byte) (p e : nat) (len : varint_tok)
    (raw rest : list byte) :
  drop p mem = varint_tok_bytes len ++ raw ++ rest ->
  string_ok len raw = true ->
  (p + length (varint_tok_bytes len) + length raw <= e)%nat ->
  read_protobuf_string mem p e
  = Some ((p + length (varint_tok_bytes len) + length raw)%nat, raw).
Proof.
  unfold string_ok, strlen, KEY_VALUE_LIMIT.
  intros Hd [[Hok Hv%Z.eqb_eq]%andb_true_iff Hl%Z.leb_le]%andb_true_iff He.
  unfold read_protobuf_string.
  rewrite (read_protobuf_varint_at mem p e len (raw ++ rest)) by (assumption || lia).
  rewrite Hv, Nat2Z.id.
  destruct (Z.leb_spec (KEY_VALUE_LIMIT + 1) (Z.of_nat (length raw)));
    [unfold KEY_VALUE_LIMIT in *; lia|].
  destruct (Nat.ltb_spec e (p + length (varint_tok_bytes len) + length raw)); [lia|].
  cbn [orb]. do 2 f_equal.
  assert (Hd' : drop (p + length (varint_tok_bytes len)) mem = raw ++ rest).
  { rewrite <- drop_drop, Hd, drop_app_length. reflexivity. }
  rewrite Hd', take_app_length. reflexivity.
Qed.

Lemma read_protobuf_string_inv (mem : list byte) (p e p' : nat) (raw : list byte) :
  read_protobuf_string mem p e = Some (p', raw) -> (e <= length mem)%nat ->
  exists len, drop p mem = varint_tok_bytes len ++ raw ++ drop p' mem
              /\ p' = (p + length (varint_tok_bytes len) + length raw)%nat
              /\ (p' <= e)%nat /\ string_ok len raw = true.
Proof.
  unfold read_protobuf_string.
  destruct (read_protobuf_varint mem p e) as [[q v]|] eqn:Ev; [|discriminate].
  intros Hr He.
  destruct (read_protobuf_varint_inv _ _ _ _ _ Ev He) as (t & Hd & Hq & Hqe & Hok & Hv).
  destruct (Z.leb_spec (KEY_VALUE_LIMIT + 1) v); [discriminate|].
  destruct (Nat.ltb_spec e (q + Z.to_nat v)); [discriminate|].
  cbn [orb] in Hr. injection Hr as <- <-. exists t.
  assert (Hv0 : 0 <= v).
  { subst v. destruct t; cbn [varint_tok_value]; unfold uint16;
      [apply byte_to_Z_range|apply Z.mod_pos_bound; lia]. }
  assert (Hlen : length (take (Z.to_nat v) (drop q mem)) = Z.to_nat v).
  { rewrite length_take, length_drop. lia. }
  repeat split.
  - rewrite Hd. f_equal. rewrite <- drop_drop, take_drop. reflexivity.
  - rewrite Hlen. lia.
  - lia.
  - unfold string_ok, strlen. rewrite Hok, Hlen, Z2Nat.id by lia. rewrite <- Hv.
    rewrite Z.eqb_refl. cbn [andb]. apply Z.leb_le. lia.
Qed.

(** ** The KeyValue loop against the wire syntax *)

Lemma apply_item_ptr (s : kv_state) (i : kv_item) :
  kv_ptr (apply_item s i) = (kv_ptr s + length (kv_item_bytes i))%nat.
Proof.
  destruct i; cbn [apply_item kv_ptr kv_item_bytes];
    rewrite ?length_app; cbn [length]; rewrite ?length_app; cbn [length]; lia.
Qed.

Lemma kv_item_bytes_nonempty (i : kv_item) : (1 <= length (kv_item_bytes i))%nat.
Proof. destruct i; cbn [kv_item_bytes app length]; lia. Qed.

Lemma parse_keyvalue_done (fuel : nat) (mem : list byte) (kv_end : nat) (s : kv_state) :
  (kv_end <= kv_ptr s)%nat -> parse_keyvalue fuel mem kv_end s = Parsed s.
Proof.
  intros H. destruct fuel; cbn [parse_keyvalue];
    destruct (Nat.leb_spec kv_end (kv_ptr s)); (reflexivity || lia).
Qed.

Lemma tag_ok_inv (tag : byte) (f : Z) :
  tag_ok tag f = true -> wire_type tag = LEN /\ field_number tag = f.
Proof.
  unfold tag_ok. intros [H1%Z.eqb_eq H2%Z.eqb_eq]%andb_true_iff. auto.
Qed.

Lemma parse_keyvalue_items (items : list kv_item) :
  forall (fuel : nat) (mem : list byte) (kv_end : nat) (s : kv_state) (rest : list byte),
  forallb kv_item_ok items = true ->
  drop (kv_ptr s) mem = kv_items_bytes items ++ rest ->
  kv_end = (kv_ptr s + length (kv_items_bytes items))%nat ->
  (length (kv_items_bytes items) <= fuel)%nat ->
  parse_keyvalue fuel mem kv_end s = Parsed (foldl apply_item s items).
Proof.
  induction items as [|i items IH]; intros fuel mem kv_end s rest Hok Hd He Hf.
  - cbn [foldl]. apply parse_keyvalue_done.
    change (kv_items_bytes []) with (@nil byte) in He. cbn [length] in He. lia.
  - cbn [forallb] in Hok. apply andb_true_iff in Hok as [Hi Hok].
    unfold kv_items_bytes in *. cbn [fmap list_fmap concat] in *.
    fold (kv_items_bytes items) in *.
    rewrite length_app in He, Hf. rewrite <- app_assoc in Hd.
    pose proof (kv_item_bytes_nonempty i) as Hne.
    pose proof (apply_item_ptr s i) as Hptr.
    destruct fuel as [|fuel]; [lia|].
    assert (Hnext : forall s', s' = apply_item s i ->
              parse_keyvalue fuel mem kv_end s' = Parsed (foldl apply_item s' items)).
    { intros s' ->. apply (IH fuel mem kv_end _ rest Hok); [|lia|lia].
      rewrite Hptr, <- drop_drop, Hd, drop_app_length. reflexivity. }
    cbn [parse_keyvalue foldl].
    destruct (Nat.leb_spec kv_end (kv_ptr s)); [lia|].
    destruct i as [tag len raw|tag any_len any_tag len raw|tag any_len any_tag|tag];
      cbn [kv_item_bytes kv_item_ok app length] in *;
      rewrite ?length_app in *; cbn [length] in *; rewrite ?length_app in *;
      rewrite <- ?app_assoc in Hd; cbn [app] in Hd; rewrite <- ?app_assoc in Hd.
    + apply andb_true_iff in Hi as [[Hw Hfn]%tag_ok_inv Hs].
      rewrite (read_protobuf_tag_len _ _ _ _ _ Hd) by (lia || assumption).
      rewrite Hfn. cbn [Z.eqb Pos.eqb].
      destruct (peek_drop _ _ _ _ Hd) as [_ Hd1].
      rewrite (read_protobuf_string_at _ _ _ _ _ _ Hd1 Hs) by lia.
      apply Hnext. reflexivity.
    + apply andb_true_iff in Hi as [[[[Hw Hfn]%tag_ok_inv Ha]%andb_true_iff
                                       [Hw2 Hfn2]%tag_ok_inv]%andb_true_iff Hs].
      rewrite (read_protobuf_tag_len _ _ _ _ _ Hd) by (lia || assumption).
      rewrite Hfn. cbn [Z.eqb Pos.eqb].
      destruct (peek_drop _ _ _ _ Hd) as [_ Hd1].
      rewrite (read_protobuf_varint_at _ _ _ _ _ Hd1 Ha) by lia.
      assert (Hd2 : drop (S (kv_ptr s) + length (varint_tok_bytes any_len)) mem
                    = any_tag :: varint_tok_bytes len ++ raw ++ kv_items_bytes items ++ rest).
      { rewrite <- drop_drop, Hd1, drop_app_length. reflexivity. }
      rewrite (read_protobuf_tag_len _ _ _ _ _ Hd2) by (lia || assumption).
      rewrite Hfn2.
      cbn [Z.eqb Pos.eqb].
      destruct (peek_drop _ _ _ _ Hd2) as [_ Hd3].
      rewrite (read_protobuf_string_at _ _ _ _ _ _ Hd3 Hs) by lia.
      apply Hnext. reflexivity.
    + apply andb_true_iff in Hi as [[[[Hw Hfn]%tag_ok_inv Ha]%andb_true_iff
                                       Hw2%Z.eqb_eq]%andb_true_iff Hfn2%negb_true_iff].
      rewrite (read_protobuf_tag_len _ _ _ _ _ Hd) by (lia || assumption).
      rewrite Hfn. cbn [Z.eqb Pos.eqb].
      destruct (peek_drop _ _ _ _ Hd) as [_ Hd1].
      rewrite (read_protobuf_varint_at _ _ _ _ _ Hd1 Ha) by lia.
      assert (Hd2 : drop (S (kv_ptr s) + length (varint_tok_bytes any_len)) mem
                    = any_tag :: kv_items_bytes items ++ rest).
      { rewrite <- drop_drop, Hd1, drop_app_length. reflexivity. }
      rewrite (read_protobuf_tag_len _ _ _ _ _ Hd2) by (lia || assumption).
      rewrite Hfn2.
      cbn [Z.eqb Pos.eqb].
      apply Hnext. reflexivity.
    + apply andb_true_iff in Hi as [[Hw%Z.eqb_eq Hf1%negb_true_iff]%andb_true_iff
                                      Hf2%negb_true_iff].
      rewrite (read_protobuf_tag_len _ _ _ _ _ Hd) by (lia || assumption).
      rewrite Hf1, Hf2.
      cbn [Z.eqb Pos.eqb].
      apply Hnext. reflexivity.
Qed.

Lemma kv_items_bytes_cons (i : kv_item) (items : list kv_item) :
  kv_items_bytes (i :: items) = kv_item_bytes i ++ kv_items_bytes items.
Proof. reflexivity. Qed.

Lemma parse_keyvalue_inv (fuel : nat) :
  forall (mem : list byte) (kv_end : nat) (s s' : kv_state),
  parse_keyvalue fuel mem kv_end s = Parsed s' ->
  (kv_end <= length mem)%nat -> (kv_ptr s <= kv_end)%nat ->
  exists items,
    forallb kv_item_ok items = true
    /\ drop (kv_ptr s) mem = kv_items_bytes items ++ drop kv_end mem
    /\ s' = foldl apply_item s items
    /\ kv_ptr s' = kv_end.
Proof.
  assert (Hstop : forall (mem : list byte) (kv_end : nat) (s s' : kv_state),
            Parsed s = Parsed s' -> (kv_end <= kv_ptr s)%nat -> (kv_ptr s <= kv_end)%nat ->
            exists items,
              forallb kv_item_ok items = true
              /\ drop (kv_ptr s) mem = kv_items_bytes items ++ drop kv_end mem
              /\ s' = foldl apply_item s items
              /\ kv_ptr s' = kv_end).
  { intros mem kv_end s s' [= <-] H1 H2. exists [].
    replace kv_end with (kv_ptr s) by lia. repeat split. }
  induction fuel as [|fuel IH]; intros mem kv_end s s' Hp Hmem Hs;
    cbn [parse_keyvalue] in Hp;
    destruct (Nat.leb_spec kv_end (kv_ptr s)) as [Hle|Hlt];
    try (apply (Hstop mem kv_end s s' Hp Hle Hs)); try discriminate.
  destruct (read_protobuf_tag mem (kv_ptr s) kv_end) as [[p1 f1]|] eqn:Et;
    [|discriminate].
  destruct (read_protobuf_tag_inv _ _ _ _ _ Et Hmem) as (tag & Hd & -> & Hp1 & Hw & ->).
  clear Et.
  destruct (Z.eqb_spec (field_number tag) 1) as [Hf1|Hf1].
  - destruct (read_protobuf_string mem (S (kv_ptr s)) kv_end) as [[p2 raw]|] eqn:Es;
      [|discriminate].
    destruct (read_protobuf_string_inv _ _ _ _ _ Es Hmem) as (len & Hd1 & -> & Hp2 & Hok).
    destruct (IH _ _ _ _ Hp Hmem Hp2) as (items & Hoks & Hd2 & -> & Hend).
    exists (KeyItem tag len raw :: items). cbn [kv_ptr] in Hd2.
    split; [|split; [|split; [reflexivity|exact Hend]]].
    + cbn [forallb kv_item_ok]. unfold tag_ok. rewrite Hw, Hf1, Hok, Hoks. reflexivity.
    + rewrite kv_items_bytes_cons, Hd, Hd1, Hd2. cbn [kv_item_bytes].
      rewrite <- !app_assoc. reflexivity.
  - destruct (Z.eqb_spec (field_number tag) 2) as [Hf2|Hf2].
    + destruct (read_protobuf_varint mem (S (kv_ptr s)) kv_end) as [[p2 any]|] eqn:Ev;
        [|discriminate].
      destruct (read_protobuf_varint_inv _ _ _ _ _ Ev Hmem)
        as (any_len & Hd1 & -> & Hp2 & Hany & _).
      clear Ev.
      destruct (read_protobuf_tag mem _ kv_end) as [[p3 f3]|] eqn:Et2; [|discriminate].
      destruct (read_protobuf_tag_inv _ _ _ _ _ Et2 Hmem)
        as (any_tag & Hd2 & -> & Hp3 & Hw2 & ->).
      clear Et2.
      destruct (Z.eqb_spec (field_number any_tag) 1) as [Hg1|Hg1].
      * destruct (read_protobuf_string mem _ kv_end) as [[p4 raw]|] eqn:Es; [|discriminate].
        destruct (read_protobuf_string_inv _ _ _ _ _ Es Hmem)
          as (len & Hd3 & -> & Hp4 & Hok).
        destruct (IH _ _ _ _ Hp Hmem Hp4) as (items & Hoks & Hd4 & -> & Hend).
        exists (ValueItem tag any_len any_tag len raw :: items). cbn [kv_ptr] in Hd4.
        split; [|split; [|split; [reflexivity|exact Hend]]].
        -- cbn [forallb kv_item_ok]. unfold tag_ok.
           rewrite Hw, Hf2, Hany, Hw2, Hg1, Hok, Hoks. reflexivity.
        -- rewrite kv_items_bytes_cons, Hd, Hd1, Hd2, Hd3, Hd4. cbn [kv_item_bytes].
           rewrite <- !app_assoc. reflexivity.
      * destruct (IH _ _ _ _ Hp Hmem Hp3) as (items & Hoks & Hd4 & -> & Hend).
        exists (ValueSkipped tag any_len any_tag :: items). cbn [kv_ptr] in Hd4.
        split; [|split; [|split; [reflexivity|exact Hend]]].
        -- cbn [forallb kv_item_ok]. unfold tag_ok.
           rewrite Hw, Hf2, Hany, Hw2, Hoks.
           destruct (Z.eqb_spec (field_number any_tag) 1); [contradiction|reflexivity].
        -- rewrite kv_items_bytes_cons, Hd, Hd1, Hd2, Hd4. cbn [kv_item_bytes].
           rewrite <- !app_assoc. reflexivity.
    + destruct (IH _ _ _ _ Hp Hmem Hp1) as (items & Hoks & Hd4 & -> & Hend).
      exists (UnknownItem tag :: items). cbn [kv_ptr] in Hd4.
      split; [|split; [|split; [reflexivity|exact Hend]]].
      * cbn [forallb kv_item_ok]. rewrite Hw, Hoks.
        destruct (Z.eqb_spec (field_number tag) 1); [contradiction|].
        destruct (Z.eqb_spec (field_number tag) 2); [contradiction|reflexivity].
      * rewrite kv_items_bytes_cons, Hd, Hd4. reflexivity.
Qed.

(** ** The attributes loop against the wire syntax *)

Lemma last_key_acc (items : list kv_item) (acc : option (list byte)) :
  last_key items acc
  = match last_key items None with Some k => Some k | None => acc end.
Proof.
  revert acc. induction items as [|i items IH]; intros acc; [reflexivity|].
  destruct i; cbn [last_key]; rewrite ?(IH (Some _)); try apply IH.
  destruct (last_key items None); reflexivity.
Qed.

Lemma last_value_acc (items : list kv_item) (acc : option (list byte)) :
  last_value items acc
  = match last_value items None with Some k => Some k | None => acc end.
Proof.
  revert acc. induction items as [|i items IH]; intros acc; [reflexivity|].
  destruct i; cbn [last_value]; rewrite ?(IH (Some _)); try apply IH.
  destruct (last_value items None); reflexivity.
Qed.

Lemma foldl_apply_item_state (items : list kv_item) (s : kv_state) :
  let s' := foldl apply_item s items in
  key_found s' = key_found s || is_set (last_key items None)
  /\ value_found s' = value_found s || is_set (last_value items None)
  /\ key_buffer s' = default (key_buffer s) (last_key items None)
  /\ value_buffer s' = default (value_buffer s) (last_value items None)
  /\ kv_ptr s' = (kv_ptr s + length (kv_items_bytes items))%nat.
Proof.
  revert s. induction items as [|i items IH]; intros s.
  - cbn. rewrite !orb_false_r. repeat split. lia.
  - cbn [foldl]. destruct (IH (apply_item s i)) as (H1 & H2 & H3 & H4 & H5).
    cbv zeta. rewrite H1, H2, H3, H4, H5, apply_item_ptr, kv_items_bytes_cons, length_app.
    destruct i; cbn [apply_item key_found value_found key_buffer value_buffer
                     last_key last_value];
      rewrite ?(last_key_acc items (Some _)), ?(last_value_acc items (Some _));
      destruct (last_key items None), (last_value items None);
      cbn; rewrite ?orb_true_r, ?orb_false_r; repeat split; lia.
Qed.

Lemma kv_record_bytes_length (r : kv_record) :
  (2 <= length (kv_record_bytes r))%nat.
Proof.
  unfold kv_record_bytes. rewrite !length_app.
  destruct (rec_len r); cbn [varint_tok_bytes length]; lia.
Qed.

Lemma records_bytes_cons (r : kv_record) (recs : list kv_record) :
  records_bytes (r :: recs) = kv_record_bytes r ++ records_bytes recs.
Proof. reflexivity. Qed.

Lemma varint_tok_value_nonneg (t : varint_tok) : 0 <= varint_tok_value t.
Proof.
  destruct t; cbn [varint_tok_value]; unfold uint16;
    [apply byte_to_Z_range|apply Z.mod_pos_bound; lia].
Qed.

Lemma parse_attributes_done (fuel : nat) (mem : list byte) (end_ptr : nat) (s : decoder) :
  (end_ptr <= dec_ptr s)%nat -> parse_attributes fuel mem end_ptr s = Parsed s.
Proof.
  intros H. destruct fuel; cbn [parse_attributes];
    destruct (Nat.leb_spec end_ptr (dec_ptr s)); (reflexivity || lia).
Qed.

Lemma parse_attributes_records (recs : list kv_record) :
  forall (fuel : nat) (mem : list byte) (end_ptr : nat) (s : decoder) (rest : list byte),
  forallb kv_record_ok recs = true ->
  drop (dec_ptr s) mem = records_bytes recs ++ rest ->
  end_ptr = (dec_ptr s + length (records_bytes recs))%nat ->
  (length (records_bytes recs) <= fuel)%nat ->
  parsed_data (parse_attributes fuel mem end_ptr s)
  = dispatch_all (record_pair <$> recs) (data_out s).
Proof.
  induction recs as [|r recs IH]; intros fuel mem end_ptr s rest Hok Hd He Hf.
  - rewrite parse_attributes_done; [reflexivity|].
    change (records_bytes []) with (@nil byte) in He. cbn [length] in He. lia.
  - cbn [forallb] in Hok. apply andb_true_iff in Hok as [Hr Hok].
    rewrite records_bytes_cons in *. rewrite length_app in He, Hf.
    pose proof (kv_record_bytes_length r) as Hlen.
    destruct fuel as [|fuel]; [lia|].
    unfold kv_record_ok in Hr.
    apply andb_true_iff in Hr as [Hr Hval]. apply andb_true_iff in Hr as [Hr Hkey].
    apply andb_true_iff in Hr as [Hr Hitems]. apply andb_true_iff in Hr as [Hr Hsz].
    apply andb_true_iff in Hr as [[Hw Hfn]%tag_ok_inv Hvok].
    apply Z.eqb_eq in Hsz. unfold strlen in Hsz.
    unfold kv_record_bytes in *. rewrite !length_app in *. cbn [length] in *.
    rewrite <- !app_assoc in Hd. cbn [app] in Hd.
    cbn [parse_attributes fmap list_fmap dispatch_all].
    destruct (Nat.leb_spec end_ptr (dec_ptr s)); [lia|].
    rewrite (read_protobuf_tag_len _ _ _ _ _ Hd) by (lia || assumption).
    rewrite Hfn. cbn [Z.eqb Pos.eqb negb].
    destruct (peek_drop _ _ _ _ Hd) as [_ Hd1].
    rewrite (read_protobuf_varint_at _ _ _ _ _ Hd1 Hvok) by lia.
    rewrite Hsz, Nat2Z.id.
    set (p2 := (S (dec_ptr s) + length (varint_tok_bytes (rec_len r)))%nat) in *.
    destruct (Nat.ltb_spec end_ptr (p2 + length (kv_items_bytes (rec_items r))));
      [lia|].
    assert (Hd2 : drop p2 mem = kv_items_bytes (rec_items r) ++ records_bytes recs ++ rest).
    { unfold p2. rewrite <- drop_drop, Hd1, drop_app_length. reflexivity. }
    rewrite (parse_keyvalue_items (rec_items r) _ mem _ _ (records_bytes recs ++ rest));
      [|exact Hitems|exact Hd2|reflexivity|lia].
    match goal with |- context [foldl apply_item ?s0 _] => set (s0' := s0) end.
    destruct (foldl_apply_item_state (rec_items r) s0') as (K1 & K2 & K3 & K4 & K5).
    rewrite K1, K2, K3, K4. cbn [key_found value_found s0'].
    rewrite Hkey, Hval. cbn [negb orb].
    destruct (last_key (rec_items r) None) as [k|] eqn:Ek; [|discriminate].
    destruct (last_value (rec_items r) None) as [v|] eqn:Ev; [|discriminate].
    replace (record_pair r) with (cstr k, cstr v)
      by (unfold record_pair; rewrite Ek, Ev; reflexivity).
    cbn [default from_option id].
    destruct (dispatch (cstr k) (cstr v) (data_out s)) as [d|]; [|reflexivity].
    match goal with
    | |- parsed_data (parse_attributes _ _ _ ?s1) = _ =>
        apply (IH fuel mem end_ptr s1 rest Hok); cbn [dec_ptr data_out]
    end.
    + rewrite K5. cbn [kv_ptr s0'].
      rewrite <- drop_drop, Hd2, drop_app_length. reflexivity.
    + rewrite K5. cbn [kv_ptr s0']. unfold p2. lia.
    + lia.
Qed.

Lemma parse_attributes_inv (fuel : nat) :
  forall (mem : list byte) (end_ptr : nat) (s s' : decoder),
  parse_attributes fuel mem end_ptr s = Parsed s' ->
  (end_ptr <= length mem)%nat -> (dec_ptr s <= end_ptr)%nat ->
  exists recs,
    forallb kv_record_ok recs = true
    /\ drop (dec_ptr s) mem = records_bytes recs ++ drop end_ptr mem.
Proof.
  induction fuel as [|fuel IH]; intros mem end_ptr s s' Hp Hmem Hs;
    cbn [parse_attributes] in Hp;
    destruct (Nat.leb_spec end_ptr (dec_ptr s)) as [Hle|Hlt];
    try (exists []; replace end_ptr with (dec_ptr s) by lia; split; reflexivity);
    try discriminate.
  destruct (read_protobuf_tag mem (dec_ptr s) end_ptr) as [[p1 f1]|] eqn:Et;
    [|discriminate].
  destruct (read_protobuf_tag_inv _ _ _ _ _ Et Hmem) as (tag & Hd & -> & Hp1 & Hw & ->).
  clear Et.
  destruct (Z.eqb_spec (field_number tag) 1) as [Hf1|Hf1]; [|discriminate].
  cbn [negb] in Hp.
  destruct (read_protobuf_varint mem (S (dec_ptr s)) end_ptr) as [[p2 v]|] eqn:Ev;
    [|discriminate].
  destruct (read_protobuf_varint_inv _ _ _ _ _ Ev Hmem) as (t & Hd1 & -> & Hp2 & Htok & ->).
  clear Ev.
  set (p2 := (S (dec_ptr s) + length (varint_tok_bytes t))%nat) in *.
  pose proof (varint_tok_value_nonneg t) as Hv0.
  destruct (Nat.ltb_spec end_ptr (p2 + Z.to_nat (varint_tok_value t))) as [|Hkv];
    [discriminate|].
  destruct (parse_keyvalue _ mem _ _) as [kv| |] eqn:Ekv; try discriminate.
  apply parse_keyvalue_inv in Ekv as (items & Hitems & Hd2 & -> & Hend);
    [|lia|cbn [kv_ptr]; lia].
  cbn [kv_ptr] in Hd2.
  match type of Hend with kv_ptr (foldl apply_item ?s0 _) = _ => set (s0' := s0) in * end.
  destruct (foldl_apply_item_state items s0') as (K1 & K2 & K3 & K4 & K5).
  rewrite K1, K2 in Hp. cbn [key_found value_found s0' orb] in Hp.
  destruct (last_key items None) as [k|] eqn:Ek; [|discriminate].
  destruct (last_value items None) as [vl|] eqn:Evl; [|discriminate].
  cbn [is_set negb orb] in Hp.
  destruct (dispatch _ _ (data_out s)) as [d|]; [|discriminate].
  apply IH in Hp as (recs & Hrecs & Hd3); [|exact Hmem|cbn [dec_ptr]; lia].
  cbn [dec_ptr] in Hd3. rewrite Hend in Hd3.
  assert (Hlen : length (kv_items_bytes items) = Z.to_nat (varint_tok_value t)).
  { rewrite K5 in Hend. cbn [kv_ptr s0'] in Hend. lia. }
  exists ({| rec_tag := tag; rec_len := t; rec_items := items |} :: recs). split.
  - cbn [forallb]. rewrite Hrecs, andb_true_r. unfold kv_record_ok, tag_ok, strlen.
    cbn [rec_tag rec_len rec_items].
    rewrite Hw, Hf1, Htok, Hitems, Ek, Evl, Hlen, Z2Nat.id by lia.
    rewrite !Z.eqb_refl. reflexivity.
  - rewrite records_bytes_cons, Hd, Hd1. fold p2. rewrite Hd2, Hd3.
    unfold kv_record_bytes. cbn [rec_tag rec_len rec_items].
    rewrite <- !app_assoc. reflexivity.
Qed.

(** ** The loops terminate within their iteration bounds *)

Lemma read_protobuf_tag_advances (mem : list byte) (p e p' : nat) (f : Z) :
  read_protobuf_tag mem p e = Some (p', f) -> (p < p' <= e)%nat.
Proof.
  unfold read_protobuf_tag. destruct (Nat.leb_spec e p); [discriminate|].
  destruct (_ =? 2); [|discriminate]. intros [= <- _]. lia.
Qed.

Lemma read_protobuf_varint_advances (mem : list byte) (p e p' : nat) (v : Z) :
  read_protobuf_varint mem p e = Some (p', v) -> (p < p' <= e)%nat /\ 0 <= v.
Proof.
  unfold read_protobuf_varint. destruct (Nat.leb_spec e p); [discriminate|].
  destruct (_ <? 128) eqn:E.
  - intros [= <- <-]. split; [lia|]. apply byte_to_Z_range.
  - destruct (Nat.leb_spec e (S p)); [discriminate|].
    destruct (_ <=? UINT14_MAX); [|discriminate]. intros [= <- <-].
    split; [lia|]. apply Z.mod_pos_bound. lia.
Qed.

Lemma read_protobuf_string_advances (mem : list byte) (p e p' : nat) (raw : list byte) :
  read_protobuf_string mem p e = Some (p', raw) -> (p < p' <= e)%nat.
Proof.
  unfold read_protobuf_string.
  destruct (read_protobuf_varint mem p e) as [[q v]|] eqn:Ev; [|discriminate].
  apply read_protobuf_varint_advances in Ev as [Hq Hv].
  destruct (_ <=? v); [discriminate|].
  destruct (Nat.ltb_spec e (q + Z.to_nat v)); [discriminate|].
  intros [= <- _]. lia.
Qed.

Lemma parse_keyvalue_fuel (fuel : nat) :
  forall (mem : list byte) (kv_end : nat) (s : kv_state),
  (kv_end - kv_ptr s <= fuel)%nat ->
  match parse_keyvalue fuel mem kv_end s with
  | Parsed s' => (kv_ptr s <= kv_ptr s')%nat
  | Rejected => True
  | OutOfFuel => False
  end.
Proof.
  induction fuel as [|fuel IH]; intros mem kv_end s Hf; cbn [parse_keyvalue];
    destruct (Nat.leb_spec kv_end (kv_ptr s)); try lia.
  destruct (read_protobuf_tag mem (kv_ptr s) kv_end) as [[p1 f1]|] eqn:Et; [|exact I].
  apply read_protobuf_tag_advances in Et.
  assert (Hnext : forall s1, (kv_ptr s < kv_ptr s1 <= kv_end)%nat ->
            match parse_keyvalue fuel mem kv_end s1 with
            | Parsed s' => (kv_ptr s <= kv_ptr s')%nat
            | Rejected => True
            | OutOfFuel => False
            end).
  { intros s1 H1. specialize (IH mem kv_end s1).
    destruct (parse_keyvalue fuel mem kv_end s1); [|exact I|]; (lia || apply IH; lia). }
  destruct (f1 =? 1).
  - destruct (read_protobuf_string mem p1 kv_end) as [[p2 raw]|] eqn:Es; [|exact I].
    apply read_protobuf_string_advances in Es. apply Hnext. cbn [kv_ptr]. lia.
  - destruct (f1 =? 2); [|apply Hnext; cbn [kv_ptr]; lia].
    destruct (read_protobuf_varint mem p1 kv_end) as [[p2 v]|] eqn:Ev; [|exact I].
    apply read_protobuf_varint_advances in Ev as [Ev _].
    destruct (read_protobuf_tag mem p2 kv_end) as [[p3 f3]|] eqn:Et2; [|exact I].
    apply read_protobuf_tag_advances in Et2.
    destruct (f3 =? 1); [|apply Hnext; cbn [kv_ptr]; lia].
    destruct (read_protobuf_string mem p3 kv_end) as [[p4 raw]|] eqn:Es; [|exact I].
    apply read_protobuf_string_advances in Es. apply Hnext. cbn [kv_ptr]. lia.
Qed.

Lemma parse_attributes_fuel (fuel : nat) :
  forall (mem : list byte) (end_ptr : nat) (s : decoder),
  (end_ptr - dec_ptr s <= fuel)%nat ->
  parse_attributes fuel mem end_ptr s <> OutOfFuel.
Proof.
  induction fuel as [|fuel IH]; intros mem end_ptr s Hf; cbn [parse_attributes];
    destruct (Nat.leb_spec end_ptr (dec_ptr s)); try lia; try discriminate.
  destruct (read_protobuf_tag mem (dec_ptr s) end_ptr) as [[p1 f1]|] eqn:Et;
    [|discriminate].
  apply read_protobuf_tag_advances in Et.
  destruct (negb (f1 =? 1)); [discriminate|].
  destruct (read_protobuf_varint mem p1 end_ptr) as [[p2 v]|] eqn:Ev; [|discriminate].
  apply read_protobuf_varint_advances in Ev as [Ev Hv].
  destruct (Nat.ltb_spec end_ptr (p2 + Z.to_nat v)); [discriminate|].
  match goal with |- context [parse_keyvalue ?f ?m ?e ?s0] =>
    pose proof (parse_keyvalue_fuel f m e s0) as Hkv;
    destruct (parse_keyvalue f m e s0) as [kv| |]
  end; try discriminate.
  - cbn [kv_ptr] in Hkv. specialize (Hkv ltac:(lia)).
    destruct (negb (key_found kv) || negb (value_found kv)); [discriminate|].
    destruct (dispatch _ _ _); [|discriminate].
    apply IH. cbn [dec_ptr]. lia.
  - cbn [kv_ptr] in Hkv. exfalso. apply Hkv. lia.
Qed.

(** ** Dispatch *)

Lemma elem_of_identity_keys (k : list byte) :
  k ∈ identity_keys ->
  k = bytes_of "deployment.environment.name" \/ k = bytes_of "service.instance.id"
  \/ k = bytes_of "service.name" \/ k = bytes_of "service.version"
  \/ k = bytes_of "telemetry.sdk.language" \/ k = bytes_of "telemetry.sdk.version"
  \/ k = bytes_of "telemetry.sdk.name".
Proof.
  unfold identity_keys. rewrite !elem_of_cons, elem_of_nil. tauto.
Qed.

Lemma is_identity_key_false (key : list byte) :
  is_identity_key key = false ->
  key <> bytes_of "deployment.environment.name" /\ key <> bytes_of "service.instance.id"
  /\ key <> bytes_of "service.name" /\ key <> bytes_of "service.version"
  /\ key <> bytes_of "telemetry.sdk.language" /\ key <> bytes_of "telemetry.sdk.version"
  /\ key <> bytes_of "telemetry.sdk.name".
Proof.
  unfold is_identity_key. rewrite bool_decide_eq_false. unfold identity_keys.
  rewrite !not_elem_of_cons. tauto.
Qed.

Lemma dispatch_resource (key value : list byte) (d : otel_process_ctx_data) :
  is_identity_key key = false ->
  dispatch key value d
  = if (resource_capacity <=? length (default [] (resources d)) + 2)%nat then None
    else Some (data_with_resources (Some (default [] (resources d) ++ [key; value])) d).
Proof.
  intros (H1 & H2 & H3 & H4 & H5 & H6 & H7)%is_identity_key_false.
  unfold dispatch. repeat (destruct (decide _) as [?|_]; [contradiction|]).
  reflexivity.
Qed.

Lemma dispatch_identity (key value : list byte) (d : otel_process_ctx_data) :
  is_identity_key key = true ->
  exists d', dispatch key value d = Some d'
    /\ resources d' = resources d
    /\ forall k, get_field k d' = if decide (k = key) then Some value else get_field k d.
Proof.
  unfold is_identity_key. rewrite bool_decide_eq_true.
  intros Hk%elem_of_identity_keys.
  destruct Hk as [->|[->|[->|[->|[->|[->| ->]]]]]];
    (eexists; split; [reflexivity|split; [reflexivity|]]);
    intros k; unfold get_field;
    repeat (destruct (decide (k = _)) as [->|?]; try reflexivity; try discriminate).
Qed.

Lemma get_field_resource (k key value : list byte) (d : otel_process_ctx_data)
    (res : option (list (list byte))) :
  get_field k (data_with_resources res d) = get_field k d.
Proof. reflexivity. Qed.

Lemma all_required_found_fields (d : otel_process_ctx_data) :
  all_required_found d = forallb (fun k => is_set (get_field k d)) identity_keys.
Proof. cbn. rewrite andb_true_r, !andb_assoc. reflexivity. Qed.

Lemma dispatch_all_app (l1 l2 : list (list byte * list byte)) (d : otel_process_ctx_data) :
  dispatch_all (l1 ++ l2) d = dispatch_all l1 d ≫= dispatch_all l2.
Proof.
  revert d. induction l1 as [|[k v] l1 IH]; intros d; [reflexivity|].
  cbn [app dispatch_all]. destruct (dispatch k v d); [apply IH|reflexivity].
Qed.

(** Which payloads pass every dispatch: the pairs with an unknown key must
    fit the resources array. *)
Lemma dispatch_all_is_Some (pairs : list (list byte * list byte))
    (d : otel_process_ctx_data) :
  is_Some (dispatch_all pairs d) <->
  resource_pairs pairs = []
  \/ (length (default [] (resources d)) + 2 * length (resource_pairs pairs) <= 200)%nat.
Proof.
  revert d. induction pairs as [|[k v] pairs IH]; intros d.
  - cbn. split; [auto|eauto].
  - cbn [dispatch_all]. unfold resource_pairs in *. rewrite filter_cons. cbn [fst].
    destruct (is_identity_key k) eqn:Ek.
    + destruct (dispatch_identity k v d Ek) as (d' & -> & Hres & _).
      rewrite decide_False by discriminate. rewrite IH, Hres. reflexivity.
    + rewrite decide_True by reflexivity. rewrite dispatch_resource by exact Ek.
      unfold resource_capacity. cbn [length].
      destruct (Nat.leb_spec 201 (length (default [] (resources d)) + 2)).
      * split; [intros [? [=]]|]. intros [[=]|]. lia.
      * rewrite IH. cbn [resources data_with_resources default from_option id].
        rewrite length_app. cbn [length]. split; [intros [->|]; right; cbn; lia|].
        intros [[=]|]. right. lia.
Qed.

(** Which identity fields are set after all dispatches. *)
Lemma dispatch_all_fields (pairs : list (list byte * list byte))
    (d d' : otel_process_ctx_data) (k : list byte) :
  dispatch_all pairs d = Some d' ->
  is_set (get_field k d') = is_set (get_field k d) || bool_decide (k ∈ pairs.*1)
  \/ is_identity_key k = false.
Proof.
  destruct (is_identity_key k) eqn:Eid; [|auto]. intros H. left. revert d H.
  induction pairs as [|[key v] pairs IH]; intros d H.
  - injection H as <-. cbn. rewrite orb_false_r. reflexivity.
  - cbn [dispatch_all] in H. cbn [fmap list_fmap fst].
    destruct (dispatch key v d) as [d1|] eqn:E1; [|discriminate].
    rewrite (IH d1 H).
    assert (Hd1 : is_set (get_field k d1)
                  = is_set (get_field k d) || bool_decide (k = key)).
    { destruct (is_identity_key key) eqn:Ekey.
      - destruct (dispatch_identity key v d Ekey) as (d2 & Hd2 & _ & Hf).
        rewrite Hd2 in E1. injection E1 as <-. rewrite Hf.
        destruct (decide (k = key)) as [->|Hne].
        + rewrite bool_decide_eq_true_2 by reflexivity. rewrite orb_true_r. reflexivity.
        + rewrite bool_decide_eq_false_2 by exact Hne. rewrite orb_false_r. reflexivity.
      - rewrite dispatch_resource in E1 by exact Ekey.
        destruct (_ <=? _)%nat; [discriminate|]. injection E1 as <-.
        rewrite get_field_resource by exact key.
        rewrite bool_decide_eq_false_2; [rewrite orb_false_r; reflexivity|].
        intros ->. congruence. }
    rewrite Hd1, <- orb_assoc. f_equal.
    destruct (decide (k = key)) as [->|Hne].
    + rewrite (bool_decide_eq_true_2 (key = key)) by reflexivity.
      rewrite (bool_decide_eq_true_2 (key ∈ key :: pairs.*1)) by left. reflexivity.
    + rewrite (bool_decide_eq_false_2 (k = key)) by exact Hne. cbn [orb].
      apply bool_decide_ext. rewrite elem_of_cons. tauto.
Qed.

(** ** The decoder as a whole *)

Lemma decode_unfold (payload : list byte) (n : nat) (kb vb : list byte) :
  otel_process_ctx_decode_payload payload n kb vb
  = parsed_data (parse_attributes n payload n
                   {| dec_ptr := 0; dec_key_buffer := kb; dec_value_buffer := vb;
                      data_out := initial_data_out |})
    ≫= require_identity.
Proof.
  unfold otel_process_ctx_decode_payload, initial_data_out.
  destruct (parse_attributes _ _ _ _); reflexivity.
Qed.

(** Neither loop of the decoder stops for lack of iterations. *)
Lemma decode_never_out_of_fuel (payload : list byte) (n : nat) (kb vb : list byte) :
  parse_attributes n payload n
    {| dec_ptr := 0; dec_key_buffer := kb; dec_value_buffer := vb;
       data_out := initial_data_out |} <> OutOfFuel.
Proof. apply parse_attributes_fuel. cbn [dec_ptr]. lia. Qed.

Lemma decode_records (recs : list kv_record) (kb vb : list byte) :
  forallb kv_record_ok recs = true ->
  otel_process_ctx_decode_payload (records_bytes recs) (length (records_bytes recs)) kb vb
  = dispatch_all (record_pair <$> recs) initial_data_out ≫= require_identity.
Proof.
  intros Hok. rewrite decode_unfold.
  rewrite (parse_attributes_records recs _ _ _ _ [] Hok);
    cbn [dec_ptr data_out]; [reflexivity|rewrite app_nil_r; reflexivity|lia|lia].
Qed.

Lemma decode_inv (payload : list byte) (kb vb : list byte) (d : otel_process_ctx_data) :
  otel_process_ctx_decode_payload payload (length payload) kb vb = Some d ->
  exists recs, forallb kv_record_ok recs = true /\ payload = records_bytes recs.
Proof.
  rewrite decode_unfold.
  destruct (parse_attributes _ _ _ _) as [s'| |] eqn:Ep; try discriminate.
  intros _. apply parse_attributes_inv in Ep as (recs & Hok & Hd); cbn [dec_ptr]; try lia.
  exists recs. split; [exact Hok|].
  cbn [dec_ptr] in Hd. rewrite drop_all, app_nil_r in Hd. exact Hd.
Qed.

Lemma decode_Some_iff (payload kb vb : list byte) (d : otel_process_ctx_data) :
  otel_process_ctx_decode_payload payload (length payload) kb vb = Some d <->
  exists recs,
    payload = records_bytes recs
    /\ forallb kv_record_ok recs = true
    /\ (length (resource_pairs (record_pair <$> recs)) <= 100)%nat
    /\ (forall k, k ∈ identity_keys -> k ∈ (record_pair <$> recs).*1)
    /\ dispatch_all (record_pair <$> recs) initial_data_out = Some d.
Proof.
  split.
  - intros Hdec. destruct (decode_inv _ _ _ _ Hdec) as (recs & Hok & ->).
    rewrite (decode_records recs kb vb Hok) in Hdec.
    destruct (dispatch_all (record_pair <$> recs) initial_data_out) as [d1|] eqn:Ed;
      [|discriminate].
    cbn in Hdec. unfold require_identity in Hdec.
    destruct (all_required_found d1) eqn:Ereq; [|discriminate].
    injection Hdec as <-. exists recs. repeat split; try assumption.
    + assert (Hs : is_Some (dispatch_all (record_pair <$> recs) initial_data_out))
        by (rewrite Ed; eauto).
      apply dispatch_all_is_Some in Hs as [->|Hs]; cbn in *; lia.
    + intros k Hk. rewrite all_required_found_fields in Ereq.
      rewrite forallb_forall in Ereq. specialize (Ereq k).
      rewrite <- list_elem_of_In in Ereq. specialize (Ereq Hk).
      destruct (dispatch_all_fields _ _ _ k Ed) as [Hf|Hf].
      * rewrite Hf in Ereq.
        replace (get_field k initial_data_out) with (@None (list byte)) in Ereq
          by (unfold get_field; repeat destruct (decide _); reflexivity).
        cbn in Ereq. apply bool_decide_eq_true in Ereq. exact Ereq.
      * unfold is_identity_key in Hf. apply bool_decide_eq_false in Hf. contradiction.
  - intros (recs & -> & Hok & Hcount & Hkeys & Hd).
    rewrite (decode_records recs kb vb Hok), Hd. cbn. unfold require_identity.
    rewrite all_required_found_fields.
    replace (forallb _ identity_keys) with true; [reflexivity|].
    symmetry. apply forallb_forall. intros k Hk%list_elem_of_In.
    destruct (dispatch_all_fields _ _ _ k Hd) as [Hf|Hf].
    + rewrite Hf. rewrite (bool_decide_eq_true_2 _ (Hkeys k Hk)). apply orb_true_r.
    + unfold is_identity_key in Hf. apply bool_decide_eq_false in Hf. contradiction.
Qed.

Lemma passes_validation_required (data : otel_process_ctx_data) :
  passes_validation data = true -> all_required_found data = true.
Proof.
  unfold passes_validation. intros [H _]%andb_true_iff. revert H.
  unfold validate_and_calculate_protobuf_payload_size, identity_entries.
  destruct data as [[v1|] [v2|] [v3|] [v4|] [v5|] [v6|] [v7|] res];
    cbn [identity_cells non_null_prefix length Nat.odd negb
         deployment_environment_name service_instance_id service_name
         service_version telemetry_sdk_language telemetry_sdk_version
         telemetry_sdk_name fst success failure];
    (discriminate || reflexivity).
Qed.

Lemma lax_payload_shape :
  exists b tl,
    lax_payload = tag_byte 1 :: b :: tag_byte 3 :: tl /\ byte_to_Z b < 128.
Proof. eexists. eexists. split; vm_compute; reflexivity. Qed.

(** No output of the encoder starts the way [lax_payload] does. *)
Lemma encode_never_lax (calloc_ok : bool) (data : otel_process_ctx_data)
    (r : otel_process_ctx_result) (e : encoded) :
  otel_process_ctx_encode_protobuf_payload calloc_ok data = (r, Some e) ->
  enc_bytes e <> lax_payload.
Proof.
  intros He. destruct (encode_Some _ _ _ _ He) as [-> Hv].
  assert (Hb : enc_bytes e = attributes_bytes (identity_entries data)
                              ++ attributes_bytes (resource_entries data)).
  { pose proof (encode_success data Hv) as Hs. rewrite He in Hs.
    apply (f_equal snd) in Hs. cbv beta iota delta [snd] in Hs.
    injection Hs as Hs. rewrite Hs. reflexivity. }
  rewrite Hb. clear Hb He.
  destruct (well_formed_identity_entries data (passes_validation_required data Hv))
    as (v1 & v2 & v3 & v4 & v5 & v6 & v7 & -> & _).
  destruct lax_payload_shape as (b & tl & -> & Hlt).
  cbn [attributes_bytes]. unfold attribute_bytes at 1.
  set (n := protobuf_otel_keyvalue_string_size _ v1).
  unfold varint_bytes. destruct (protobuf_varint_size (uint16 n) =? 1);
    cbn [app]; rewrite <- ?app_assoc; cbn [app]; intros Heq.
  - assert (Ht : tag_byte 1 = tag_byte 3) by congruence.
    vm_compute in Ht. discriminate Ht.
  - assert (Hc : to_char (Z.lor (Z.land (uint16 n) 0x7F) 0x80) = b) by congruence.
    rewrite <- Hc in Hlt.
    rewrite byte_to_Z_to_char, land_7F, lor_0x80 in Hlt
      by (apply Z.mod_pos_bound; lia).
    pose proof (Z.mod_pos_bound (uint16 n) 128).
    rewrite Z.mod_small in Hlt; lia.
Qed.

(** C5: the decoder does not reject every payload that deviates from the
    format of the encoder. [lax_payload] carries a tag of field 3 inside its
    first KeyValue, so the encoder produces it for no attribute object; the
    decoder returns true on it, with the attributes of [sample_data],
    against its own comment ("If the protobuf data doesn't match the
    encoder, this will return false") and unlike the top-level loop, which
    rejects every field number other than 1. *)
Lemma decode_accepts_lax_payload :
  otel_process_ctx_decode_payload lax_payload (length lax_payload) [] []
  = Some sample_data
  /\ forall calloc_ok data r e,
       otel_process_ctx_encode_protobuf_payload calloc_ok data = (r, Some e) ->
       enc_bytes e <> lax_payload.
Proof.
  split; [vm_compute; reflexivity|]. intros calloc_ok data r e. apply encode_never_lax.
Qed.

(** What the decoder accepts, in the wire syntax, unknown field numbers
    inside a KeyValue included: exactly the payloads that are a
    sequence of complete records, each with a top-level tag of wire type LEN
    and field number 1, a varint length of at most 16383 that is the length
    of its body, and a body made of well-formed fields (every tag of wire
    type LEN, every varint at most 16383, every string at most 4096 bytes and
    inside the record) among which a key and a value occur, provided that at
    most 100 records carry a key other than the seven identity keys and
    that each identity key occurs in some record. Every other payload is
    rejected. *)
Lemma decode_accepts_iff (payload kb vb : list byte) :
  is_Some (otel_process_ctx_decode_payload payload (length payload) kb vb) <->
  exists recs,
    payload = records_bytes recs
    /\ forallb kv_record_ok recs = true
    /\ (length (resource_pairs (record_pair <$> recs)) <= 100)%nat
    /\ (forall k, k ∈ identity_keys -> k ∈ (record_pair <$> recs).*1).
Proof.
  split.
  - intros [d Hd]. apply decode_Some_iff in Hd as (recs & H1 & H2 & H3 & H4 & _).
    exists recs. auto.
  - intros (recs & H1 & H2 & H3 & H4).
    assert (Hs : is_Some (dispatch_all (record_pair <$> recs) initial_data_out))
      by (apply dispatch_all_is_Some; right; cbn; lia).
    destruct Hs as [d Hd]. exists d. apply decode_Some_iff. exists recs. auto.
Qed.

(** ** Encoder output in the wire syntax *)

Lemma varint_tok_of_bytes (n : Z) : varint_tok_bytes (varint_tok_of n) = varint_bytes n.
Proof.
  unfold varint_tok_of, varint_bytes. destruct (_ =? 1); reflexivity.
Qed.

Lemma varint_tok_of_ok (n : Z) :
  0 <= n <= UINT14_MAX ->
  varint_tok_ok (varint_tok_of n) = true /\ varint_tok_value (varint_tok_of n) = n.
Proof.
  unfold UINT14_MAX, varint_tok_of, protobuf_varint_size. intros Hn.
  rewrite (uint16_small n) by lia.
  destruct (Z.leb_spec 128 n) as [Hbig|Hsmall]; cbn [Z.eqb Pos.eqb].
  - cbn [varint_tok_ok varint_tok_value].
    rewrite !byte_to_Z_to_char, land_7F, shiftr_7, lor_0x80
      by (apply Z.mod_pos_bound; lia).
    rewrite varint_value_2 by (apply Z.mod_pos_bound; lia).
    pose proof (Z.mod_pos_bound n 128).
    replace ((n mod 128 + 128) mod 256 mod 128 + n / 128 mod 256 * 128) with n
      by (Z.to_euclidean_division_equations; lia).
    rewrite (Z.mod_small (n mod 128 + 128)) by lia.
    split; [|reflexivity]. apply andb_true_iff.
    split; apply Z.leb_le; unfold UINT14_MAX; lia.
  - cbn [varint_tok_ok varint_tok_value].
    rewrite byte_to_Z_to_char, Z.mod_small by lia.
    split; [apply Z.ltb_lt; lia|reflexivity].
Qed.

Lemma tag_byte_ok_1 : tag_ok (tag_byte 1) 1 = true.
Proof. vm_compute. reflexivity. Qed.

Lemma tag_byte_ok_2 : tag_ok (tag_byte 2) 2 = true.
Proof. vm_compute. reflexivity. Qed.

Lemma record_of_bytes (kv : list byte * list byte) :
  kv_record_bytes (record_of kv) = attribute_bytes kv.1 kv.2.
Proof.
  unfold kv_record_bytes, record_of, attribute_bytes, string_bytes, kv_items_bytes.
  cbn [rec_tag rec_len rec_items fmap list_fmap concat kv_item_bytes].
  rewrite !varint_tok_of_bytes, app_nil_r, <- !app_assoc. reflexivity.
Qed.

Lemma record_of_ok (kv : list byte * list byte) :
  strlen kv.1 <= KEY_VALUE_LIMIT -> strlen kv.2 <= KEY_VALUE_LIMIT ->
  kv_record_ok (record_of kv) = true.
Proof.
  intros Hk Hv. destruct (size_bounds _ _ Hk Hv) as (B1 & B2 & B3 & B4).
  destruct (varint_tok_of_ok (strlen kv.1)) as [K1 K2]; [unfold UINT14_MAX; lia|].
  destruct (varint_tok_of_ok (strlen kv.2)) as [V1 V2]; [unfold UINT14_MAX; lia|].
  destruct (varint_tok_of_ok (protobuf_string_size kv.2)) as [A1 _];
    [unfold UINT14_MAX; lia|].
  destruct (varint_tok_of_ok (protobuf_otel_keyvalue_string_size kv.1 kv.2))
    as [R1 R2]; [unfold UINT14_MAX; lia|].
  unfold kv_record_ok, record_of.
  cbn [rec_tag rec_len rec_items forallb kv_item_ok last_key last_value is_set].
  unfold string_ok.
  rewrite tag_byte_ok_1, tag_byte_ok_2, K1, K2, V1, V2, A1, R1, R2, !Z.eqb_refl.
  destruct (Z.leb_spec (strlen kv.1) KEY_VALUE_LIMIT); [|lia].
  destruct (Z.leb_spec (strlen kv.2) KEY_VALUE_LIMIT); [|lia].
  cbn [andb]. rewrite !andb_true_r. apply Z.eqb_eq.
  pose proof (attribute_bytes_length kv.1 kv.2) as Hlen.
  rewrite <- record_of_bytes in Hlen. unfold kv_record_bytes, record_of in Hlen.
  cbn [rec_tag rec_len rec_items] in Hlen.
  rewrite !length_app, !Nat2Z.inj_add, varint_tok_of_bytes, varint_bytes_length in Hlen.
  cbn [length] in Hlen. unfold protobuf_record_size in Hlen. unfold strlen at 1. lia.
Qed.

Lemma record_of_pair (kv : list byte * list byte) :
  x00 ∉ kv.1 -> x00 ∉ kv.2 -> record_pair (record_of kv) = kv.
Proof.
  intros Hk Hv. unfold record_pair, record_of.
  cbn [rec_items last_key last_value default from_option id].
  rewrite !cstr_no_nul by assumption. destruct kv; reflexivity.
Qed.

Lemma attributes_bytes_records (entries : list (list byte)) :
  attributes_bytes entries = records_bytes (record_of <$> pair_up entries).
Proof.
  induction entries as [|k|k v rest IH] using pairs_ind; try reflexivity.
  cbn [attributes_bytes pair_up fmap list_fmap].
  rewrite records_bytes_cons, record_of_bytes, IH. reflexivity.
Qed.

Lemma pair_up_Forall (P : list byte -> Prop) (entries : list (list byte)) :
  Forall P entries -> Forall (fun kv => P kv.1 /\ P kv.2) (pair_up entries).
Proof.
  induction entries as [|k|k v rest IH] using pairs_ind; intros H; try constructor.
  - apply Forall_cons in H as [Hk H]. apply Forall_cons in H as [Hv H]. auto.
  - apply IH.
    apply Forall_cons in H as [_ H]. apply Forall_cons in H as [_ H]. exact H.
Qed.

Lemma flatten_pair_up (entries : list (list byte)) :
  Nat.even (length entries) = true -> flatten_pairs (pair_up entries) = entries.
Proof.
  induction entries as [|k|k v rest IH] using pairs_ind; intros H;
    try reflexivity; try discriminate.
  cbn [pair_up flatten_pairs]. rewrite IH by exact H. reflexivity.
Qed.

Lemma pair_up_length (entries : list (list byte)) :
  (2 * length (pair_up entries) <= length entries)%nat.
Proof.
  induction entries as [|k|k v rest IH] using pairs_ind; cbn [pair_up length]; lia.
Qed.

Lemma records_ok_of_entries (entries : list (list byte)) :
  Forall (fun s => strlen s <= KEY_VALUE_LIMIT) entries ->
  forallb kv_record_ok (record_of <$> pair_up entries) = true.
Proof.
  intros H%pair_up_Forall. induction H as [|kv l [Hk Hv] _ IH]; [reflexivity|].
  cbn [fmap list_fmap forallb]. rewrite record_of_ok by assumption. exact IH.
Qed.

Lemma record_pairs_of_entries (entries : list (list byte)) :
  c_strings entries ->
  record_pair <$> (record_of <$> pair_up entries) = pair_up entries.
Proof.
  intros H%pair_up_Forall. induction H as [|kv l [Hk Hv] _ IH]; [reflexivity|].
  cbn [fmap list_fmap]. rewrite record_of_pair by assumption. f_equal. exact IH.
Qed.

(** Dispatching pairs whose keys are not identity keys appends them to the
    resources, as long as they fit. *)
Lemma dispatch_all_resources (pairs : list (list byte * list byte)) :
  forall (d : otel_process_ctx_data) (res0 : list (list byte)),
  resources d = Some res0 ->
  Forall (fun kv => is_identity_key kv.1 = false) pairs ->
  (length res0 + 2 * length pairs <= 200)%nat ->
  dispatch_all pairs d = Some (data_with_resources (Some (res0 ++ flatten_pairs pairs)) d).
Proof.
  induction pairs as [|[k v] pairs IH]; intros d res0 Hres Hkeys Hlen.
  - cbn. rewrite app_nil_r, <- Hres. destruct d; reflexivity.
  - apply Forall_cons in Hkeys as [Hk Hkeys]. cbn [fst] in Hk. cbn [length] in Hlen.
    cbn [dispatch_all flatten_pairs]. rewrite dispatch_resource by exact Hk.
    rewrite Hres. cbn [default from_option id]. unfold resource_capacity.
    destruct (Nat.leb_spec 201 (length res0 + 2)); [lia|].
    rewrite (IH _ (res0 ++ [k; v])); [|reflexivity|exact Hkeys|].
    + rewrite <- app_assoc. reflexivity.
    + rewrite length_app. cbn [length]. lia.
Qed.

Lemma attributes_bytes_bound (entries : list (list byte)) :
  Forall (fun s => strlen s <= KEY_VALUE_LIMIT) entries ->
  Z.of_nat (length (attributes_bytes entries)) <= 4102 * Z.of_nat (length entries).
Proof.
  induction entries as [|k|k v rest IH] using pairs_ind; intros H;
    cbn [attributes_bytes length]; try lia.
  apply Forall_cons in H as [Hk H]. apply Forall_cons in H as [Hv H].
  rewrite length_app, Nat2Z.inj_add, attribute_bytes_length.
  destruct (size_bounds _ _ Hk Hv) as (_ & _ & _ & B). specialize (IH H).
  unfold protobuf_record_size, protobuf_varint_size.
  destruct (128 <=? _); lia.
Qed.

(** ** Round trip *)

Lemma records_bytes_app (l1 l2 : list kv_record) :
  records_bytes (l1 ++ l2) = records_bytes l1 ++ records_bytes l2.
Proof. unfold records_bytes. rewrite fmap_app, concat_app. reflexivity. Qed.

(** C3, amended: for an attribute object whose seven identity fields are
    set, whose strings are at most 4096 bytes long, and whose resources are
    at most 100 pairs none of which is keyed by one of the seven identity
    keys, decoding the encoded bytes gives back the seven identity fields
    and the resource pairs in input order (as a resources array, also when
    the input had none). *)
Theorem decode_encode_roundtrip (data : otel_process_ctx_data) (kb vb : list byte) :
  well_formed data = true ->
  c_strings (data_strings data) ->
  Forall (fun s => strlen s <= KEY_VALUE_LIMIT) (data_strings data) ->
  (length (resource_entries data) <= 200)%nat ->
  Forall (fun kv => is_identity_key kv.1 = false) (pair_up (resource_entries data)) ->
  exists e,
    otel_process_ctx_encode_protobuf_payload true data = (succeeded, Some e)
    /\ otel_process_ctx_decode_payload (enc_bytes e) (Z.to_nat (enc_size e)) kb vb
       = Some (data_with_resources (Some (resource_entries data)) data).
Proof.
  intros Hwf Hc Hlim Hcount Hkeys.
  pose proof (within_limit_passes_validation data Hwf Hlim) as Hv.
  eexists. split; [apply encode_success, Hv|]. cbn [enc_bytes enc_size].
  pose proof (prepass_total_size_bytes data Hv) as Hsz.
  unfold well_formed in Hwf. apply andb_true_iff in Hwf as [Hreq Heven].
  unfold data_strings in *.
  apply Forall_app in Hlim as [Hlim1 Hlim2]. apply Forall_app in Hc as [Hc1 Hc2].
  destruct (well_formed_identity_entries data Hreq)
    as (v1 & v2 & v3 & v4 & v5 & v6 & v7 & Hids & Hdata).
  assert (Hsmall : uint32 (prepass_total_size data) = prepass_total_size data).
  { apply Z.mod_small. rewrite Hsz, length_app, Nat2Z.inj_add.
    pose proof (attributes_bytes_bound _ Hlim1) as B1.
    pose proof (attributes_bytes_bound _ Hlim2) as B2.
    rewrite Hids in B1 at 2. cbn [length] in B1. lia. }
  rewrite Hsmall, Hsz, Nat2Z.id.
  rewrite !attributes_bytes_records, <- records_bytes_app, <- fmap_app.
  rewrite decode_records
    by (rewrite fmap_app, forallb_app, !records_ok_of_entries by assumption; reflexivity).
  rewrite !fmap_app.
  rewrite !record_pairs_of_entries by assumption.
  rewrite dispatch_all_app.
  assert (Hid : dispatch_all (pair_up (identity_entries data)) initial_data_out
                = Some (data_with_resources (Some []) data)).
  { rewrite Hids. rewrite Hdata at 1. reflexivity. }
  rewrite Hid. cbn [mbind option_bind].
  rewrite (dispatch_all_resources _ (data_with_resources (Some []) data) []
             eq_refl Hkeys)
    by (pose proof (pair_up_length (resource_entries data)); cbn [length]; lia).
  cbn [mbind option_bind app]. rewrite flatten_pair_up by exact Heven.
  unfold require_identity.
  change (all_required_found (data_with_resources (Some (resource_entries data))
                                (data_with_resources (Some []) data)))
    with (all_required_found data).
  rewrite Hreq. reflexivity.
Qed.

Lemma decode_encode_roundtrip_witness :
  exists e,
    otel_process_ctx_encode_protobuf_payload true sample_data = (succeeded, Some e)
    /\ otel_process_ctx_decode_payload (enc_bytes e) (Z.to_nat (enc_size e)) [] []
       = Some (data_with_resources (Some (resource_entries sample_data)) sample_data).
Proof.
  apply (decode_encode_roundtrip sample_data [] []).
  - reflexivity.
  - apply (bool_decide_unpack _). vm_compute. reflexivity.
  - apply (bool_decide_unpack _). vm_compute. reflexivity.
  - vm_compute. lia.
  - apply (bool_decide_unpack _). vm_compute. reflexivity.
Defined.

(** C3 as stated fails: [shadowing_data] meets every condition of the claim
    (fields set, strings short, two resource pairs), yet decoding its
    encoding returns another service name and only one resource pair: the
    pair keyed "service.name" went to the identity field. *)
Lemma roundtrip_fails_on_shadowing_key :
  well_formed shadowing_data = true
  /\ Forall (fun s => strlen s <= KEY_VALUE_LIMIT) (data_strings shadowing_data)
  /\ (length (resource_entries shadowing_data) <= 200)%nat
  /\ exists e d,
       otel_process_ctx_encode_protobuf_payload true shadowing_data = (succeeded, Some e)
       /\ otel_process_ctx_decode_payload (enc_bytes e) (Z.to_nat (enc_size e)) [] []
          = Some d
       /\ service_name d = Some (bytes_of "other-service")
       /\ service_name shadowing_data = Some (bytes_of "my-service")
       /\ resources d = Some [bytes_of "resource.key1"; bytes_of "resource.value1"]
       /\ d <> shadowing_data.
Proof.
  split; [reflexivity|]. split; [repeat constructor; vm_compute; discriminate|].
  split; [vm_compute; lia|].
  eexists. eexists. split; [vm_compute; reflexivity|].
  split; [vm_compute; reflexivity|].
  repeat split. discriminate.
Qed.

(** ** Publisher: stores through the mapping *)

Lemma load_store_mapping (f : otel_process_ctx_mapping -> otel_process_ctx_mapping)
    (w : process) :
  load_mapping (store_mapping f w) = f <$> load_mapping w.
Proof.
  unfold load_mapping, store_mapping.
  destruct (mapping (published_state w)) as [| |r] eqn:Em; cbn [published_state set_regions];
    rewrite ?Em; try reflexivity.
  unfold set_regions. cbn [regions]. rewrite list_lookup_alter_eq.
  destruct (regions w !! r) as [[m|]|]; reflexivity.
Qed.

Lemma load_set_heap (h : list (option block)) (w : process) :
  load_mapping (set_heap h w) = load_mapping w.
Proof. reflexivity. Qed.

Section UpdateProtocol.
(** The locals of the update in progress and the header it started from. *)
Variable l : update_locals.
Variable m0 : otel_process_ctx_mapping.






End UpdateProtocol.


(** ** Publisher: update as a whole *)

Lemma heap_store_mapping (f : otel_process_ctx_mapping -> otel_process_ctx_mapping)
    (w : process) : heap (store_mapping f w) = heap w.
Proof. unfold store_mapping. destruct (mapping (published_state w)); reflexivity. Qed.

Lemma published_state_store_mapping
    (f : otel_process_ctx_mapping -> otel_process_ctx_mapping) (w : process) :
  published_state (store_mapping f w) = published_state w.
Proof. unfold store_mapping. destruct (mapping (published_state w)); reflexivity. Qed.

Lemma pid_store_mapping (f : otel_process_ctx_mapping -> otel_process_ctx_mapping)
    (w : process) : pid (store_mapping f w) = pid w.
Proof. unfold store_mapping. destruct (mapping (published_state w)); reflexivity. Qed.



Lemma run_update_process_at (l : update_locals) (w1 : process) :
  run_update l w1 = process_at UpdateDone l w1.
Proof. reflexivity. Qed.

(** C4: when the new payload cannot be encoded, update returns the
    encoder's failure and the process is left exactly as it was: the header
    (signature, version, timestamp, payload size, payload pointer), the
    singleton and the heap, old payload buffer included. *)
Theorem update_failure_keeps_context (env : syscalls) (published_at_ns : Z)
    (data : otel_process_ctx_data) (w : process) :
  ctx_is_published (published_state w) (pid w) = true ->
  success (otel_process_ctx_encode_protobuf_payload (calloc_ok env) data).1 = false ->
  let r := otel_process_ctx_update env published_at_ns (Some data) w in
  r.1 = (otel_process_ctx_encode_protobuf_payload (calloc_ok env) data).1
  /\ success r.1 = false
  /\ r.2 = w
  /\ load_mapping r.2 = load_mapping w
  /\ heap_lookup (payload (published_state w)) (heap r.2)
     = heap_lookup (payload (published_state w)) (heap w).
Proof.
  intros Hpub Hfail. pose proof (encode_failure_no_buffer _ _ Hfail) as Hnone.
  cbv zeta. unfold otel_process_ctx_update. rewrite Hpub. cbn [negb].
  destruct (otel_process_ctx_encode_protobuf_payload (calloc_ok env) data) as [r e].
  cbn [fst snd] in *. subst e. cbn [fst snd]. auto.
Qed.

Lemma update_failure_keeps_context_witness :
  let r := otel_process_ctx_update (good_env 2) 2000000000 (Some oversize_data)
             published_sample in
  success r.1 = false /\ r.2 = published_sample.
Proof.
  assert (H1 : ctx_is_published (published_state published_sample)
                 (pid published_sample) = true) by (vm_compute; reflexivity).
  assert (H2 : success (otel_process_ctx_encode_protobuf_payload
                          (calloc_ok (good_env 2)) oversize_data).1 = false)
    by (vm_compute; reflexivity).
  destruct (update_failure_keeps_context (good_env 2) 2000000000 oversize_data
              published_sample H1 H2) as (_ & Hs & Hw & _).
  split; [exact Hs|exact Hw].
Defined.

(** ** Publisher: drop *)

(** C8: on the all-zero singleton drop_current returns true and changes
    nothing, so a second call returns true as well; in every state it
    zeroes the singleton and frees the payload buffer of the snapshot, and
    it returns false exactly when the snapshot was published by this
    process and munmap failed. *)
Theorem drop_current_unconditional (env env' : syscalls) :
  (forall h rs p,
     let w0 := {| published_state := zero_state; heap := h; regions := rs; pid := p |} in
     otel_process_ctx_drop_current env w0 = (true, w0)
     /\ (otel_process_ctx_drop_current env'
           (otel_process_ctx_drop_current env w0).2).1 = true)
  /\ (forall w,
        let r := otel_process_ctx_drop_current env w in
        published_state r.2 = zero_state
        /\ heap r.2 = free (payload (published_state w)) (heap w)
        /\ (r.1 = false <->
            ctx_is_published (published_state w) (pid w) = true
            /\ munmap_ok env = false)).
Proof.
  split.
  - intros h rs p. cbv zeta.
    assert (H : forall e,
              otel_process_ctx_drop_current e
                {| published_state := zero_state; heap := h; regions := rs; pid := p |}
              = (true, {| published_state := zero_state; heap := h; regions := rs;
                          pid := p |})) by reflexivity.
    rewrite !H. split; reflexivity.
  - intros w. cbv zeta. unfold otel_process_ctx_drop_current.
    change (pid (set_published_state zero_state w)) with (pid w).
    destruct (ctx_is_published (published_state w) (pid w)) eqn:Ep.
    + unfold munmap. destruct (munmap_ok env) eqn:Em.
      * destruct (mapping (published_state w)); cbn;
          (split; [reflexivity|split; [reflexivity|split;
             [discriminate|intros [_ [=]]]]]).
      * cbn. split; [reflexivity|]. split; [reflexivity|]. split; auto.
    + cbn. split; [reflexivity|]. split; [reflexivity|].
      split; [discriminate|intros [[=] _]].
Qed.

(** ** Heap facts *)

Lemma heap_lookup_bound (p : nat) (h : list (option block)) (b : block) :
  heap_lookup p h = Some b -> (0 < p <= length h)%nat.
Proof.
  destruct p as [|i]; [discriminate|]. cbn [heap_lookup].
  destruct (h !! i) as [o|] eqn:E; [|discriminate]. intros _.
  apply lookup_lt_Some in E. lia.
Qed.

Lemma heap_lookup_alloc_old (p : nat) (h : list (option block)) (b x : block) :
  heap_lookup p h = Some x -> heap_lookup p (h ++ [Some b]) = Some x.
Proof.
  intros H. pose proof (heap_lookup_bound _ _ _ H) as Hb.
  destruct p as [|i]; [lia|]. cbn [heap_lookup] in *.
  rewrite lookup_app_l by lia. exact H.
Qed.

Lemma heap_lookup_alloc_new (h : list (option block)) (b : block) :
  heap_lookup (S (length h)) (h ++ [Some b]) = Some b.
Proof.
  cbn [heap_lookup]. rewrite lookup_app_r by lia. rewrite Nat.sub_diag. reflexivity.
Qed.

Lemma heap_lookup_free_other (p q : nat) (h : list (option block)) :
  p <> q -> heap_lookup p (free q h) = heap_lookup p h.
Proof.
  intros Hne. destruct p as [|i], q as [|j]; try reflexivity.
  cbn [heap_lookup free]. rewrite list_lookup_insert_ne by lia. reflexivity.
Qed.

Lemma heap_lookup_free (p : nat) (h : list (option block)) :
  heap_lookup p (free p h) = None.
Proof.
  destruct p as [|i]; [reflexivity|]. cbn [heap_lookup free].
  destruct (decide (i < length h)%nat) as [Hlt|Hge].
  - rewrite list_lookup_insert_eq by exact Hlt. reflexivity.
  - rewrite list_insert_ge by lia. rewrite lookup_ge_None_2 by lia. reflexivity.
Qed.

(** ** Publish on a published context *)

Lemma heap_process_at (pc : update_pc) (l : update_locals) (w1 : process) :
  heap (process_at pc l w1)
  = match pc with
    | UpdateBookkeeping | UpdateDone => free (payload (published_state w1)) (heap w1)
    | _ => heap w1
    end.
Proof.
  destruct pc; cbn [process_at set_published_state set_heap heap published_state];
    rewrite ?heap_store_mapping, ?published_state_store_mapping; reflexivity.
Qed.

Lemma load_process_at (pc : update_pc) (l : update_locals) (w1 : process) :
  load_mapping (process_at pc l w1) = header_at pc l <$> load_mapping w1.
Proof.
  assert (Hb : forall s w, load_mapping (set_published_state
                 {| publisher_pid := publisher_pid (published_state w);
                    mapping := mapping (published_state w); payload := s |} w)
               = load_mapping w) by reflexivity.
  destruct pc; cbn [process_at]; rewrite ?Hb, ?load_set_heap, ?load_store_mapping;
    destruct (load_mapping w1); reflexivity.
Qed.

Lemma publish_delegates (env : syscalls) (data : otel_process_ctx_data) (w : process) :
  ctx_is_published (published_state w) (pid w) = true ->
  time_now_ns env <> 0 ->
  otel_process_ctx_publish env (Some data) w
  = otel_process_ctx_update env (time_now_ns env) (Some data) w.
Proof.
  intros Hp Ht. unfold otel_process_ctx_publish.
  destruct (Z.eqb_spec (time_now_ns env) 0); [contradiction|]. rewrite Hp. reflexivity.
Qed.



Lemma published_sample_published : published sample_data published_sample.
Proof.
  split; [vm_compute; reflexivity|]. split.
  - eexists. split; [vm_compute; reflexivity|].
    split; [vm_compute; discriminate|].
    split; vm_compute; reflexivity.
  - eexists. split; vm_compute; reflexivity.
Qed.



(** ** Dropping a read result *)

Lemma heap_lookup_free_None (p q : nat) (h : list (option block)) :
  heap_lookup p h = None -> heap_lookup p (free q h) = None.
Proof.
  intros H. destruct (decide (p = q)) as [->|Hne]; [apply heap_lookup_free|].
  rewrite heap_lookup_free_other by exact Hne. exact H.
Qed.

Lemma heap_lookup_free_if_set (p : nat) (h : list (option block)) :
  heap_lookup p (free_if_set p h) = None.
Proof.
  unfold free_if_set. destruct (decide (p = NULL)) as [->|_];
    [reflexivity|apply heap_lookup_free].
Qed.

Lemma heap_lookup_free_if_set_None (p q : nat) (h : list (option block)) :
  heap_lookup p h = None -> heap_lookup p (free_if_set q h) = None.
Proof.
  intros H. unfold free_if_set. destruct (decide (q = NULL)); [exact H|].
  apply heap_lookup_free_None, H.
Qed.

Lemma heap_lookup_free_if_set_other (p q : nat) (h : list (option block)) :
  p <> q -> heap_lookup p (free_if_set q h) = heap_lookup p h.
Proof.
  intros H. unfold free_if_set. destruct (decide (q = NULL)); [reflexivity|].
  apply heap_lookup_free_other, H.
Qed.

Lemma heap_lookup_free_all_None (p : nat) (cells : list nat) (h : list (option block)) :
  heap_lookup p h = None ->
  heap_lookup p (foldl (fun h q => free q h) h cells) = None.
Proof.
  revert h. induction cells as [|q cells IH]; intros h H; [exact H|].
  cbn [foldl]. apply IH, heap_lookup_free_None, H.
Qed.

Lemma heap_lookup_free_all (p : nat) (cells : list nat) (h : list (option block)) :
  p ∈ cells -> heap_lookup p (foldl (fun h q => free q h) h cells) = None.
Proof.
  revert h. induction cells as [|q cells IH]; intros h Hin; [inversion Hin|].
  cbn [foldl]. apply elem_of_cons in Hin as [->|Hin].
  - apply heap_lookup_free_all_None, heap_lookup_free.
  - apply IH, Hin.
Qed.

Lemma heap_lookup_free_all_other (p : nat) (cells : list nat) (h : list (option block)) :
  p ∉ cells -> heap_lookup p (foldl (fun h q => free q h) h cells) = heap_lookup p h.
Proof.
  revert h. induction cells as [|q cells IH]; intros h Hin; [reflexivity|].
  apply not_elem_of_cons in Hin as [Hne Hin]. cbn [foldl].
  rewrite IH by exact Hin. apply heap_lookup_free_other, Hne.
Qed.

Lemma drop_identity_strings_frees (d : otel_process_ctx_data_ptrs)
    (h : list (option block)) (p : nat) :
  p ∈ [ deployment_environment_name d; service_instance_id d; service_name d;
        service_version d; telemetry_sdk_language d; telemetry_sdk_version d;
        telemetry_sdk_name d ] ->
  heap_lookup p (drop_identity_strings d h) = None.
Proof.
  unfold drop_identity_strings. rewrite !elem_of_cons, elem_of_nil.
  intros [->|[->|[->|[->|[->|[->|[->|[]]]]]]]];
    repeat first [ apply heap_lookup_free_if_set
                 | apply heap_lookup_free_if_set_None ].
Qed.

Lemma drop_identity_strings_other (d : otel_process_ctx_data_ptrs)
    (h : list (option block)) (p : nat) :
  p ∉ [ deployment_environment_name d; service_instance_id d; service_name d;
        service_version d; telemetry_sdk_language d; telemetry_sdk_version d;
        telemetry_sdk_name d ] ->
  heap_lookup p (drop_identity_strings d h) = heap_lookup p h.
Proof.
  unfold drop_identity_strings. rewrite !not_elem_of_cons.
  intros (H1 & H2 & H3 & H4 & H5 & H6 & H7 & _).
  rewrite !heap_lookup_free_if_set_other by assumption. reflexivity.
Qed.

Lemma read_data_drop_frees (d : otel_process_ctx_data_ptrs) (h : list (option block))
    (p : nat) :
  p ∈ owned_pointers d h -> heap_lookup p (otel_process_ctx_read_data_drop d h) = None.
Proof.
  unfold owned_pointers, otel_process_ctx_read_data_drop.
  intros [Hid|Hres]%elem_of_app.
  - pose proof (drop_identity_strings_frees d h p Hid) as Hnone.
    destruct (decide (resources d = NULL)); [exact Hnone|].
    apply heap_lookup_free_None, heap_lookup_free_all_None, Hnone.
  - destruct (decide (resources d = NULL)); [inversion Hres|].
    apply elem_of_app in Hres as [Hcell|Harr].
    + apply heap_lookup_free_None, heap_lookup_free_all, Hcell.
    + apply list_elem_of_singleton in Harr as ->. apply heap_lookup_free.
Qed.

Lemma read_data_drop_other (d : otel_process_ctx_data_ptrs) (h : list (option block))
    (p : nat) :
  p ∉ owned_pointers d h ->
  heap_lookup p (otel_process_ctx_read_data_drop d h) = heap_lookup p h.
Proof.
  unfold owned_pointers, otel_process_ctx_read_data_drop.
  intros [Hid Hres]%not_elem_of_app.
  destruct (decide (resources d = NULL)).
  - apply drop_identity_strings_other, Hid.
  - apply not_elem_of_app in Hres as [Hcell Harr].
    rewrite heap_lookup_free_other
      by (intros ->; apply Harr, list_elem_of_singleton; reflexivity).
    rewrite heap_lookup_free_all_other by exact Hcell.
    apply drop_identity_strings_other, Hid.
Qed.

(** C10: read_drop on a NULL pointer or on an unsuccessful result returns
    false and changes neither the result nor the heap; on a successful
    result it returns true, leaves the unsuccessful result "Data dropped"
    with empty data, and frees the seven strings, the strings of the
    resources array and the array, and nothing else. *)
Theorem read_drop_frees_result (r : otel_process_ctx_read_result)
    (h : list (option block)) :
  otel_process_ctx_read_drop None h = (false, None, h)
  /\ (read_success r = false ->
      otel_process_ctx_read_drop (Some r) h = (false, Some r, h))
  /\ (read_success r = true ->
      exists h',
        otel_process_ctx_read_drop (Some r) h = (true, Some dropped_result, h')
        /\ read_success dropped_result = false
        /\ read_error_message dropped_result = Some "Data dropped"
        /\ data dropped_result = empty_data_ptrs
        /\ (forall p, p ∈ owned_pointers (data r) h -> heap_lookup p h' = None)
        /\ (forall p, p ∉ owned_pointers (data r) h ->
                      heap_lookup p h' = heap_lookup p h)).
Proof.
  split; [reflexivity|]. unfold otel_process_ctx_read_drop. split.
  - intros ->. reflexivity.
  - intros ->. cbn [negb]. eexists. split; [reflexivity|].
    repeat (split; [reflexivity|]). split.
    + intros p. apply read_data_drop_frees.
    + intros p. apply read_data_drop_other.
Qed.

Lemma read_drop_frees_result_witness :
  exists h',
    otel_process_ctx_read_drop (Some sample_read_result) sample_heap
    = (true, Some dropped_result, h')
    /\ heap_lookup 3 h' = None
    /\ heap_lookup 9 h' = None
    /\ heap_lookup 8 h' = None
    /\ heap_lookup 11 h' = Some (Bytes (bytes_of "unrelated")).
Proof.
  destruct (proj2 (proj2 (read_drop_frees_result sample_read_result sample_heap))
              eq_refl) as (h' & Hr & _ & _ & _ & Hfree & Hkeep).
  exists h'. split; [exact Hr|].
  assert (Hin : forall p, bool_decide (p ∈ owned_pointers (data sample_read_result)
                                         sample_heap) = true ->
                          heap_lookup p h' = None)
    by (intros p Hp; apply Hfree, (bool_decide_unpack _), Is_true_true_2, Hp).
  split; [apply Hin; vm_compute; reflexivity|].
  split; [apply Hin; vm_compute; reflexivity|].
  split; [apply Hin; vm_compute; reflexivity|].
  rewrite Hkeep; [reflexivity|].
  apply (bool_decide_unpack _). vm_compute. reflexivity.
Defined.

(** * Further properties of the encoder *)

Lemma validate_pairs_success_within_limit (entries : list (list byte)) (acc : Z) :
  Nat.even (length entries) = true ->
  success (validate_pairs entries acc).1 = true ->
  Forall (fun s => strlen s <= KEY_VALUE_LIMIT) entries.
Proof.
  intros Heven Hok. apply Forall_forall. intros s Hin.
  destruct (Z_lt_dec KEY_VALUE_LIMIT (strlen s)) as [Hlt|]; [|lia].
  exfalso.
  assert (Hex : Exists (fun s => KEY_VALUE_LIMIT < strlen s) entries)
    by (apply Exists_exists; eauto).
  destruct (validate_pairs_over_limit entries acc Heven Hex) as [Hf _]. congruence.
Qed.

Lemma validation_success_inv (entries : list (list byte)) :
  success (validate_and_calculate_protobuf_payload_size entries).1 = true ->
  Nat.even (length entries) = true
  /\ Forall (fun s => strlen s <= KEY_VALUE_LIMIT) entries.
Proof.
  unfold validate_and_calculate_protobuf_payload_size.
  destruct (Nat.odd (length entries)) eqn:Hodd; [discriminate|].
  assert (Heven : Nat.even (length entries) = true)
    by (rewrite <- Nat.negb_odd, Hodd; reflexivity).
  intros Hok. split; [exact Heven|].
  apply (validate_pairs_success_within_limit entries 0 Heven Hok).
Qed.

Lemma passes_validation_iff (data : otel_process_ctx_data) :
  passes_validation data = true <->
  well_formed data = true
  /\ Forall (fun s => strlen s <= KEY_VALUE_LIMIT) (data_strings data).
Proof.
  split; [|intros [Hwf Hall]; apply within_limit_passes_validation; assumption].
  intros Hv. pose proof (passes_validation_required data Hv) as Hreq.
  unfold passes_validation in Hv. apply andb_true_iff in Hv as [H1 H2].
  apply validation_success_inv in H1 as [_ Hid].
  unfold well_formed, data_strings, resource_entries. rewrite Hreq.
  destruct (resources data) as [res|]; cbn [default from_option id andb].
  - apply validation_success_inv in H2 as [Heven Hres].
    split; [exact Heven|]. apply Forall_app. auto.
  - split; [reflexivity|]. rewrite app_nil_r. exact Hid.
Qed.

(** X1: the encoder succeeds, and hands out a buffer, exactly on the
    attribute objects whose seven fields are set, whose resources come in
    whole pairs and whose keys and values are all at most 4096 bytes long,
    provided its one allocation succeeds; in every other case it fails and
    hands out no buffer. *)
Theorem encode_succeeds_iff (calloc_ok : bool) (data : otel_process_ctx_data) :
  let r := otel_process_ctx_encode_protobuf_payload calloc_ok data in
  (success r.1 = true <->
   calloc_ok = true /\ well_formed data = true
   /\ Forall (fun s => strlen s <= KEY_VALUE_LIMIT) (data_strings data))
  /\ is_set r.2 = success r.1.
Proof.
  cbv zeta.
  destruct (passes_validation data) eqn:Hv.
  - destruct calloc_ok.
    + rewrite encode_success by exact Hv. cbn [fst snd success succeeded is_set].
      split; [|reflexivity]. split; [|reflexivity].
      intros _. split; [reflexivity|]. apply passes_validation_iff, Hv.
    + rewrite encode_fails_calloc by exact Hv. cbn [fst snd success failure is_set].
      split; [|reflexivity]. split; [discriminate|]. intros [[=] _].
  - destruct (encode_validation_failure calloc_ok data Hv) as [Hs Hn].
    rewrite Hs, Hn. split; [|reflexivity]. split; [discriminate|].
    intros (_ & Hwf & Hall).
    rewrite (proj2 (passes_validation_iff data) (conj Hwf Hall)) in Hv. discriminate.
Qed.

(** X2: a NULL identity field is always answered with the error of line 303,
    whatever the other fields and the resources hold (strings above the
    limit included) and before any allocation is attempted. *)
Theorem encode_null_field_error (calloc_ok : bool) (data : otel_process_ctx_data) :
  all_required_found data = false ->
  otel_process_ctx_encode_protobuf_payload calloc_ok data
  = (failure "Value in otel_process_ctx_data is NULL" "303", None).
Proof.
  intros Hreq. rewrite encode_fails_identity.
  - revert Hreq. unfold validate_and_calculate_protobuf_payload_size, identity_entries.
    destruct data as [[v1|] [v2|] [v3|] [v4|] [v5|] [v6|] [v7|] res];
      cbn [identity_cells non_null_prefix length Nat.odd negb fst
           deployment_environment_name service_instance_id service_name
           service_version telemetry_sdk_language telemetry_sdk_version
           telemetry_sdk_name];
      (discriminate || reflexivity).
  - revert Hreq. unfold validate_and_calculate_protobuf_payload_size, identity_entries.
    destruct data as [[v1|] [v2|] [v3|] [v4|] [v5|] [v6|] [v7|] res];
      cbn [identity_cells non_null_prefix length Nat.odd negb fst
           deployment_environment_name service_instance_id service_name
           service_version telemetry_sdk_language telemetry_sdk_version
           telemetry_sdk_name];
      (discriminate || reflexivity).
Qed.

Lemma encode_null_field_error_witness :
  all_required_found null_field_data = false
  /\ otel_process_ctx_encode_protobuf_payload false null_field_data
     = (failure "Value in otel_process_ctx_data is NULL" "303", None).
Proof.
  split; [reflexivity|]. apply (encode_null_field_error false null_field_data).
  reflexivity.
Defined.

Lemma identity_bytes_nonempty (data : otel_process_ctx_data) :
  all_required_found data = true ->
  (0 < length (attributes_bytes (identity_entries data)))%nat.
Proof.
  intros H. destruct (well_formed_identity_entries data H)
    as (v1 & v2 & v3 & v4 & v5 & v6 & v7 & -> & _).
  cbn [attributes_bytes]. unfold attribute_bytes at 1. cbn [app length]. lia.
Qed.

Lemma identity_entries_length (data : otel_process_ctx_data) :
  (length (identity_entries data) <= 14)%nat.
Proof.
  unfold identity_entries.
  destruct data as [[v1|] [v2|] [v3|] [v4|] [v5|] [v6|] [v7|] res];
    cbn [identity_cells non_null_prefix length
         deployment_environment_name service_instance_id service_name
         service_version telemetry_sdk_language telemetry_sdk_version
         telemetry_sdk_name]; lia.
Qed.

(** X3: the payload size handed out with the buffer, a [uint32_t], is the
    length of the buffer, and is not zero, for every attribute object with
    at most 500000 resource pairs: the conversion of [total_size] to 32 bits
    loses nothing there. *)
Theorem encoded_size_is_buffer_length (calloc_ok : bool) (data : otel_process_ctx_data)
    (r : otel_process_ctx_result) (e : encoded) :
  otel_process_ctx_encode_protobuf_payload calloc_ok data = (r, Some e) ->
  Z.of_nat (length (resource_entries data)) <= 1000000 ->
  enc_size e = Z.of_nat (length (enc_bytes e)) /\ 0 < enc_size e.
Proof.
  intros He Hn. destruct (encode_Some _ _ _ _ He) as [-> Hv].
  rewrite encode_success in He by exact Hv.
  apply (f_equal snd) in He. cbv beta iota delta [snd] in He.
  apply (inj Some) in He. subst e. cbv beta iota delta [enc_size enc_bytes].
  pose proof (prepass_total_size_bytes data Hv) as Hsz.
  apply passes_validation_iff in Hv as [Hwf Hall].
  unfold well_formed in Hwf. apply andb_true_iff in Hwf as [Hreq _].
  unfold data_strings in Hall. apply Forall_app in Hall as [Hid Hres].
  pose proof (attributes_bytes_bound _ Hid) as B1.
  pose proof (attributes_bytes_bound _ Hres) as B2.
  pose proof (identity_entries_length data) as B3.
  pose proof (identity_bytes_nonempty data Hreq) as B4.
  rewrite length_app, Nat2Z.inj_add in *.
  unfold uint32. rewrite Hsz, Z.mod_small by lia. lia.
Qed.

Lemma encoded_size_is_buffer_length_witness :
  exists e,
    otel_process_ctx_encode_protobuf_payload true sample_data = (succeeded, Some e)
    /\ enc_size e = Z.of_nat (length (enc_bytes e)) /\ 0 < enc_size e.
Proof.
  eexists. split; [reflexivity|].
  apply (encoded_size_is_buffer_length true sample_data succeeded);
    [reflexivity|vm_compute; discriminate].
Defined.

Lemma write_protobuf_varint_uint16 (value : Z) (st : wstate) :
  write_protobuf_varint (uint16 value) st = write_protobuf_varint value st.
Proof.
  unfold write_protobuf_varint, uint16. rewrite Z.mod_mod by lia. reflexivity.
Qed.

(** X4: the varint writer and reader are inverse of each other exactly on
    the values up to 16383: what [write_protobuf_varint] stores for a larger
    [uint16_t] is never read back as that value (it is refused, or read as
    the value modulo 32768). *)
Theorem varint_roundtrip_iff (value : Z) :
  let st := write_protobuf_varint value scratch in
  read_protobuf_varint (buf st) 0 (ptr st) = Some (ptr st, uint16 value)
  <-> uint16 value <= UINT14_MAX.
Proof.
  cbv zeta. rewrite <- write_protobuf_varint_uint16.
  pose proof (Z.mod_pos_bound value 65536 ltac:(lia)) as Hv. fold (uint16 value) in Hv.
  generalize dependent (uint16 value). intros v Hv. split.
  - intros Hr. destruct (Z_le_gt_dec v UINT14_MAX) as [|Hgt]; [assumption|exfalso].
    unfold UINT14_MAX in Hgt. revert Hr.
    assert (Hb : varint_bytes v
                 = [to_char (Z.lor (Z.land v 0x7F) 0x80); to_char (Z.shiftr v 7)]).
    { unfold varint_bytes, protobuf_varint_size. rewrite (uint16_small v) by lia.
      destruct (Z.leb_spec 128 v); [reflexivity|lia]. }
    rewrite (emits_write_protobuf_varint v scratch) by (rewrite Hb; simpl; lia).
    unfold put, scratch. rewrite Hb. cbn [buf ptr take drop app Nat.add length].
    unfold read_protobuf_varint, peek. cbn [Nat.leb nth].
    rewrite !byte_to_Z_to_char.
    rewrite land_7F, shiftr_7, lor_0x80 by (apply Z.mod_pos_bound; lia).
    destruct (Z.ltb_spec ((v mod 128 + 128) mod 256) 128) as [Hlt|_].
    { pose proof (Z.mod_pos_bound v 128). rewrite Z.mod_small in Hlt; lia. }
    rewrite varint_value_2 by (apply Z.mod_pos_bound; lia).
    destruct (_ <=? UINT14_MAX) eqn:E; [|discriminate].
    apply Z.leb_le in E. unfold UINT14_MAX in E. intros [= Heq].
    revert E Heq. Z.to_euclidean_division_equations. lia.
  - intros Hle. apply (varint_write_read v). lia.
Qed.

(** * Further properties of the decoder *)

(** ** The decoder reads the payload and nothing else *)

Lemma peek_take (n : nat) (mem : list byte) (p : nat) :
  (p < n)%nat -> peek (take n mem) p = peek mem p.
Proof.
  intros Hp. unfold peek. rewrite !nth_lookup, lookup_take_lt by exact Hp. reflexivity.
Qed.

Lemma read_protobuf_tag_take (n : nat) (mem : list byte) (p e : nat) :
  (e <= n)%nat -> read_protobuf_tag (take n mem) p e = read_protobuf_tag mem p e.
Proof.
  intros He. unfold read_protobuf_tag. destruct (Nat.leb_spec e p); [reflexivity|].
  rewrite peek_take by lia. reflexivity.
Qed.

Lemma read_protobuf_varint_take (n : nat) (mem : list byte) (p e : nat) :
  (e <= n)%nat -> read_protobuf_varint (take n mem) p e = read_protobuf_varint mem p e.
Proof.
  intros He. unfold read_protobuf_varint. destruct (Nat.leb_spec e p); [reflexivity|].
  rewrite peek_take by lia. destruct (_ <? 128); [reflexivity|].
  destruct (Nat.leb_spec e (S p)); [reflexivity|].
  rewrite peek_take by lia. reflexivity.
Qed.

Lemma read_protobuf_string_take (n : nat) (mem : list byte) (p e : nat) :
  (e <= n)%nat -> read_protobuf_string (take n mem) p e = read_protobuf_string mem p e.
Proof.
  intros He. unfold read_protobuf_string. rewrite read_protobuf_varint_take by exact He.
  destruct (read_protobuf_varint mem p e) as [[q v]|]; [|reflexivity].
  destruct (_ <=? v); [reflexivity|]. cbn [orb].
  destruct (Nat.ltb_spec e (q + Z.to_nat v)); [reflexivity|].
  do 2 f_equal. rewrite !take_drop_commute, take_take. f_equal. f_equal. lia.
Qed.

Lemma parse_keyvalue_similar (fuel : nat) :
  forall (n : nat) (mem : list byte) (kv_end : nat) (s s' : kv_state),
  (kv_end <= n)%nat -> kv_similar s s' ->
  parse_similar kv_similar (parse_keyvalue fuel (take n mem) kv_end s)
                           (parse_keyvalue fuel mem kv_end s').
Proof.
  induction fuel as [|fuel IH]; intros n mem kv_end s s' He Hs;
    pose proof Hs as (Hp & Hk & Hv & Hkb & Hvb);
    cbn [parse_keyvalue]; rewrite <- Hp;
    destruct (Nat.leb_spec kv_end (kv_ptr s)); try exact Hs; try exact I.
  rewrite read_protobuf_tag_take by exact He.
  destruct (read_protobuf_tag mem (kv_ptr s) kv_end) as [[p1 f1]|]; [|exact I].
  destruct (f1 =? 1).
  - rewrite read_protobuf_string_take by exact He.
    destruct (read_protobuf_string mem p1 kv_end) as [[p2 raw]|]; [|exact I].
    apply IH; [exact He|]. repeat split; cbn; auto.
  - destruct (f1 =? 2).
    + rewrite read_protobuf_varint_take by exact He.
      destruct (read_protobuf_varint mem p1 kv_end) as [[p2 v]|]; [|exact I].
      rewrite read_protobuf_tag_take by exact He.
      destruct (read_protobuf_tag mem p2 kv_end) as [[p3 f3]|]; [|exact I].
      destruct (f3 =? 1).
      * rewrite read_protobuf_string_take by exact He.
        destruct (read_protobuf_string mem p3 kv_end) as [[p4 raw]|]; [|exact I].
        apply IH; [exact He|]. repeat split; cbn; auto.
      * apply IH; [exact He|]. repeat split; cbn; auto.
    + apply IH; [exact He|]. repeat split; cbn; auto.
Qed.

Lemma parse_attributes_similar (fuel : nat) :
  forall (n : nat) (mem : list byte) (end_ptr : nat) (s s' : decoder),
  (end_ptr <= n)%nat -> decoder_similar s s' ->
  parse_similar decoder_similar (parse_attributes fuel (take n mem) end_ptr s)
                                (parse_attributes fuel mem end_ptr s').
Proof.
  induction fuel as [|fuel IH]; intros n mem end_ptr s s' He Hs;
    pose proof Hs as (Hp & Hd);
    cbn [parse_attributes]; rewrite <- Hp;
    destruct (Nat.leb_spec end_ptr (dec_ptr s)); try exact Hs; try exact I.
  rewrite read_protobuf_tag_take by exact He.
  destruct (read_protobuf_tag mem (dec_ptr s) end_ptr) as [[p1 f1]|]; [|exact I].
  destruct (negb (f1 =? 1)); [exact I|].
  rewrite read_protobuf_varint_take by exact He.
  destruct (read_protobuf_varint mem p1 end_ptr) as [[p2 v]|]; [|exact I].
  destruct (Nat.ltb_spec end_ptr (p2 + Z.to_nat v)); [exact I|].
  match goal with
  | |- context [parse_keyvalue ?f (take n mem) ?e ?s0] =>
      match goal with
      | |- context [parse_keyvalue f mem e ?s1] =>
          pose proof (parse_keyvalue_similar f n mem e s0 s1 ltac:(lia)
                        ltac:(repeat split; cbn; (reflexivity || discriminate))) as Hkv;
          destruct (parse_keyvalue f (take n mem) e s0) as [kv| |];
          destruct (parse_keyvalue f mem e s1) as [kv'| |]
      end
  end; try contradiction; try exact I.
  destruct Hkv as (Hq & Hk & Hv & Hkb & Hvb). rewrite <- Hk, <- Hv.
  destruct (key_found kv); [|exact I]. destruct (value_found kv); [|exact I].
  cbn [negb orb]. rewrite <- Hkb, <- Hvb, <- Hd by reflexivity.
  destruct (dispatch _ _ _); [|exact I].
  apply IH; [exact He|]. split; [exact Hq|reflexivity].
Qed.

Lemma decode_take (mem : list byte) (n : nat) (kb vb kb' vb' : list byte) :
  otel_process_ctx_decode_payload (take n mem) n kb vb
  = otel_process_ctx_decode_payload mem n kb' vb'.
Proof.
  unfold otel_process_ctx_decode_payload.
  match goal with
  | |- context [parse_attributes n (take n mem) n ?s0] =>
      match goal with
      | |- context [parse_attributes n mem n ?s1] =>
          pose proof (parse_attributes_similar n n mem n s0 s1 (Nat.le_refl n)
                        ltac:(split; reflexivity)) as H;
          destruct (parse_attributes n (take n mem) n s0) as [s| |];
          destruct (parse_attributes n mem n s1) as [s'| |]
      end
  end; try contradiction; try reflexivity.
  destruct H as [_ ->]. reflexivity.
Qed.

(** X5: the outcome of the decoder is a function of the first
    [payload_size] bytes of the payload: it reads no byte at or after
    [payload + payload_size] (a terminating NUL or anything else that
    follows the payload plays no part), and what the two scratch buffers
    hold on entry plays no part either. *)
Theorem decode_reads_only_payload (mem mem' : list byte) (payload_size : nat)
    (kb vb kb' vb' : list byte) :
  take payload_size mem = take payload_size mem' ->
  otel_process_ctx_decode_payload mem payload_size kb vb
  = otel_process_ctx_decode_payload mem' payload_size kb' vb'.
Proof.
  intros H. rewrite <- (decode_take mem payload_size kb vb kb vb).
  rewrite <- (decode_take mem' payload_size kb vb kb' vb'), H. reflexivity.
Qed.

Lemma decode_reads_only_payload_witness :
  otel_process_ctx_decode_payload (sample_payload ++ [x00]) (length sample_payload) [] []
  = otel_process_ctx_decode_payload (sample_payload ++ bytes_of "junk")
      (length sample_payload) (bytes_of "key") (bytes_of "value").
Proof.
  apply (decode_reads_only_payload (sample_payload ++ [x00])).
  rewrite !take_app_length. reflexivity.
Defined.

(** ** What a decoded attribute object holds *)

Lemma last_value_of_app (key : list byte) (l1 l2 : list (list byte * list byte)) :
  last_value_of key (l1 ++ l2)
  = match last_value_of key l2 with
    | Some v => Some v
    | None => last_value_of key l1
    end.
Proof.
  unfold last_value_of. rewrite foldl_app. generalize (foldl
    (fun acc kv => if decide (kv.1 = key) then Some kv.2 else acc) None l1) as a.
  induction l2 as [|[k v] l2 IH] using rev_ind; intros a.
  - reflexivity.
  - rewrite !foldl_app. cbn [foldl fst snd].
    destruct (decide (k = key)); [reflexivity|]. apply IH.
Qed.

Lemma last_value_of_cons (key k v : list byte) (l : list (list byte * list byte)) :
  last_value_of key ((k, v) :: l)
  = match last_value_of key l with
    | Some v' => Some v'
    | None => if decide (k = key) then Some v else None
    end.
Proof. apply (last_value_of_app key [(k, v)] l). Qed.

Lemma last_value_of_elem (key v : list byte) (l : list (list byte * list byte)) :
  last_value_of key l = Some v -> (key, v) ∈ l.
Proof.
  induction l as [|[k v'] l IH]; [discriminate|].
  rewrite last_value_of_cons.
  destruct (last_value_of key l) as [v1|].
  - intros [= ->]. right. apply IH. reflexivity.
  - destruct (decide (k = key)) as [->|]; [|discriminate]. intros [= ->]. left.
Qed.

(** The identity fields after all dispatches: the last pair with the key
    decides. *)
Lemma dispatch_all_get_field (pairs : list (list byte * list byte)) :
  forall (d d' : otel_process_ctx_data) (k : list byte),
  dispatch_all pairs d = Some d' -> k ∈ identity_keys ->
  get_field k d' = match last_value_of k pairs with
                   | Some v => Some v
                   | None => get_field k d
                   end.
Proof.
  induction pairs as [|[key v] pairs IH]; intros d d' k H Hk.
  - injection H as <-. reflexivity.
  - cbn [dispatch_all] in H. destruct (dispatch key v d) as [d1|] eqn:E1; [|discriminate].
    rewrite (IH d1 d' k H Hk), last_value_of_cons.
    destruct (last_value_of k pairs); [reflexivity|].
    destruct (is_identity_key key) eqn:Ekey.
    + destruct (dispatch_identity key v d Ekey) as (d2 & Hd2 & _ & Hf).
      rewrite Hd2 in E1. injection E1 as <-. rewrite Hf.
      destruct (decide (k = key)) as [->|Hne].
      * rewrite decide_True by reflexivity. reflexivity.
      * rewrite decide_False by congruence. reflexivity.
    + rewrite dispatch_resource in E1 by exact Ekey.
      destruct (_ <=? _)%nat; [discriminate|]. injection E1 as <-.
      rewrite get_field_resource by exact key.
      rewrite decide_False; [reflexivity|]. intros ->.
      unfold is_identity_key in Ekey. apply bool_decide_eq_false in Ekey. contradiction.
Qed.

(** The resources after all dispatches: the pairs with another key, in
    order. *)
Lemma dispatch_all_get_resources (pairs : list (list byte * list byte)) :
  forall (d d' : otel_process_ctx_data) (res0 : list (list byte)),
  dispatch_all pairs d = Some d' -> resources d = Some res0 ->
  resources d' = Some (res0 ++ flatten_pairs (resource_pairs pairs)).
Proof.
  induction pairs as [|[key v] pairs IH]; intros d d' res0 H Hres.
  - injection H as <-. cbn. rewrite app_nil_r. exact Hres.
  - cbn [dispatch_all] in H. destruct (dispatch key v d) as [d1|] eqn:E1; [|discriminate].
    unfold resource_pairs. rewrite filter_cons. cbn [fst].
    destruct (is_identity_key key) eqn:Ekey.
    + destruct (dispatch_identity key v d Ekey) as (d2 & Hd2 & Hr & _).
      rewrite Hd2 in E1. injection E1 as <-. rewrite decide_False by discriminate.
      apply (IH d2 d' res0 H). rewrite Hr. exact Hres.
    + rewrite dispatch_resource in E1 by exact Ekey.
      destruct (_ <=? _)%nat; [discriminate|]. injection E1 as <-.
      rewrite decide_True by reflexivity. cbn [flatten_pairs].
      rewrite (IH _ d' (res0 ++ [key; v]) H).
      * rewrite <- app_assoc. reflexivity.
      * rewrite Hres. reflexivity.
Qed.

Lemma get_field_initial (k : list byte) : get_field k initial_data_out = None.
Proof. unfold get_field. repeat destruct (decide _); reflexivity. Qed.

Lemma flatten_pairs_length (pairs : list (list byte * list byte)) :
  length (flatten_pairs pairs) = (2 * length pairs)%nat.
Proof. induction pairs as [|[k v] l IH]; cbn [flatten_pairs length]; lia. Qed.

Lemma pair_up_flatten (pairs : list (list byte * list byte)) :
  pair_up (flatten_pairs pairs) = pairs.
Proof. induction pairs as [|[k v] l IH]; cbn [flatten_pairs pair_up]; congruence. Qed.

Lemma flatten_pairs_even (pairs : list (list byte * list byte)) :
  Nat.even (length (flatten_pairs pairs)) = true.
Proof.
  rewrite flatten_pairs_length. apply Nat.even_spec. exists (length pairs). lia.
Qed.

Lemma flatten_pairs_Forall (P : list byte -> Prop) (pairs : list (list byte * list byte)) :
  Forall (fun kv => P kv.1 /\ P kv.2) pairs -> Forall P (flatten_pairs pairs).
Proof.
  induction 1 as [|[k v] l [Hk Hv] _ IH]; cbn [flatten_pairs]; repeat constructor; auto.
Qed.

Lemma cstr_length (raw : list byte) : (length (cstr raw) <= length raw)%nat.
Proof.
  induction raw as [|c raw IH]; cbn [cstr length]; [lia|].
  destruct (decide (c = x00)); cbn [length]; lia.
Qed.

Lemma cstr_not_elem (raw : list byte) : x00 ∉ cstr raw.
Proof.
  induction raw as [|c raw IH]; cbn [cstr]; [apply not_elem_of_nil|].
  destruct (decide (c = x00)); [apply not_elem_of_nil|].
  apply not_elem_of_cons. auto.
Qed.

Lemma last_key_bound (items : list kv_item) :
  forall (acc : option (list byte)) (raw : list byte),
  forallb kv_item_ok items = true ->
  last_key items acc = Some raw ->
  acc = Some raw \/ strlen raw <= KEY_VALUE_LIMIT.
Proof.
  induction items as [|i items IH]; intros acc raw Hok H; [left; exact H|].
  cbn [forallb] in Hok. apply andb_true_iff in Hok as [Hi Hok].
  destruct i; cbn [last_key] in H; try (apply (IH _ _ Hok H)).
  destruct (IH _ _ Hok H) as [[= ->]|]; [|auto]. right.
  cbn [kv_item_ok] in Hi. apply andb_true_iff in Hi as [_ Hs].
  unfold string_ok in Hs. apply andb_true_iff in Hs as [_ Hs]. apply Z.leb_le, Hs.
Qed.

Lemma last_value_bound (items : list kv_item) :
  forall (acc : option (list byte)) (raw : list byte),
  forallb kv_item_ok items = true ->
  last_value items acc = Some raw ->
  acc = Some raw \/ strlen raw <= KEY_VALUE_LIMIT.
Proof.
  induction items as [|i items IH]; intros acc raw Hok H; [left; exact H|].
  cbn [forallb] in Hok. apply andb_true_iff in Hok as [Hi Hok].
  destruct i; cbn [last_value] in H; try (apply (IH _ _ Hok H)).
  destruct (IH _ _ Hok H) as [[= ->]|]; [|auto]. right.
  cbn [kv_item_ok] in Hi. apply andb_true_iff in Hi as [_ Hs].
  unfold string_ok in Hs. apply andb_true_iff in Hs as [_ Hs]. apply Z.leb_le, Hs.
Qed.

(** A string the decoder hands out: at most 4096 bytes, no NUL inside. *)
Lemma record_pair_bounded (r : kv_record) :
  kv_record_ok r = true ->
  (strlen (record_pair r).1 <= KEY_VALUE_LIMIT /\ x00 ∉ (record_pair r).1)
  /\ (strlen (record_pair r).2 <= KEY_VALUE_LIMIT /\ x00 ∉ (record_pair r).2).
Proof.
  unfold kv_record_ok. intros Hr.
  apply andb_true_iff in Hr as [Hr Hval]. apply andb_true_iff in Hr as [Hr Hkey].
  apply andb_true_iff in Hr as [_ Hitems].
  unfold record_pair. cbn [fst snd].
  destruct (last_key (rec_items r) None) as [kraw|] eqn:Ek; [|discriminate].
  destruct (last_value (rec_items r) None) as [vraw|] eqn:Ev; [|discriminate].
  destruct (last_key_bound _ _ _ Hitems Ek) as [[=]|Bk].
  destruct (last_value_bound _ _ _ Hitems Ev) as [[=]|Bv].
  cbn [default from_option id]. unfold strlen in *.
  pose proof (cstr_length kraw). pose proof (cstr_length vraw).
  repeat split; try lia; apply cstr_not_elem.
Qed.

Lemma resource_pairs_length (pairs : list (list byte * list byte)) :
  (length (resource_pairs pairs) <= length pairs)%nat.
Proof. apply length_filter. Qed.

Lemma decode_inv_records (payload : list byte) (n : nat) (kb vb : list byte)
    (d : otel_process_ctx_data) :
  (n <= length payload)%nat ->
  otel_process_ctx_decode_payload payload n kb vb = Some d ->
  exists recs,
    take n payload = records_bytes recs
    /\ forallb kv_record_ok recs = true
    /\ (length (resource_pairs (record_pair <$> recs)) <= 100)%nat
    /\ dispatch_all (record_pair <$> recs) initial_data_out = Some d
    /\ all_required_found d = true.
Proof.
  intros Hn Hd. rewrite <- (decode_take payload n kb vb kb vb) in Hd.
  assert (Hlen : length (take n payload) = n) by (rewrite length_take; lia).
  rewrite <- Hlen in Hd at 2.
  pose proof Hd as Hd0.
  apply decode_Some_iff in Hd as (recs & H1 & H2 & H3 & _ & H5).
  exists recs. repeat split; try assumption.
  rewrite H1, (decode_records recs kb vb H2), H5 in Hd0. cbn in Hd0.
  unfold require_identity in Hd0. destruct (all_required_found d); [reflexivity|].
  discriminate.
Qed.

Lemma decoded_object_bounds (payload : list byte) (payload_size : nat)
    (kb vb : list byte) (d : otel_process_ctx_data) :
  (payload_size <= length payload)%nat ->
  otel_process_ctx_decode_payload payload payload_size kb vb = Some d ->
  well_formed d = true
  /\ Forall (fun s => strlen s <= KEY_VALUE_LIMIT /\ x00 ∉ s) (data_strings d)
  /\ (exists res, resources d = Some res /\ (length res <= 200)%nat)
  /\ Forall (fun kv => is_identity_key kv.1 = false) (pair_up (resource_entries d)).
Proof.
  intros Hn Hd.
  destruct (decode_inv_records _ _ _ _ _ Hn Hd) as (recs & _ & Hok & Hcount & Hdis & Hreq).
  set (pairs := record_pair <$> recs) in *.
  assert (Hpairs : Forall (fun kv => (strlen kv.1 <= KEY_VALUE_LIMIT /\ x00 ∉ kv.1)
                                     /\ (strlen kv.2 <= KEY_VALUE_LIMIT /\ x00 ∉ kv.2))
                          pairs).
  { subst pairs. apply Forall_fmap, Forall_forall. intros r Hr.
    apply record_pair_bounded.
    rewrite forallb_forall in Hok. apply Hok, list_elem_of_In, Hr. }
  pose proof (dispatch_all_get_resources pairs _ _ [] Hdis eq_refl) as Hres.
  cbn [app] in Hres.
  assert (Hfield : forall k v, k ∈ identity_keys -> get_field k d = Some v ->
                     strlen v <= KEY_VALUE_LIMIT /\ x00 ∉ v).
  { intros k v Hk Hv. rewrite (dispatch_all_get_field pairs _ _ k Hdis Hk) in Hv.
    rewrite get_field_initial in Hv.
    destruct (last_value_of k pairs) as [v'|] eqn:El; [|discriminate].
    injection Hv as ->. apply last_value_of_elem in El.
    rewrite Forall_forall in Hpairs. apply (Hpairs _ El). }
  unfold well_formed, data_strings, resource_entries. rewrite Hres, Hreq.
  cbn [default from_option id andb].
  split; [apply flatten_pairs_even|]. split; [|split].
  - apply Forall_app. split.
    + destruct (well_formed_identity_entries d Hreq)
        as (v1 & v2 & v3 & v4 & v5 & v6 & v7 & -> & Hdata).
      rewrite Hdata in Hfield.
      repeat (apply Forall_cons; split);
        try (split; [vm_compute; discriminate
                    |apply (bool_decide_unpack _); vm_compute; reflexivity]);
        try (apply Forall_nil; exact I).
      * apply (Hfield (bytes_of "deployment.environment.name"));
          [apply (bool_decide_unpack _); reflexivity|reflexivity].
      * apply (Hfield (bytes_of "service.instance.id"));
          [apply (bool_decide_unpack _); reflexivity|reflexivity].
      * apply (Hfield (bytes_of "service.name"));
          [apply (bool_decide_unpack _); reflexivity|reflexivity].
      * apply (Hfield (bytes_of "service.version"));
          [apply (bool_decide_unpack _); reflexivity|reflexivity].
      * apply (Hfield (bytes_of "telemetry.sdk.language"));
          [apply (bool_decide_unpack _); reflexivity|reflexivity].
      * apply (Hfield (bytes_of "telemetry.sdk.version"));
          [apply (bool_decide_unpack _); reflexivity|reflexivity].
      * apply (Hfield (bytes_of "telemetry.sdk.name"));
          [apply (bool_decide_unpack _); reflexivity|reflexivity].
    + apply flatten_pairs_Forall. unfold resource_pairs.
      rewrite Forall_forall in Hpairs. apply Forall_forall.
      intros kv [_ Hkv]%list_elem_of_filter. apply (Hpairs kv Hkv).
  - eexists. split; [reflexivity|]. rewrite flatten_pairs_length. lia.
  - rewrite pair_up_flatten. unfold resource_pairs.
    apply Forall_forall. intros kv Hkv%list_elem_of_filter. apply Hkv.
Qed.

(** X6: every attribute object the decoder hands out has its seven fields
    set; each of its strings is at most 4096 bytes long with no NUL inside;
    its resources array holds whole pairs (so a caller stepping through it
    two cells at a time never reads past the terminating NULL), at most 100
    of them, none keyed by an identity key. *)
Theorem decoded_object_is_bounded (payload : list byte) (payload_size : nat)
    (kb vb : list byte) (d : otel_process_ctx_data) :
  (payload_size <= length payload)%nat ->
  otel_process_ctx_decode_payload payload payload_size kb vb = Some d ->
  well_formed d = true
  /\ Forall (fun s => strlen s <= KEY_VALUE_LIMIT /\ x00 ∉ s) (data_strings d)
  /\ (exists res, resources d = Some res /\ (length res <= 200)%nat)
  /\ Forall (fun kv => is_identity_key kv.1 = false) (pair_up (resource_entries d)).
Proof. apply decoded_object_bounds. Qed.

Lemma decoded_object_is_bounded_witness :
  well_formed sample_data = true
  /\ Forall (fun s => strlen s <= KEY_VALUE_LIMIT /\ x00 ∉ s) (data_strings sample_data)
  /\ (exists res, resources sample_data = Some res /\ (length res <= 200)%nat)
  /\ Forall (fun kv => is_identity_key kv.1 = false)
            (pair_up (resource_entries sample_data)).
Proof.
  apply (decoded_object_is_bounded sample_payload (length sample_payload) [] []);
    [apply Nat.le_refl|vm_compute; reflexivity].
Defined.

(** ** Decoding what the encoder emits *)

(** The decoder on the byte stream the emit pass produces. *)
Lemma decode_emitted (data : otel_process_ctx_data) (kb vb : list byte) :
  well_formed data = true ->
  c_strings (data_strings data) ->
  Forall (fun s => strlen s <= KEY_VALUE_LIMIT) (data_strings data) ->
  (length (resource_entries data) <= 200)%nat ->
  Forall (fun kv => is_identity_key kv.1 = false) (pair_up (resource_entries data)) ->
  let emitted := attributes_bytes (identity_entries data)
                 ++ attributes_bytes (resource_entries data) in
  otel_process_ctx_decode_payload emitted (length emitted) kb vb
  = Some (data_with_resources (Some (resource_entries data)) data).
Proof.
  intros Hwf Hc Hlim Hcount Hkeys. cbv zeta.
  unfold well_formed in Hwf. apply andb_true_iff in Hwf as [Hreq Heven].
  unfold data_strings in *.
  apply Forall_app in Hlim as [Hlim1 Hlim2]. apply Forall_app in Hc as [Hc1 Hc2].
  destruct (well_formed_identity_entries data Hreq)
    as (v1 & v2 & v3 & v4 & v5 & v6 & v7 & Hids & Hdata).
  rewrite !attributes_bytes_records, <- records_bytes_app, <- fmap_app.
  rewrite decode_records
    by (rewrite fmap_app, forallb_app, !records_ok_of_entries by assumption; reflexivity).
  rewrite !fmap_app.
  rewrite !record_pairs_of_entries by assumption.
  rewrite dispatch_all_app.
  assert (Hid : dispatch_all (pair_up (identity_entries data)) initial_data_out
                = Some (data_with_resources (Some []) data)).
  { rewrite Hids. rewrite Hdata at 1. reflexivity. }
  rewrite Hid. cbn [mbind option_bind].
  rewrite (dispatch_all_resources _ (data_with_resources (Some []) data) []
             eq_refl Hkeys)
    by (pose proof (pair_up_length (resource_entries data)); cbn [length]; lia).
  cbn [mbind option_bind app]. rewrite flatten_pair_up by exact Heven.
  unfold require_identity.
  change (all_required_found (data_with_resources (Some (resource_entries data))
                                (data_with_resources (Some []) data)))
    with (all_required_found data).
  rewrite Hreq. reflexivity.
Qed.

Lemma Forall_and_l {A : Type} (P Q : A -> Prop) (l : list A) :
  Forall (fun x => P x /\ Q x) l -> Forall P l /\ Forall Q l.
Proof. intros H. split; (eapply Forall_impl; [exact H|]); intros x []; assumption. Qed.

(** X7: an attribute object handed out by the decoder can be encoded
    again, and decoding that encoding gives the same object: the decoder
    and the encoder are inverse of each other on everything the decoder
    returns. *)
Theorem decode_encode_decode (payload : list byte) (payload_size : nat)
    (kb vb kb' vb' : list byte) (d : otel_process_ctx_data) :
  (payload_size <= length payload)%nat ->
  otel_process_ctx_decode_payload payload payload_size kb vb = Some d ->
  exists e,
    otel_process_ctx_encode_protobuf_payload true d = (succeeded, Some e)
    /\ otel_process_ctx_decode_payload (enc_bytes e) (Z.to_nat (enc_size e)) kb' vb'
       = Some d.
Proof.
  intros Hn Hd.
  destruct (decode_inv_records _ _ _ _ _ Hn Hd) as (recs & _ & _ & _ & Hdis & _).
  pose proof (dispatch_all_get_resources _ _ _ [] Hdis eq_refl) as Hres.
  destruct (decoded_object_bounds payload payload_size kb vb d Hn Hd)
    as (Hwf & Hall & (res & Hr & Hlen) & Hkeys).
  apply Forall_and_l in Hall as [Hlim Hc].
  assert (Hcount : (length (resource_entries d) <= 200)%nat).
  { unfold resource_entries. rewrite Hr. exact Hlen. }
  pose proof (within_limit_passes_validation d Hwf Hlim) as Hv.
  eexists. split; [apply encode_success, Hv|]. cbn [enc_bytes enc_size].
  pose proof (prepass_total_size_bytes d Hv) as Hsz.
  assert (Hsmall : uint32 (prepass_total_size d) = prepass_total_size d).
  { apply Z.mod_small. rewrite Hsz, length_app, Nat2Z.inj_add.
    unfold data_strings in Hlim. apply Forall_app in Hlim as [Hlim1 Hlim2].
    pose proof (attributes_bytes_bound _ Hlim1) as B1.
    pose proof (attributes_bytes_bound _ Hlim2) as B2.
    pose proof (identity_entries_length d). lia. }
  rewrite Hsmall, Hsz, Nat2Z.id.
  rewrite (decode_emitted d kb' vb' Hwf Hc Hlim Hcount Hkeys).
  f_equal. unfold resource_entries. rewrite Hr. cbn [default from_option id].
  rewrite <- Hr. destruct d; reflexivity.
Qed.

Lemma decode_encode_decode_witness :
  exists e,
    otel_process_ctx_encode_protobuf_payload true sample_data = (succeeded, Some e)
    /\ otel_process_ctx_decode_payload (enc_bytes e) (Z.to_nat (enc_size e)) [] []
       = Some sample_data.
Proof.
  apply (decode_encode_decode lax_payload (length lax_payload) [] [] [] [] sample_data);
    [apply Nat.le_refl|vm_compute; reflexivity].
Defined.

(** X8: what the decoder returns for an accepted payload, record by
    record: each identity field holds the value of the last record carrying
    its key (a later record overrides an earlier one), and the resources
    are the pairs of the records with any other key, in payload order,
    repeated keys included. *)
Theorem decode_result_of_records (recs : list kv_record) (kb vb : list byte)
    (d : otel_process_ctx_data) :
  forallb kv_record_ok recs = true ->
  otel_process_ctx_decode_payload (records_bytes recs) (length (records_bytes recs)) kb vb
  = Some d ->
  (forall k, k ∈ identity_keys ->
     get_field k d = last_value_of k (record_pair <$> recs))
  /\ resources d = Some (flatten_pairs (resource_pairs (record_pair <$> recs))).
Proof.
  intros Hok Hd. rewrite (decode_records recs kb vb Hok) in Hd.
  destruct (dispatch_all (record_pair <$> recs) initial_data_out) as [d1|] eqn:Hdis;
    [|discriminate].
  cbn in Hd. unfold require_identity in Hd.
  destruct (all_required_found d1); [|discriminate]. injection Hd as ->.
  split.
  - intros k Hk. rewrite (dispatch_all_get_field _ _ _ k Hdis Hk), get_field_initial.
    destruct (last_value_of k _); reflexivity.
  - apply (dispatch_all_get_resources _ _ _ [] Hdis eq_refl).
Qed.

Lemma decode_result_of_records_witness :
  get_field (bytes_of "service.name") shadowing_decoded
  = last_value_of (bytes_of "service.name") (record_pair <$> shadowing_records)
  /\ resources shadowing_decoded
     = Some (flatten_pairs (resource_pairs (record_pair <$> shadowing_records))).
Proof.
  destruct (decode_result_of_records shadowing_records [] [] shadowing_decoded)
    as [Hf Hr]; [vm_compute; reflexivity..|].
  split; [|exact Hr]. apply Hf. apply (bool_decide_unpack _). vm_compute. reflexivity.
Defined.

(** * Further properties of the publisher *)

Lemma free_length (p : nat) (h : list (option block)) : length (free p h) = length h.
Proof. destruct p; [reflexivity|]. apply length_insert. Qed.

Lemma drop_current_not_published (env : syscalls) (w : process) :
  ctx_is_published (published_state w) (pid w) = false ->
  otel_process_ctx_drop_current env w = (true, dropped w).
Proof.
  intros Hp. unfold otel_process_ctx_drop_current.
  change (pid (set_published_state zero_state w)) with (pid w). rewrite Hp. reflexivity.
Qed.

(** A fresh publish that goes through. *)
Lemma publish_fresh_success (env : syscalls) (data : otel_process_ctx_data)
    (w : process) (r : otel_process_ctx_result) (e : encoded) :
  ctx_is_published (published_state w) (pid w) = false ->
  time_now_ns env <> 0 ->
  otel_process_ctx_encode_protobuf_payload (calloc_ok env) data = (r, Some e) ->
  mapping_calls_ok env = true ->
  otel_process_ctx_publish env (Some data) w
  = (succeeded, freshly_published e (time_now_ns env) w).
Proof.
  intros Hp Ht He Hok. unfold otel_process_ctx_publish.
  destruct (Z.eqb_spec (time_now_ns env) 0); [contradiction|]. rewrite Hp.
  rewrite (drop_current_not_published env w Hp). cbn [negb]. rewrite He.
  unfold mapping_calls_ok in Hok.
  apply andb_true_iff in Hok as [Hok Hfd]. apply andb_true_iff in Hok as [Hmmap Hmadv].
  unfold alloc. rewrite Hmmap, Hmadv.
  destruct (memfd_create_ok env), (ftruncate_ok env), (close_ok env);
    try discriminate Hfd; cbn [andb negb orb].
  all: unfold dropped, freshly_published, store_mapping, set_published_state, set_heap,
         set_regions; cbn [published_state mapping regions heap pid].
  all: rewrite !free_length, !alter_app_r_alt by lia.
  all: rewrite !Nat.sub_diag; reflexivity.
Qed.

Lemma publish_fresh_encode_failure (env : syscalls) (data : otel_process_ctx_data)
    (w : process) (r : otel_process_ctx_result) :
  ctx_is_published (published_state w) (pid w) = false ->
  time_now_ns env <> 0 ->
  otel_process_ctx_encode_protobuf_payload (calloc_ok env) data = (r, None) ->
  otel_process_ctx_publish env (Some data) w = (r, dropped w).
Proof.
  intros Hp Ht He. unfold otel_process_ctx_publish.
  destruct (Z.eqb_spec (time_now_ns env) 0); [contradiction|]. rewrite Hp.
  rewrite (drop_current_not_published env w Hp). cbn [negb]. rewrite He. reflexivity.
Qed.

(** A fresh publish that fails after the payload was encoded. *)
Lemma publish_fresh_mapping_failure (env : syscalls) (data : otel_process_ctx_data)
    (w : process) (r : otel_process_ctx_result) (e : encoded) :
  ctx_is_published (published_state w) (pid w) = false ->
  time_now_ns env <> 0 ->
  otel_process_ctx_encode_protobuf_payload (calloc_ok env) data = (r, Some e) ->
  mapping_calls_ok env = false ->
  exists r' tail,
    otel_process_ctx_publish env (Some data) w = (r', publish_undone tail w)
    /\ r' ∈ mapping_errors
    /\ (tail = [] \/ tail = [None]
        \/ (tail = [Some zero_mapping] /\ munmap_ok env = false)).
Proof.
  intros Hp Ht He Hok. unfold otel_process_ctx_publish.
  destruct (Z.eqb_spec (time_now_ns env) 0); [contradiction|]. rewrite Hp.
  rewrite (drop_current_not_published env w Hp). cbn [negb]. rewrite He.
  unfold mapping_calls_ok in Hok. unfold alloc, otel_process_ctx_drop_current, munmap.
  destruct (memfd_create_ok env), (ftruncate_ok env), (mmap_ok env), (close_ok env),
    (madvise_ok env), (munmap_ok env); try discriminate Hok; cbn [andb negb orb];
    unfold dropped, store_mapping, set_published_state, set_heap,
      set_regions, ctx_is_published;
    cbn [published_state mapping regions heap pid publisher_pid payload free];
    rewrite ?Z.eqb_refl; cbn [fst snd];
    unfold publish_undone, dropped, set_published_state, set_heap;
    cbn [published_state mapping regions heap pid publisher_pid payload free];
    rewrite ?free_length, ?insert_app_r_alt, ?Nat.sub_diag by (rewrite ?free_length; lia);
    rewrite ?free_length, ?Nat.sub_diag; cbn [insert list_insert].
  all: first [ eexists; eexists; (split; [reflexivity|])
             | eexists; exists []; (split; [rewrite app_nil_r; reflexivity|]) ].
  all: split; [unfold mapping_errors; rewrite !elem_of_cons; auto 10|auto].
Qed.

Lemma publish_null (env : syscalls) (w : process) :
  otel_process_ctx_publish env None w = (failure "otel_process_ctx_data is NULL" "121", w).
Proof. reflexivity. Qed.

Lemma publish_no_time (env : syscalls) (data : otel_process_ctx_data) (w : process) :
  time_now_ns env = 0 ->
  otel_process_ctx_publish env (Some data) w = (failure "Failed to get current time" "125", w).
Proof. intros Ht. unfold otel_process_ctx_publish. rewrite Ht. reflexivity. Qed.

Lemma publish_update_failure (env : syscalls) (data : otel_process_ctx_data)
    (w : process) (r : otel_process_ctx_result) :
  ctx_is_published (published_state w) (pid w) = true ->
  time_now_ns env <> 0 ->
  otel_process_ctx_encode_protobuf_payload (calloc_ok env) data = (r, None) ->
  otel_process_ctx_publish env (Some data) w = (r, w).
Proof.
  intros Hp Ht He. rewrite (publish_delegates env data w Hp Ht).
  unfold otel_process_ctx_update. rewrite Hp, He. reflexivity.
Qed.

Lemma publish_update_success (env : syscalls) (data : otel_process_ctx_data)
    (w : process) (r : otel_process_ctx_result) (e : encoded) :
  ctx_is_published (published_state w) (pid w) = true ->
  time_now_ns env <> 0 ->
  otel_process_ctx_encode_protobuf_payload (calloc_ok env) data = (r, Some e) ->
  otel_process_ctx_publish env (Some data) w = (succeeded, updated e (time_now_ns env) w).
Proof.
  intros Hp Ht He. rewrite (publish_delegates env data w Hp Ht).
  unfold otel_process_ctx_update, updated. rewrite Hp, He. cbn [negb].
  destruct (update_start e (time_now_ns env) w). reflexivity.
Qed.

(** The five ways a call of publish with an attribute object can go. *)
Lemma publish_cases (env : syscalls) (data : otel_process_ctx_data) (w : process) :
  let r := otel_process_ctx_publish env (Some data) w in
  (time_now_ns env = 0 /\ r = (failure "Failed to get current time" "125", w))
  \/ (time_now_ns env <> 0
      /\ ctx_is_published (published_state w) (pid w) = true
      /\ ((exists r', otel_process_ctx_encode_protobuf_payload (calloc_ok env) data
                      = (r', None)
                      /\ r = (r', w))
          \/ (exists r' e, otel_process_ctx_encode_protobuf_payload (calloc_ok env) data
                           = (r', Some e)
                           /\ r = (succeeded, updated e (time_now_ns env) w))))
  \/ (time_now_ns env <> 0
      /\ ctx_is_published (published_state w) (pid w) = false
      /\ ((exists r', otel_process_ctx_encode_protobuf_payload (calloc_ok env) data
                      = (r', None)
                      /\ r = (r', dropped w))
          \/ (exists r' e, otel_process_ctx_encode_protobuf_payload (calloc_ok env) data
                           = (r', Some e)
                           /\ mapping_calls_ok env = true
                           /\ r = (succeeded,
                                   freshly_published e (time_now_ns env) w))
          \/ (exists r' e r'' tail,
                otel_process_ctx_encode_protobuf_payload (calloc_ok env) data
                = (r', Some e)
                /\ mapping_calls_ok env = false
                /\ r = (r'', publish_undone tail w)
                /\ r'' ∈ mapping_errors
                /\ (tail = [] \/ tail = [None]
                    \/ (tail = [Some zero_mapping] /\ munmap_ok env = false))))).
Proof.
  cbv zeta. destruct (Z.eq_dec (time_now_ns env) 0) as [Ht|Ht].
  { left. split; [exact Ht|]. apply publish_no_time, Ht. }
  right.
  destruct (otel_process_ctx_encode_protobuf_payload (calloc_ok env) data)
    as [r' [e|]] eqn:He;
    destruct (ctx_is_published (published_state w) (pid w)) eqn:Hp.
  - left. split; [exact Ht|]. split; [reflexivity|]. right. exists r', e.
    split; [reflexivity|]. apply (publish_update_success env data w r' e Hp Ht He).
  - right. split; [exact Ht|]. split; [reflexivity|]. right.
    destruct (mapping_calls_ok env) eqn:Hok.
    + left. exists r', e. split; [reflexivity|]. split; [reflexivity|].
      apply (publish_fresh_success env data w r' e Hp Ht He Hok).
    + right.
      destruct (publish_fresh_mapping_failure env data w r' e Hp Ht He Hok)
        as (r'' & tail & H1 & H2 & H3).
      exists r', e, r'', tail. auto.
  - left. split; [exact Ht|]. split; [reflexivity|]. left. exists r'.
    split; [reflexivity|]. apply (publish_update_failure env data w r' Hp Ht He).
  - right. split; [exact Ht|]. split; [reflexivity|]. left. exists r'.
    split; [reflexivity|]. apply (publish_fresh_encode_failure env data w r' Hp Ht He).
Qed.

(** ** The shape of the state after each way a call can go *)

Lemma regions_store_mapping (f : otel_process_ctx_mapping -> otel_process_ctx_mapping)
    (w : process) (r : nat) :
  mapping (published_state w) <> MapAt r ->
  regions (store_mapping f w) !! r = regions w !! r.
Proof.
  intros Hne. unfold store_mapping.
  destruct (mapping (published_state w)) as [| |r0]; try reflexivity.
  cbn [set_regions regions]. apply list_lookup_alter_ne. congruence.
Qed.

Lemma regions_length_store_mapping
    (f : otel_process_ctx_mapping -> otel_process_ctx_mapping) (w : process) :
  length (regions (store_mapping f w)) = length (regions w).
Proof.
  unfold store_mapping. destruct (mapping (published_state w)); try reflexivity.
  cbn [set_regions regions]. apply length_alter.
Qed.

Lemma updated_unfold (e : encoded) (t : Z) (w : process) :
  updated e t w
  = process_at UpdateDone
      {| new_published_at_ns := t; new_payload_size := enc_size e;
         new_payload := S (length (heap w)) |}
      (set_heap (heap w ++ [Some (Bytes (enc_bytes e))]) w).
Proof. reflexivity. Qed.

Lemma updated_published_state (e : encoded) (t : Z) (w : process) :
  published_state (updated e t w)
  = {| publisher_pid := publisher_pid (published_state w);
       mapping := mapping (published_state w);
       payload := S (length (heap w)) |}.
Proof.
  rewrite updated_unfold.
  cbn [process_at set_published_state published_state set_heap new_payload].
  rewrite !published_state_store_mapping. reflexivity.
Qed.

Lemma updated_heap (e : encoded) (t : Z) (w : process) :
  heap (updated e t w)
  = free (payload (published_state w)) (heap w ++ [Some (Bytes (enc_bytes e))]).
Proof. rewrite updated_unfold, heap_process_at. reflexivity. Qed.

Lemma updated_pid (e : encoded) (t : Z) (w : process) : pid (updated e t w) = pid w.
Proof.
  rewrite updated_unfold. cbn [process_at set_published_state pid set_heap].
  rewrite !pid_store_mapping. reflexivity.
Qed.

Lemma updated_load (e : encoded) (t : Z) (w : process) :
  load_mapping (updated e t w)
  = (fun m => {| otel_process_ctx_signature := otel_process_ctx_signature m;
                 otel_process_ctx_version := otel_process_ctx_version m;
                 otel_process_payload_size := enc_size e;
                 otel_process_ctx_published_at_ns := t;
                 otel_process_payload := S (length (heap w)) |}) <$> load_mapping w.
Proof.
  rewrite updated_unfold, load_process_at.
  change (load_mapping (set_heap _ w)) with (load_mapping w).
  destruct (load_mapping w); reflexivity.
Qed.

Lemma updated_regions (e : encoded) (t : Z) (w : process) (r : nat) :
  mapping (published_state w) <> MapAt r ->
  regions (updated e t w) !! r = regions w !! r.
Proof.
  intros Hne. rewrite updated_unfold.
  cbn [process_at set_published_state regions set_heap].
  rewrite !regions_store_mapping; [reflexivity|..];
    rewrite ?published_state_store_mapping; exact Hne.
Qed.

Lemma updated_regions_length (e : encoded) (t : Z) (w : process) :
  length (regions (updated e t w)) = length (regions w).
Proof.
  rewrite updated_unfold. cbn [process_at set_published_state regions set_heap].
  rewrite !regions_length_store_mapping. reflexivity.
Qed.

Lemma heap_lookup_app_None (p : nat) (h : list (option block)) :
  heap_lookup p (h ++ [None]) = heap_lookup p h.
Proof.
  destruct p as [|i]; [reflexivity|]. cbn [heap_lookup].
  destruct (decide (i < length h)%nat) as [Hlt|Hge].
  - rewrite lookup_app_l by exact Hlt. reflexivity.
  - rewrite (lookup_ge_None_2 h) by lia.
    destruct (decide (i = length h)) as [->|Hne].
    + rewrite lookup_app_r, Nat.sub_diag by lia. reflexivity.
    + rewrite lookup_ge_None_2; [reflexivity|]. rewrite length_app. cbn [length]. lia.
Qed.

Lemma heap_lookup_alloc (p : nat) (h : list (option block)) (b : block) :
  heap_lookup p (h ++ [Some b])
  = if decide (p = S (length h)) then Some b else heap_lookup p h.
Proof.
  destruct (decide (p = S (length h))) as [->|Hne]; [apply heap_lookup_alloc_new|].
  destruct p as [|i]; [reflexivity|]. cbn [heap_lookup].
  destruct (decide (i < length h)%nat) as [Hlt|Hge].
  - rewrite lookup_app_l by exact Hlt. reflexivity.
  - rewrite (lookup_ge_None_2 h) by lia.
    rewrite lookup_ge_None_2; [reflexivity|]. rewrite length_app. cbn [length]. lia.
Qed.

Lemma heap_lookup_free_eq (p q : nat) (h : list (option block)) :
  heap_lookup p (free q h) = if decide (p = q) then None else heap_lookup p h.
Proof.
  destruct (decide (p = q)) as [->|Hne]; [apply heap_lookup_free|].
  apply heap_lookup_free_other, Hne.
Qed.

(** ** No leak *)

Lemma no_leak_freed (w : process) (p : nat) :
  no_leak w -> heap_lookup p (free (payload (published_state w)) (heap w)) = None.
Proof.
  intros Hn. rewrite heap_lookup_free_eq.
  destruct (decide (p = payload (published_state w))) as [|Hne]; [reflexivity|].
  destruct (heap_lookup p (heap w)) as [b|] eqn:E; [|reflexivity].
  exfalso. apply Hne, (Hn p b E).
Qed.

Lemma no_leak_dropped (w : process) (p : nat) :
  no_leak w -> heap_lookup p (heap (dropped w)) = None.
Proof. apply no_leak_freed. Qed.

Lemma no_leak_updated (e : encoded) (t : Z) (w : process) :
  no_leak w -> no_leak (updated e t w).
Proof.
  intros Hn p b. rewrite updated_heap, updated_published_state. cbn [payload].
  rewrite heap_lookup_free_eq.
  destruct (decide (p = payload (published_state w))) as [|Hne]; [discriminate|].
  rewrite heap_lookup_alloc. destruct (decide (p = S (length (heap w)))); [auto|].
  intros E. exfalso. apply Hne, (Hn p b E).
Qed.

Lemma no_leak_freshly_published (e : encoded) (t : Z) (w : process) :
  no_leak w -> no_leak (freshly_published e t w).
Proof.
  intros Hn p b. unfold freshly_published. cbn [heap published_state payload].
  rewrite heap_lookup_alloc.
  change (length (heap (dropped w)))
    with (length (free (payload (published_state w)) (heap w))).
  rewrite free_length. destruct (decide (p = S (length (heap w)))); [auto|].
  rewrite no_leak_dropped by exact Hn. discriminate.
Qed.

Lemma no_leak_publish_undone (tail : list (option otel_process_ctx_mapping))
    (w : process) : no_leak w -> no_leak (publish_undone tail w).
Proof.
  intros Hn p b. unfold publish_undone. cbn [heap].
  rewrite heap_lookup_app_None, no_leak_dropped by exact Hn. discriminate.
Qed.

Lemma drop_current_state (env : syscalls) (w : process) :
  published_state (otel_process_ctx_drop_current env w).2 = zero_state
  /\ heap (otel_process_ctx_drop_current env w).2
     = free (payload (published_state w)) (heap w)
  /\ pid (otel_process_ctx_drop_current env w).2 = pid w.
Proof.
  unfold otel_process_ctx_drop_current, munmap.
  change (pid (set_published_state zero_state w)) with (pid w).
  destruct (ctx_is_published (published_state w) (pid w)); [|repeat split].
  destruct (munmap_ok env); [|repeat split].
  destruct (mapping (published_state w)); repeat split.
Qed.

Lemma no_leak_publish (env : syscalls) (data : option otel_process_ctx_data)
    (w : process) : no_leak w -> no_leak (otel_process_ctx_publish env data w).2.
Proof.
  intros Hn. destruct data as [data|]; [|exact Hn].
  destruct (publish_cases env data w)
    as [[_ ->]|[(_ & _ & [(r' & _ & ->)|(r' & e & _ & ->)])
               |(_ & _ & [(r' & _ & ->)|[(r' & e & _ & _ & ->)
                                        |(r' & e & r'' & tail & _ & _ & -> & _)]])]];
    cbn [snd]; auto using no_leak_updated, no_leak_freshly_published,
      no_leak_publish_undone.
  intros p b. rewrite no_leak_dropped by exact Hn. discriminate.
Qed.

Lemma no_leak_drop_current (env : syscalls) (w : process) :
  no_leak w -> no_leak (otel_process_ctx_drop_current env w).2.
Proof.
  intros Hn p b. destruct (drop_current_state env w) as (_ & -> & _).
  rewrite no_leak_freed by exact Hn. discriminate.
Qed.

Lemma no_leak_step (w w' : process) : api_steps_to w w' -> no_leak w -> no_leak w'.
Proof.
  intros [[c ->]|(Hs & Hh & _)] Hn.
  - destruct c as [env data|env]; cbn [api_run];
      auto using no_leak_publish, no_leak_drop_current.
  - intros p b. rewrite Hh, Hs. apply Hn.
Qed.

Lemma no_leak_reachable (getpid : Z) (w : process) :
  rtc api_steps_to (initial_process getpid) w -> no_leak w.
Proof.
  revert w. apply rtc_ind_r.
  - intros p b. destruct p as [|[|i]]; discriminate.
  - intros w w' _ Hstep IH. exact (no_leak_step w w' Hstep IH).
Qed.

(** X12: the publisher never leaks heap memory. Whatever sequence of
    publish and drop_current calls is made, whatever each system call in
    them returns, and across forks, the only heap block that is live is
    the payload the singleton points at: every payload that was replaced,
    dropped, inherited from a parent or allocated by a call that then
    failed has been freed. *)
Theorem publisher_never_leaks (getpid : Z) (w : process) (p : nat) (b : block) :
  rtc api_steps_to (initial_process getpid) w ->
  heap_lookup p (heap w) = Some b ->
  p = payload (published_state w).
Proof.
  intros Hr. revert p b. change (no_leak w). revert w Hr. apply rtc_ind_r.
  - intros p b. destruct p as [|[|i]]; discriminate.
  - intros w w' _ Hstep IH. exact (no_leak_step w w' Hstep IH).
Qed.

Lemma publisher_never_leaks_witness :
  1%nat = payload (published_state published_sample).
Proof.
  apply (publisher_never_leaks 42 published_sample 1 (Bytes sample_payload)).
  - apply rtc_once. left. exists (CallPublish (good_env 1) (Some sample_data)).
    reflexivity.
  - vm_compute. reflexivity.
Defined.

(** ** The header of a published context *)

Lemma encoded_size_mod (calloc_ok : bool) (data : otel_process_ctx_data)
    (r : otel_process_ctx_result) (e : encoded) :
  otel_process_ctx_encode_protobuf_payload calloc_ok data = (r, Some e) ->
  enc_size e = uint32 (Z.of_nat (length (enc_bytes e))).
Proof.
  intros He. destruct (encode_Some _ _ _ _ He) as [-> Hv].
  rewrite encode_success in He by exact Hv.
  apply (f_equal snd) in He. cbv beta iota delta [snd] in He.
  apply (inj Some) in He. subst e. cbv beta iota delta [enc_size enc_bytes].
  rewrite (prepass_total_size_bytes data Hv). reflexivity.
Qed.

Lemma time_now_ns_range (env : syscalls) :
  time_now_ns env <> 0 -> 0 < time_now_ns env < 18446744073709551616.
Proof.
  unfold time_now_ns, uint64. destruct (clock_gettime env) as [[s ns]|]; [|congruence].
  pose proof (Z.mod_pos_bound (s * 1000000000 + ns) 18446744073709551616). lia.
Qed.

Lemma header_valid_updated (e : encoded) (t : Z) (w : process) :
  header_valid w -> 0 < t < 18446744073709551616 ->
  enc_size e = uint32 (Z.of_nat (length (enc_bytes e))) ->
  header_valid (updated e t w).
Proof.
  intros (m & bs & Hl & Hsig & Hver & _ & Hpay & _ & Hh & _) Ht Hsz.
  eexists. exists (enc_bytes e). rewrite updated_load, Hl. split; [reflexivity|].
  cbn [otel_process_ctx_signature otel_process_ctx_version
       otel_process_ctx_published_at_ns otel_process_payload
       otel_process_payload_size].
  rewrite updated_published_state, updated_heap. cbn [payload].
  repeat split; try assumption; try lia; try discriminate.
  pose proof (heap_lookup_bound _ _ _ Hh) as Hb. rewrite Hpay in Hb.
  rewrite heap_lookup_free_other by lia. apply heap_lookup_alloc_new.
Qed.

Lemma header_valid_freshly_published (e : encoded) (t : Z) (w : process) :
  0 < t < 18446744073709551616 ->
  enc_size e = uint32 (Z.of_nat (length (enc_bytes e))) ->
  header_valid (freshly_published e t w).
Proof.
  intros Ht Hsz. eexists. exists (enc_bytes e).
  unfold load_mapping, freshly_published.
  cbn [published_state mapping regions heap payload].
  rewrite lookup_app_r, Nat.sub_diag by lia. cbn [lookup list_lookup mjoin option_join].
  split; [reflexivity|].
  cbn [otel_process_ctx_signature otel_process_ctx_version
       otel_process_ctx_published_at_ns otel_process_payload
       otel_process_payload_size].
  repeat split; try assumption; try lia; try discriminate.
  rewrite <- (free_length (payload (published_state w)) (heap w)).
  apply heap_lookup_alloc_new.
Qed.

Lemma ctx_is_published_updated (e : encoded) (t : Z) (w : process) :
  ctx_is_published (published_state (updated e t w)) (pid (updated e t w))
  = ctx_is_published (published_state w) (pid w).
Proof. rewrite updated_published_state, updated_pid. reflexivity. Qed.

Lemma header_valid_publish (env : syscalls) (data : option otel_process_ctx_data)
    (w : process) :
  (ctx_is_published (published_state w) (pid w) = true -> header_valid w) ->
  let w' := (otel_process_ctx_publish env data w).2 in
  ctx_is_published (published_state w') (pid w') = true -> header_valid w'.
Proof.
  intros Hinv. cbv zeta. destruct data as [data|]; [|exact Hinv].
  destruct (publish_cases env data w)
    as [[_ ->]|[(Ht & Hp & [(r' & _ & ->)|(r' & e & He & ->)])
               |(Ht & _ & [(r' & _ & ->)|[(r' & e & He & _ & ->)
                                         |(r' & e & r'' & tail & _ & _ & -> & _)]])]];
    cbn [snd]; try exact Hinv; try discriminate.
  - intros _. apply header_valid_updated;
      [apply Hinv, Hp|apply time_now_ns_range, Ht|apply (encoded_size_mod _ _ _ _ He)].
  - intros _. apply header_valid_freshly_published;
      [apply time_now_ns_range, Ht|apply (encoded_size_mod _ _ _ _ He)].
Qed.

Lemma header_valid_step (w w' : process) :
  api_steps_to w w' ->
  (ctx_is_published (published_state w) (pid w) = true -> header_valid w) ->
  ctx_is_published (published_state w') (pid w') = true -> header_valid w'.
Proof.
  intros [[c ->]|(Hs & _ & Hpid)] Hinv.
  - destruct c as [env data|env]; cbn [api_run].
    + apply header_valid_publish, Hinv.
    + destruct (drop_current_state env w) as (-> & _). discriminate.
  - unfold ctx_is_published. rewrite Hs.
    destruct (mapping (published_state w)); try discriminate.
    intros H%Z.eqb_eq. contradiction.
Qed.

Lemma header_valid_reachable (getpid : Z) (w : process) :
  rtc api_steps_to (initial_process getpid) w ->
  ctx_is_published (published_state w) (pid w) = true -> header_valid w.
Proof.
  revert w.
  apply (rtc_ind_r (fun w => ctx_is_published (published_state w) (pid w) = true ->
                             header_valid w)); [discriminate|].
  intros w w' _ Hstep IH. exact (header_valid_step w w' Hstep IH).
Qed.

(** X13: whenever a context is published by the current process, after
    any sequence of publish and drop_current calls with any outcomes of the
    system calls, and across forks, the header in the mapping is complete:
    it carries the signature and version 2, a nonzero timestamp, and the
    payload pointer kept in the singleton, which is not NULL and points at
    a live buffer whose length is the payload size of the header. *)
Theorem published_header_is_valid (getpid : Z) (w : process) :
  rtc api_steps_to (initial_process getpid) w ->
  ctx_is_published (published_state w) (pid w) = true ->
  header_valid w.
Proof.
  revert w.
  apply (rtc_ind_r (fun w => ctx_is_published (published_state w) (pid w) = true ->
                             header_valid w)).
  - discriminate.
  - intros w w' _ Hstep IH. exact (header_valid_step w w' Hstep IH).
Qed.

Lemma published_header_is_valid_witness : header_valid published_sample.
Proof.
  apply (published_header_is_valid 42 published_sample).
  - apply rtc_once. left. exists (CallPublish (good_env 1) (Some sample_data)).
    reflexivity.
  - vm_compute. reflexivity.
Defined.

(** ** Fresh publish *)

Lemma encode_None_failure (calloc_ok : bool) (data : otel_process_ctx_data)
    (r : otel_process_ctx_result) :
  otel_process_ctx_encode_protobuf_payload calloc_ok data = (r, None) ->
  success r = false.
Proof.
  intros He. destruct (passes_validation data) eqn:Hv.
  - destruct calloc_ok.
    + rewrite encode_success in He by exact Hv. discriminate.
    + rewrite encode_fails_calloc in He by exact Hv. injection He as <-. reflexivity.
  - destruct (encode_validation_failure calloc_ok data Hv) as [Hs _].
    rewrite He in Hs. exact Hs.
Qed.

Lemma mapping_errors_failure (r : otel_process_ctx_result) :
  r ∈ mapping_errors -> success r = false.
Proof.
  unfold mapping_errors. rewrite !elem_of_cons, elem_of_nil.
  intros [->|[->|[->|[->|[->|[]]]]]]; reflexivity.
Qed.

Lemma published_freshly_published (data : otel_process_ctx_data) (t : Z) (w : process) :
  passes_validation data = true -> t <> 0 ->
  published data
    (freshly_published
       {| enc_bytes := attributes_bytes (identity_entries data)
                       ++ attributes_bytes (resource_entries data);
          enc_size := uint32 (prepass_total_size data);
          enc_ptr := Z.to_nat (prepass_total_size data) |} t w).
Proof.
  intros Hv Ht.
  assert (Hl : forall e, load_mapping (freshly_published e t w)
               = Some {| otel_process_ctx_signature := OTEL_CTX_SIGNATURE;
                         otel_process_ctx_version := 2;
                         otel_process_payload_size := enc_size e;
                         otel_process_ctx_published_at_ns := t;
                         otel_process_payload := S (length (heap w)) |}).
  { intros e. unfold load_mapping, freshly_published.
    cbn [published_state mapping regions].
    rewrite lookup_app_r, Nat.sub_diag by lia. reflexivity. }
  split; [|split].
  - unfold freshly_published, ctx_is_published.
    cbn [published_state mapping pid publisher_pid]. apply Z.eqb_refl.
  - eexists. split; [apply Hl|].
    cbn [otel_process_ctx_published_at_ns otel_process_payload
         otel_process_payload_size enc_size].
    split; [exact Ht|]. split; [|reflexivity].
    unfold freshly_published. cbn [heap enc_bytes].
    rewrite <- (free_length (payload (published_state w)) (heap w)).
    apply heap_lookup_alloc_new.
  - eexists. split; [apply Hl|]. reflexivity.
Qed.

(** X9: a publish in a process that has no context of its own published
    (first publish, publish after a drop, publish in a forked child)
    succeeds exactly when the clock can be read, the attribute object is
    complete and within the length limit, and the allocation, [mmap] and
    [madvise] succeed, together with [ftruncate] and [close] when
    [memfd_create] gave a descriptor; a failing [memfd_create] is made up
    for by the anonymous mapping. After a success the attribute object is
    published by this process, in a header with the signature, version 2
    and the time read. *)
Theorem fresh_publish_succeeds_iff (env : syscalls) (data : otel_process_ctx_data)
    (w : process) :
  ctx_is_published (published_state w) (pid w) = false ->
  let r := otel_process_ctx_publish env (Some data) w in
  (success r.1 = true <->
   time_now_ns env <> 0
   /\ well_formed data = true
   /\ Forall (fun s => strlen s <= KEY_VALUE_LIMIT) (data_strings data)
   /\ calloc_ok env = true
   /\ mapping_calls_ok env = true)
  /\ (success r.1 = true ->
      published data r.2
      /\ exists m, load_mapping r.2 = Some m
                   /\ otel_process_ctx_signature m = OTEL_CTX_SIGNATURE
                   /\ otel_process_ctx_version m = 2
                   /\ otel_process_ctx_published_at_ns m = time_now_ns env).
Proof.
  intros Hp. cbv zeta.
  destruct (publish_cases env data w)
    as [[Ht ->]|[(_ & Hp' & _)
               |(Ht & _ & [(r' & He & ->)|[(r' & e & He & Hok & ->)
                                         |(r' & e & r'' & tail & _ & Hok & -> & Hr & _)]])]];
    cbn [fst snd].
  - split; [|discriminate]. split; [discriminate|]. intros [? _]. contradiction.
  - congruence.
  - rewrite (encode_None_failure _ _ _ He). split; [|discriminate].
    split; [discriminate|]. intros (_ & Hwf & Hall & Hc & _).
    rewrite Hc, encode_success in He
      by (apply within_limit_passes_validation; assumption).
    discriminate.
  - destruct (encode_Some _ _ _ _ He) as [Hc Hv]. split.
    + split; [|reflexivity]. intros _.
      apply passes_validation_iff in Hv as [Hwf Hall]. auto.
    + intros _. rewrite Hc, encode_success in He by exact Hv.
      apply (f_equal snd) in He. cbv beta iota delta [snd] in He.
      apply (inj Some) in He. subst e.
      split; [apply published_freshly_published; assumption|].
      eexists. split.
      { unfold load_mapping, freshly_published. cbn [published_state mapping regions].
        rewrite lookup_app_r, Nat.sub_diag by lia. reflexivity. }
      repeat split.
  - rewrite (mapping_errors_failure _ Hr). split; [|discriminate].
    split; [discriminate|]. intros (_ & _ & _ & _ & Hok'). congruence.
Qed.

Lemma fresh_publish_succeeds_iff_witness :
  published sample_data published_sample.
Proof.
  refine (proj1 (proj2 (fresh_publish_succeeds_iff (good_env 1) sample_data
                          (initial_process 42) eq_refl) _)).
  vm_compute. reflexivity.
Defined.

Lemma dropped_heap_lookup (w : process) (p : nat) :
  heap_lookup p (heap (dropped w))
  = heap_lookup p (free (payload (published_state w)) (heap w)).
Proof. reflexivity. Qed.

(** X10: a publish that fails in a process with no context of its own
    published, once the clock was read, leaves nothing behind: the
    singleton is all-zero, the payload buffer the singleton pointed at is
    freed and no other heap block has changed (the buffer allocated for the
    new payload is freed again), the regions that existed are as they were,
    and unless [munmap] itself failed no region is left mapped that was not
    mapped before. *)
Theorem failed_publish_cleans_up (env : syscalls) (data : otel_process_ctx_data)
    (w : process) :
  ctx_is_published (published_state w) (pid w) = false ->
  time_now_ns env <> 0 ->
  let r := otel_process_ctx_publish env (Some data) w in
  success r.1 = false ->
  published_state r.2 = zero_state
  /\ pid r.2 = pid w
  /\ (forall p, heap_lookup p (heap r.2)
                = heap_lookup p (free (payload (published_state w)) (heap w)))
  /\ (forall i, (i < length (regions w))%nat -> regions r.2 !! i = regions w !! i)
  /\ (munmap_ok env = true ->
      forall i, mjoin (regions r.2 !! i) = mjoin (regions w !! i)).
Proof.
  intros Hp Ht. cbv zeta.
  destruct (publish_cases env data w)
    as [[Ht' _]|[(_ & Hp' & _)
               |(_ & _ & [(r' & He & ->)|[(r' & e & He & Hok & ->)
                                        |(r' & e & r'' & tail & _ & Hok & -> & Hr & Htail)]])]];
    cbn [fst snd]; try congruence; try discriminate; intros _.
  - repeat split.
  - unfold publish_undone.
    cbn [published_state pid heap regions].
    split; [reflexivity|]. split; [reflexivity|]. split; [|split].
    + intros p. rewrite heap_lookup_app_None. reflexivity.
    + intros i Hi. apply lookup_app_l, Hi.
    + intros Hm i. destruct Htail as [->|[->|[_ Hm']]]; [| |congruence].
      * rewrite app_nil_r. reflexivity.
      * destruct (decide (i < length (regions w))%nat) as [Hlt|Hge].
        -- rewrite lookup_app_l by exact Hlt. reflexivity.
        -- rewrite (lookup_ge_None_2 (regions w)) by lia.
           destruct (decide (i = length (regions w))) as [->|Hne].
           ++ rewrite lookup_app_r, Nat.sub_diag by lia. reflexivity.
           ++ rewrite lookup_ge_None_2; [reflexivity|].
              rewrite length_app. cbn [length]. lia.
Qed.

Lemma failed_publish_cleans_up_witness :
  published_state
    (otel_process_ctx_publish no_madvise_env (Some sample_data) (initial_process 42)).2
  = zero_state.
Proof.
  refine (proj1 (failed_publish_cleans_up no_madvise_env sample_data
                   (initial_process 42) eq_refl _ _)).
  - vm_compute. discriminate.
  - vm_compute. reflexivity.
Defined.

(** ** The results publish returns *)

Lemma validate_pairs_results (entries : list (list byte)) (acc : Z) :
  (validate_pairs entries acc).1 ∈ encode_results.
Proof.
  revert acc.
  induction entries as [|key|key value rest IH] using pairs_ind; intros acc;
    cbn [validate_pairs fst]; try (left; fail).
  unfold encode_results.
  destruct (KEY_VALUE_LIMIT <? strlen key); [rewrite !elem_of_cons; auto 10|].
  destruct (KEY_VALUE_LIMIT <? strlen value); [rewrite !elem_of_cons; auto 10|].
  apply IH.
Qed.

Lemma validate_results (entries : list (list byte)) :
  (validate_and_calculate_protobuf_payload_size entries).1 ∈ encode_results.
Proof.
  unfold validate_and_calculate_protobuf_payload_size.
  destruct (Nat.odd (length entries)); [|apply validate_pairs_results].
  unfold encode_results. rewrite !elem_of_cons. auto.
Qed.

Lemma encode_in_results (calloc_ok : bool) (data : otel_process_ctx_data) :
  (otel_process_ctx_encode_protobuf_payload calloc_ok data).1 ∈ encode_results.
Proof.
  unfold otel_process_ctx_encode_protobuf_payload. fold (identity_entries data).
  pose proof (validate_results (identity_entries data)) as H1.
  destruct (validate_and_calculate_protobuf_payload_size (identity_entries data))
    as [r1 n1].
  cbn [fst] in H1. destruct (success r1) eqn:E1; cbn [negb]; [|exact H1].
  destruct (resources data) as [res|].
  - pose proof (validate_results res) as H2.
    destruct (validate_and_calculate_protobuf_payload_size res) as [r2 n2].
    cbn [fst] in H2. destruct (success r2); cbn [negb]; [|exact H2].
    destruct calloc_ok; cbn [negb fst]; unfold encode_results; rewrite !elem_of_cons;
      auto 10.
  - rewrite E1. cbn [negb].
    destruct calloc_ok; cbn [negb fst]; unfold encode_results; rewrite !elem_of_cons;
      auto 10.
Qed.

Lemma publish_in_results (env : syscalls) (data : option otel_process_ctx_data)
    (w : process) :
  (otel_process_ctx_publish env data w).1 ∈ publish_results.
Proof.
  unfold publish_results. destruct data as [data|]; [|left].
  pose proof (encode_in_results (calloc_ok env) data) as Henc.
  assert (Hs : succeeded ∈ encode_results) by left.
  destruct (publish_cases env data w)
    as [[_ ->]|[(_ & _ & [(r' & He & ->)|(r' & e & _ & ->)])
               |(_ & _ & [(r' & He & ->)|[(r' & e & _ & _ & ->)
                                        |(r' & e & r'' & tail & _ & _ & -> & Hr & _)]])]];
    cbn [fst]; rewrite ?He in Henc; cbn [fst] in Henc;
    rewrite !elem_of_app; rewrite ?elem_of_cons; auto 10.
Qed.

(** X11: publish returns one of twelve results (success, the two errors of
    its own guards, the four of the encoder and the five of the mapping
    part). The error of line 134, "Failed to drop previous context", and the
    error of the guard of update at line 242 are never returned: the drop at
    line 133 is only reached when no context is published by this process,
    where it cannot fail, and update is only called on a published context
    with a non-NULL attribute object. *)
Theorem publish_unreachable_errors (env : syscalls)
    (data : option otel_process_ctx_data) (w : process) :
  let r := (otel_process_ctx_publish env data w).1 in
  r ∈ publish_results
  /\ message_contains "Failed to drop previous context" r = false
  /\ message_contains "Unexpected" r = false.
Proof.
  cbv zeta. pose proof (publish_in_results env data w) as Hin.
  split; [exact Hin|].
  assert (Hall : Forall (fun r => message_contains "Failed to drop previous context" r
                                  = false
                                  /\ message_contains "Unexpected" r = false)
                        publish_results)
    by (repeat constructor).
  rewrite Forall_forall in Hall. apply (Hall _ Hin).
Qed.

(** ** Regions *)

Lemma drop_current_regions (env : syscalls) (w : process) (i : nat) :
  (ctx_is_published (published_state w) (pid w) = true ->
   mapping (published_state w) <> MapAt i) ->
  regions (otel_process_ctx_drop_current env w).2 !! i = regions w !! i.
Proof.
  intros Hne. unfold otel_process_ctx_drop_current, munmap.
  change (pid (set_published_state zero_state w)) with (pid w).
  destruct (ctx_is_published (published_state w) (pid w)); [|reflexivity].
  destruct (munmap_ok env); [|reflexivity].
  specialize (Hne eq_refl).
  destruct (mapping (published_state w)) as [| |r0]; try reflexivity.
  cbn [snd set_heap set_regions regions]. apply list_lookup_insert_ne. congruence.
Qed.

(** X14: a call only ever writes to, or unmaps, the region that holds the
    context published by the current process. Every other region is left
    exactly as it was; in particular a forked child, or a process whose
    singleton went stale, never touches the mapping a parent published. *)
Theorem calls_leave_other_regions (c : api_call) (w : process) (i : nat) :
  (ctx_is_published (published_state w) (pid w) = true ->
   mapping (published_state w) <> MapAt i) ->
  (i < length (regions w))%nat ->
  regions (api_run c w) !! i = regions w !! i.
Proof.
  intros Hne Hi. destruct c as [env [data|]|env]; cbn [api_run];
    [|reflexivity|apply drop_current_regions, Hne].
  destruct (publish_cases env data w)
    as [[_ ->]|[(_ & Hp & [(r' & _ & ->)|(r' & e & _ & ->)])
               |(_ & _ & [(r' & _ & ->)|[(r' & e & _ & _ & ->)
                                        |(r' & e & r'' & tail & _ & _ & -> & _)]])]];
    cbn [snd]; try reflexivity.
  - apply updated_regions, Hne, Hp.
  - unfold freshly_published. cbn [regions]. apply lookup_app_l, Hi.
  - unfold publish_undone. cbn [regions]. apply lookup_app_l, Hi.
Qed.

Lemma calls_leave_other_regions_witness :
  regions (api_run (CallPublish (good_env 2) (Some updated_data))
             (set_published_state zero_state published_sample)) !! 0%nat
  = regions published_sample !! 0%nat.
Proof.
  apply (calls_leave_other_regions (CallPublish (good_env 2) (Some updated_data))
           (set_published_state zero_state published_sample) 0).
  - discriminate.
  - vm_compute. lia.
Defined.

(** X15: publish on a context published by this process works in place:
    the mapping stays where it is (same pointer, same publisher pid, no
    region mapped or unmapped), and the signature and the version in its
    header are left as they were, whether the call succeeds or fails. *)
Theorem update_is_in_place (env : syscalls) (data : option otel_process_ctx_data)
    (w : process) :
  ctx_is_published (published_state w) (pid w) = true ->
  let w' := (otel_process_ctx_publish env data w).2 in
  mapping (published_state w') = mapping (published_state w)
  /\ publisher_pid (published_state w') = publisher_pid (published_state w)
  /\ length (regions w') = length (regions w)
  /\ (forall m, load_mapping w = Some m ->
        exists m', load_mapping w' = Some m'
                   /\ otel_process_ctx_signature m' = otel_process_ctx_signature m
                   /\ otel_process_ctx_version m' = otel_process_ctx_version m).
Proof.
  intros Hp. cbv zeta.
  assert (Hsame : mapping (published_state w) = mapping (published_state w)
                  /\ publisher_pid (published_state w) = publisher_pid (published_state w)
                  /\ length (regions w) = length (regions w)
                  /\ (forall m, load_mapping w = Some m ->
                        exists m', load_mapping w = Some m'
                          /\ otel_process_ctx_signature m' = otel_process_ctx_signature m
                          /\ otel_process_ctx_version m' = otel_process_ctx_version m))
    by (repeat split; eauto).
  destruct data as [data|]; [|exact Hsame].
  destruct (publish_cases env data w)
    as [[_ ->]|[(_ & _ & [(r' & _ & ->)|(r' & e & _ & ->)])
               |(_ & Hp' & _)]];
    cbn [snd]; try exact Hsame; try congruence.
  rewrite updated_published_state, updated_regions_length, updated_load.
  cbn [mapping publisher_pid]. repeat split.
  intros m ->. eexists. split; [reflexivity|]. split; reflexivity.
Qed.

Lemma update_is_in_place_witness :
  mapping (published_state
             (otel_process_ctx_publish (good_env 2) (Some updated_data)
                published_sample).2)
  = mapping (published_state published_sample).
Proof.
  refine (proj1 (update_is_in_place (good_env 2) (Some updated_data)
                   published_sample _)).
  vm_compute. reflexivity.
Defined.

(** X16: after any sequence of calls and forks, drop_current leaves no
    heap block live and the singleton all-zero; when [munmap] succeeds it
    returns true and the region that held the context published by this
    process is unmapped. *)
Theorem drop_current_releases_everything (getpid : Z) (env : syscalls) (w : process) :
  rtc api_steps_to (initial_process getpid) w ->
  let r := otel_process_ctx_drop_current env w in
  (forall p, heap_lookup p (heap r.2) = None)
  /\ published_state r.2 = zero_state
  /\ (munmap_ok env = true ->
      r.1 = true
      /\ forall i, ctx_is_published (published_state w) (pid w) = true ->
                   mapping (published_state w) = MapAt i ->
                   regions r.2 !! i = Some None).
Proof.
  intros Hr. cbv zeta. pose proof (no_leak_reachable getpid w Hr) as Hn.
  destruct (drop_current_state env w) as (Hs & Hh & _).
  split; [|split; [exact Hs|]].
  - intros p. rewrite Hh. apply no_leak_freed, Hn.
  - intros Hm. unfold otel_process_ctx_drop_current, munmap.
    change (pid (set_published_state zero_state w)) with (pid w). rewrite Hm.
    destruct (ctx_is_published (published_state w) (pid w)) eqn:Hp.
    + destruct (header_valid_reachable getpid w Hr Hp) as (m & _ & Hl & _).
      unfold load_mapping in Hl.
      destruct (mapping (published_state w)) as [| |r0] eqn:Em; try discriminate.
      cbn [fst snd set_heap set_regions regions]. split; [reflexivity|].
      intros i _ [= <-]. apply list_lookup_insert_eq.
      destruct (regions w !! r0) eqn:E; [|discriminate].
      apply lookup_lt_Some in E. exact E.
    + split; [reflexivity|]. discriminate.
Qed.

Lemma drop_current_releases_everything_witness :
  (otel_process_ctx_drop_current (good_env 3) published_sample).1 = true.
Proof.
  refine (proj1 (proj2 (proj2 (drop_current_releases_everything 42 (good_env 3)
                                 published_sample _)) eq_refl)).
  apply rtc_once. left. exists (CallPublish (good_env 1) (Some sample_data)).
  reflexivity.
Defined.

(** * The self-reader *)

(** ** Finding the mapping *)

Lemma hex_digit_value_hex_char (d : Z) :
  0 <= d < 16 -> hex_digit_value (hex_char d) = Some d.
Proof.
  intros Hd. unfold hex_digit_value, hex_char.
  rewrite byte_to_Z_to_char.
  destruct (Z.ltb_spec d 10).
  - rewrite Z.mod_small by lia.
    destruct (Z.leb_spec 48 (48 + d)); [|lia].
    destruct (Z.leb_spec (48 + d) 57); [|lia]. cbn [andb]. f_equal. lia.
  - rewrite Z.mod_small by lia.
    destruct (Z.leb_spec 48 (87 + d)); [|lia].
    destruct (Z.leb_spec (87 + d) 57); [lia|]. cbn [andb].
    destruct (Z.leb_spec 97 (87 + d)); [|lia].
    destruct (Z.leb_spec (87 + d) 102); [|lia]. cbn [andb]. f_equal. lia.
Qed.

Lemma hex_digits_value_chars (digits : list Z) (rest : list byte) (acc : Z) :
  Forall (fun d => 0 <= d < 16) digits ->
  hex_digits_value ((hex_char <$> digits) ++ rest) acc
  = hex_digits_value rest (foldl (fun acc d => acc * 16 + d) acc digits).
Proof.
  intros H. revert acc. induction H as [|d digits Hd _ IH]; intros acc; [reflexivity|].
  cbn [fmap list_fmap app hex_digits_value foldl].
  rewrite hex_digit_value_hex_char by exact Hd. apply IH.
Qed.

Lemma hex_char_not_space (d : Z) : 0 <= d < 16 -> isspace (hex_char d) = false.
Proof.
  intros Hd. unfold isspace, hex_char. rewrite byte_to_Z_to_char.
  destruct (Z.ltb_spec d 10); rewrite Z.mod_small by lia;
    repeat match goal with
           | |- context [?a =? ?b] => destruct (Z.eqb_spec a b); try lia
           | |- context [?a <=? ?b] => destruct (Z.leb_spec a b); try lia
           end; reflexivity.
Qed.

Lemma hex_char_code (d : Z) :
  0 <= d < 16 ->
  byte_to_Z (hex_char d) = if d <? 10 then 48 + d else 87 + d.
Proof.
  intros Hd. unfold hex_char. rewrite byte_to_Z_to_char.
  destruct (Z.ltb_spec d 10); apply Z.mod_small; lia.
Qed.

Lemma hex_value_nonneg (digits : list Z) (acc : Z) :
  Forall (fun d => 0 <= d < 16) digits -> 0 <= acc ->
  0 <= foldl (fun acc d => acc * 16 + d) acc digits.
Proof.
  intros H. revert acc. induction H as [|d digits Hd _ IH]; intros acc Hacc; [exact Hacc|].
  cbn [foldl]. apply IH. lia.
Qed.

(** X17: on a line that starts with the hexadecimal digits of an address
    followed by a dash, as the lines of [/proc/self/maps] do,
    [parse_mapping_start] returns that address, and NULL when the address
    is 0 or is 2^64 - 1 or more. *)
Theorem parse_mapping_start_of_line (digits : list Z) (rest : list byte) :
  Forall (fun d => 0 <= d < 16) digits ->
  digits <> [] ->
  parse_mapping_start ((hex_char <$> digits) ++ "-"%byte :: rest)
  = if (0 <? hex_value digits) && (hex_value digits <? ULLONG_MAX)
    then hex_value digits else 0.
Proof.
  intros Hall Hne. unfold parse_mapping_start, strtoull16.
  destruct digits as [|d digits]; [contradiction|].
  apply Forall_cons in Hall as [Hd Hall].
  cbn [fmap list_fmap app skip_spaces]. rewrite hex_char_not_space by exact Hd.
  assert (Hcode := hex_char_code d Hd).
  assert (Hminus : hex_char d <> "-"%byte).
  { intros E. rewrite E in Hcode. change (byte_to_Z "-"%byte) with 45 in Hcode.
    destruct (Z.ltb_spec d 10); lia. }
  assert (Hplus : hex_char d <> "+"%byte).
  { intros E. rewrite E in Hcode. change (byte_to_Z "+"%byte) with 43 in Hcode.
    destruct (Z.ltb_spec d 10); lia. }
  rewrite (decide_False _ _ Hminus), (decide_False _ _ Hplus).
  assert (Hprefix :
    match (hex_char <$> digits) ++ "-"%byte :: rest with
    | cx :: rest0 =>
        if bool_decide (hex_char d = "0"%byte)
           && (bool_decide (cx = "x"%byte) || bool_decide (cx = "X"%byte))
        then rest0 else hex_char d :: (hex_char <$> digits) ++ "-"%byte :: rest
    | [] => hex_char d :: (hex_char <$> digits) ++ "-"%byte :: rest
    end = hex_char d :: (hex_char <$> digits) ++ "-"%byte :: rest).
  { destruct digits as [|d2 digits]; cbn [fmap list_fmap app].
    - rewrite andb_false_r. reflexivity.
    - apply Forall_cons in Hall as [Hd2 _].
      assert (Hcode2 := hex_char_code d2 Hd2).
      rewrite (bool_decide_eq_false_2 (hex_char d2 = "x"%byte)),
        (bool_decide_eq_false_2 (hex_char d2 = "X"%byte)).
      + rewrite andb_false_r. reflexivity.
      + intros E. rewrite E in Hcode2. change (byte_to_Z "X"%byte) with 88 in Hcode2.
        destruct (Z.ltb_spec d2 10); lia.
      + intros E. rewrite E in Hcode2. change (byte_to_Z "x"%byte) with 120 in Hcode2.
        destruct (Z.ltb_spec d2 10); lia. }
  rewrite Hprefix. clear Hprefix.
  change (hex_char d :: (hex_char <$> digits) ++ "-"%byte :: rest)
    with ((hex_char <$> (d :: digits)) ++ "-"%byte :: rest).
  rewrite hex_digits_value_chars by (constructor; assumption).
  cbn [hex_digits_value]. change (hex_digit_value "-"%byte) with (@None Z). cbv iota.
  fold (hex_value (d :: digits)).
  pose proof (hex_value_nonneg (d :: digits) 0 ltac:(constructor; assumption) ltac:(lia))
    as Hpos.
  fold (hex_value (d :: digits)) in Hpos. generalize dependent (hex_value (d :: digits)).
  intros v Hv. unfold ULLONG_MAX.
  destruct (Z.ltb_spec 18446744073709551615 v).
  - cbn [orb Z.eqb Pos.eqb]. destruct (Z.ltb_spec 0 v); [|lia].
    destruct (Z.ltb_spec v 18446744073709551615); [lia|]. reflexivity.
  - destruct (Z.eqb_spec v 0) as [->|]; [reflexivity|].
    destruct (Z.eqb_spec v 18446744073709551615) as [->|]; [reflexivity|].
    destruct (Z.ltb_spec 0 v); [|lia].
    destruct (Z.ltb_spec v 18446744073709551615); [|lia]. reflexivity.
Qed.

Lemma parse_mapping_start_of_line_witness :
  parse_mapping_start
    (bytes_of "7f12a000-7f12b000 rw-p 00000000 00:01 2049 /memfd:OTEL_CTX (deleted)")
  = 0x7f12a000.
Proof.
  apply (parse_mapping_start_of_line [7; 15; 1; 2; 10; 0; 0; 0]
           (bytes_of "7f12b000 rw-p 00000000 00:01 2049 /memfd:OTEL_CTX (deleted)")).
  - repeat constructor; lia.
  - discriminate.
Defined.

Lemma fgets_line (n : nat) (body rest : list byte) :
  "010"%byte ∉ body -> (length body < n)%nat ->
  fgets n (body ++ "010"%byte :: rest) = (body ++ ["010"%byte], rest).
Proof.
  revert n. induction body as [|c body IH]; intros n Hnl Hlen.
  - destruct n; [cbn [length] in Hlen; lia|]. cbn [app fgets].
    rewrite decide_True by reflexivity. reflexivity.
  - destruct n; [cbn [length] in Hlen; lia|]. cbn [app fgets].
    apply not_elem_of_cons in Hnl as [Hc Hnl].
    rewrite decide_False by congruence.
    rewrite IH by (cbn [length] in Hlen; assumption || lia). reflexivity.
Qed.

Lemma fgets_maps_line (line rest : list byte) :
  maps_line line -> fgets (LINE_SIZE - 1) (line ++ rest) = (line, rest).
Proof.
  intros (body & -> & Hnl & Hlen). rewrite <- app_assoc. cbn [app].
  apply fgets_line; [exact Hnl|]. rewrite length_app in Hlen. cbn [length] in Hlen. lia.
Qed.

Lemma maps_line_nonempty (line : list byte) :
  maps_line line -> exists c tl, line = c :: tl.
Proof.
  intros (body & -> & _). destruct body as [|c body]; cbn [app]; eauto.
Qed.

Lemma scan_maps_no_match (lines : list (list byte)) (fuel : nat) :
  Forall (fun l => maps_line l /\ is_process_ctx l = false) lines ->
  scan_maps fuel (concat lines) = 0.
Proof.
  intros H. revert fuel. induction H as [|l lines [Hl Hno] _ IH]; intros fuel.
  - destruct fuel; reflexivity.
  - destruct fuel; [reflexivity|]. cbn [concat scan_maps].
    destruct (maps_line_nonempty l Hl) as (c & tl & E).
    destruct (l ++ concat lines) eqn:Es; [rewrite E in Es; discriminate|].
    rewrite <- Es, (fgets_maps_line l _ Hl), Hno. apply IH.
Qed.

Lemma scan_maps_first_match (before : list (list byte)) (line after : list byte)
    (fuel : nat) :
  Forall (fun l => maps_line l /\ is_process_ctx l = false) before ->
  maps_line line -> is_process_ctx line = true ->
  (length (concat before ++ line ++ after) <= fuel)%nat ->
  scan_maps fuel (concat before ++ line ++ after) = parse_mapping_start line.
Proof.
  intros H Hline Hyes. revert fuel.
  induction H as [|l lines [Hl Hno] _ IH]; intros fuel Hf.
  - cbn [concat app] in *. destruct (maps_line_nonempty line Hline) as (c & tl & E).
    destruct fuel; [rewrite E in Hf; cbn [app length] in Hf; lia|].
    cbn [scan_maps].
    destruct (line ++ after) eqn:Es; [rewrite E in Es; discriminate|].
    rewrite <- Es, (fgets_maps_line line _ Hline), Hyes. reflexivity.
  - cbn [concat] in *. rewrite <- app_assoc in *.
    destruct (maps_line_nonempty l Hl) as (c & tl & E).
    assert (Hf' : (S (length (concat lines ++ line ++ after)) <= fuel)%nat).
    { rewrite length_app in Hf. rewrite E in Hf. cbn [length] in Hf. lia. }
    destruct fuel; [lia|]. cbn [scan_maps].
    destruct (l ++ concat lines ++ line ++ after) eqn:Es; [rewrite E in Es; discriminate|].
    rewrite <- Es, (fgets_maps_line l _ Hl), Hno. apply IH. lia.
Qed.

(** X18: [try_finding_mapping] returns what [parse_mapping_start] makes of
    the first line of [/proc/self/maps] that contains
    "[anon_shmem:OTEL_CTX]" or "/memfd:OTEL_CTX": the lines before it are
    passed over and the lines after it are not looked at. It returns NULL
    when no line contains either marker and when the file cannot be
    opened. *)
Theorem try_finding_mapping_first_match (before : list (list byte))
    (line after : list byte) :
  Forall (fun l => maps_line l /\ is_process_ctx l = false) before ->
  (maps_line line -> is_process_ctx line = true ->
   try_finding_mapping (Some (concat before ++ line ++ after))
   = parse_mapping_start line)
  /\ try_finding_mapping (Some (concat before)) = 0
  /\ try_finding_mapping None = 0.
Proof.
  intros H. split; [|split; [|reflexivity]].
  - intros Hline Hyes. apply scan_maps_first_match; auto.
  - apply scan_maps_no_match, H.
Qed.

Lemma try_finding_mapping_first_match_witness :
  try_finding_mapping (Some sample_maps) = parse_mapping_start sample_maps_line.
Proof.
  assert (Hline : forall body, bool_decide ("010"%byte ∉ body) = true ->
                    (length (body ++ ["010"%byte]) <? LINE_SIZE)%nat = true ->
                    maps_line (body ++ ["010"%byte])).
  { intros body H1 H2. exists body. split; [reflexivity|].
    split; [apply bool_decide_eq_true in H1; exact H1|apply Nat.ltb_lt, H2]. }
  refine (proj1 (try_finding_mapping_first_match
    [bytes_of "55d0c0a00000-55d0c0a01000 r--p 00000000 08:01 1234 /usr/bin/example_ctx"
     ++ ["010"%byte]]
    sample_maps_line
    (bytes_of "7ffc1000-7ffc2000 rw-p 00000000 00:00 0 [stack]" ++ ["010"%byte]) _) _ _).
  - constructor; [|constructor]. split; [|vm_compute; reflexivity].
    apply Hline; vm_compute; reflexivity.
  - apply Hline; vm_compute; reflexivity.
  - vm_compute. reflexivity.
Defined.

(** ** The decoder on the heap: the loop *)

Lemma read_keyvalue_advances (mem : list byte) (p e : nat) (kb vb : list byte) :
  match read_keyvalue mem p e kb vb with
  | Parsed kv => (p < kv_ptr kv)%nat /\ key_found kv = true /\ value_found kv = true
  | Rejected => True
  | OutOfFuel => False
  end.
Proof.
  unfold read_keyvalue.
  destruct (read_protobuf_tag mem p e) as [[p1 f1]|] eqn:Et; [|exact I].
  apply read_protobuf_tag_advances in Et.
  destruct (negb (f1 =? 1)); [exact I|].
  destruct (read_protobuf_varint mem p1 e) as [[p2 v]|] eqn:Ev; [|exact I].
  apply read_protobuf_varint_advances in Ev as [Ev Hv].
  destruct (Nat.ltb_spec e (p2 + Z.to_nat v)); [exact I|].
  match goal with |- context [parse_keyvalue ?f ?m ?e0 ?s0] =>
    pose proof (parse_keyvalue_fuel f m e0 s0) as Hkv;
    destruct (parse_keyvalue f m e0 s0) as [kv| |]
  end; try exact I.
  - cbn [kv_ptr] in Hkv. specialize (Hkv ltac:(lia)).
    destruct (key_found kv) eqn:E1, (value_found kv) eqn:E2; cbn [negb orb];
      try exact I.
    repeat split; (assumption || lia).
  - cbn [kv_ptr] in Hkv. apply Hkv. lia.
Qed.

Lemma parse_attributes_on_heap_fuel (fuel : nat) :
  forall (mem : list byte) (end_ptr : nat) (s : heap_decoder),
  (end_ptr - hd_ptr s <= fuel)%nat ->
  parse_attributes_on_heap fuel mem end_ptr s <> HeapOutOfFuel.
Proof.
  induction fuel as [|fuel IH]; intros mem end_ptr s Hf; cbn [parse_attributes_on_heap];
    destruct (Nat.leb_spec end_ptr (hd_ptr s)); try lia; try discriminate.
  pose proof (read_keyvalue_advances mem (hd_ptr s) end_ptr (hd_key_buffer s)
                (hd_value_buffer s)) as Hkv.
  destruct (read_keyvalue _ _ _ _ _) as [kv| |]; [|discriminate|contradiction].
  destruct (store_keyvalue _ _ _); [|discriminate].
  apply IH. cbn [hd_ptr]. lia.
Qed.

(** The first part of the body on a well-formed record. *)
Lemma read_keyvalue_record (r : kv_record) (mem : list byte) (p e : nat)
    (kb vb rest : list byte) :
  kv_record_ok r = true ->
  drop p mem = kv_record_bytes r ++ rest ->
  (p + length (kv_record_bytes r) <= e)%nat ->
  exists kraw vraw,
    last_key (rec_items r) None = Some kraw
    /\ last_value (rec_items r) None = Some vraw
    /\ read_keyvalue mem p e kb vb
       = Parsed {| kv_ptr := (p + length (kv_record_bytes r))%nat;
                   key_found := true; value_found := true;
                   key_buffer := kraw; value_buffer := vraw |}.
Proof.
  intros Hr Hd He. unfold kv_record_ok in Hr.
  apply andb_true_iff in Hr as [Hr Hval]. apply andb_true_iff in Hr as [Hr Hkey].
  apply andb_true_iff in Hr as [Hr Hitems]. apply andb_true_iff in Hr as [Hr Hsz].
  apply andb_true_iff in Hr as [[Hw Hfn]%tag_ok_inv Hvok].
  apply Z.eqb_eq in Hsz. unfold strlen in Hsz.
  destruct (last_key (rec_items r) None) as [k|] eqn:Ek; [|discriminate].
  destruct (last_value (rec_items r) None) as [v|] eqn:Ev; [|discriminate].
  exists k, v. split; [reflexivity|]. split; [reflexivity|].
  unfold kv_record_bytes in *. rewrite !length_app in *. cbn [length] in *.
  rewrite <- !app_assoc in Hd. cbn [app] in Hd.
  unfold read_keyvalue.
  rewrite (read_protobuf_tag_len _ _ _ _ _ Hd) by (lia || assumption).
  rewrite Hfn. cbn [Z.eqb Pos.eqb negb].
  destruct (peek_drop _ _ _ _ Hd) as [_ Hd1].
  rewrite (read_protobuf_varint_at _ _ _ _ _ Hd1 Hvok) by lia.
  rewrite Hsz, Nat2Z.id.
  set (p2 := (S p + length (varint_tok_bytes (rec_len r)))%nat) in *.
  destruct (Nat.ltb_spec e (p2 + length (kv_items_bytes (rec_items r)))); [lia|].
  assert (Hd2 : drop p2 mem = kv_items_bytes (rec_items r) ++ rest).
  { unfold p2. rewrite <- drop_drop, Hd1, drop_app_length. reflexivity. }
  rewrite (parse_keyvalue_items (rec_items r) _ mem _ _ rest);
    [|exact Hitems|exact Hd2|reflexivity|lia].
  match goal with |- context [foldl apply_item ?s0 _] => set (s0' := s0) end.
  destruct (foldl_apply_item_state (rec_items r) s0') as (K1 & K2 & K3 & K4 & K5).
  rewrite K1, K2. cbn [key_found value_found s0']. rewrite Ek, Ev. cbn [is_set negb orb].
  f_equal. destruct (foldl apply_item s0' (rec_items r)) as [q kf vf kbuf vbuf].
  cbn [key_found value_found key_buffer value_buffer kv_ptr] in *.
  rewrite Ek in *. rewrite Ev in *. cbn [is_set default from_option id s0' kv_ptr] in *.
  subst. f_equal. unfold p2. lia.
Qed.

Lemma parse_attributes_on_heap_done (fuel : nat) (mem : list byte) (end_ptr : nat)
    (s : heap_decoder) :
  (end_ptr <= hd_ptr s)%nat -> parse_attributes_on_heap fuel mem end_ptr s = HeapParsed s.
Proof.
  intros H. destruct fuel; cbn [parse_attributes_on_heap];
    destruct (Nat.leb_spec end_ptr (hd_ptr s)); (reflexivity || lia).
Qed.

(** The loop on a payload made of well-formed records: the second part of
    the body, record after record. *)
Lemma parse_attributes_on_heap_records (recs : list kv_record) :
  forall (fuel : nat) (mem : list byte) (end_ptr : nat) (s : heap_decoder)
         (rest : list byte),
  forallb kv_record_ok recs = true ->
  drop (hd_ptr s) mem = records_bytes recs ++ rest ->
  end_ptr = (hd_ptr s + length (records_bytes recs))%nat ->
  (length (records_bytes recs) <= fuel)%nat ->
  heap_parse_stored (parse_attributes_on_heap fuel mem end_ptr s)
  = Some (store_all (record_buffers <$> recs) (hd_out s)).
Proof.
  induction recs as [|r recs IH]; intros fuel mem end_ptr s rest Hok Hd He Hf.
  - rewrite parse_attributes_on_heap_done; [reflexivity|].
    change (records_bytes []) with (@nil byte) in He. cbn [length] in He. lia.
  - cbn [forallb] in Hok. apply andb_true_iff in Hok as [Hr Hok].
    rewrite records_bytes_cons in *. rewrite length_app in He, Hf.
    pose proof (kv_record_bytes_length r) as Hlen.
    destruct fuel as [|fuel]; [lia|].
    rewrite <- app_assoc in Hd.
    destruct (read_keyvalue_record r mem (hd_ptr s) end_ptr (hd_key_buffer s)
                (hd_value_buffer s) _ Hr Hd ltac:(lia)) as (k & v & Ek & Ev & Hkv).
    cbn [parse_attributes_on_heap fmap list_fmap store_all].
    destruct (Nat.leb_spec end_ptr (hd_ptr s)); [lia|].
    rewrite Hkv. cbn [key_buffer value_buffer kv_ptr].
    unfold record_buffers. rewrite Ek, Ev. cbn [default from_option id].
    destruct (store_keyvalue k v (hd_out s)) as [o|o]; [|reflexivity].
    match goal with
    | |- heap_parse_stored (parse_attributes_on_heap _ _ _ ?s1) = _ =>
        apply (IH fuel mem end_ptr s1 rest Hok); cbn [hd_ptr hd_out]
    end.
    + rewrite <- drop_drop, Hd, drop_app_length. reflexivity.
    + lia.
    + lia.
Qed.

Lemma decode_payload_on_heap_records (recs : list kv_record) (kb vb : list byte)
    (a : allocator) :
  forallb kv_record_ok recs = true ->
  decode_payload_on_heap (records_bytes recs) (length (records_bytes recs)) kb vb a
  = let '(array, a) := calloc_pointers resource_capacity a in
    let data_out := with_resources_ptr array empty_data_ptrs in
    if decide (array = NULL) then (false, data_out, a)
    else decode_result
           (store_all (record_buffers <$> recs)
              {| out_data := data_out; out_index := 0; out_allocator := a |}).
Proof.
  intros Hok. unfold decode_payload_on_heap.
  destruct (calloc_pointers resource_capacity a) as [array a1].
  destruct (decide (array = NULL)); [reflexivity|].
  match goal with
  | |- context [parse_attributes_on_heap ?f ?m ?e ?s0] =>
      pose proof (parse_attributes_on_heap_records recs f m e s0 [] Hok) as H;
      destruct (parse_attributes_on_heap f m e s0) as [s1|o|]
  end; cbn [hd_ptr hd_out heap_parse_stored] in H;
    specialize (H ltac:(rewrite app_nil_r; reflexivity) eq_refl (Nat.le_refl _));
    try discriminate; injection H as <-; reflexivity.
Qed.

(** ** The decoder on the heap: one pair *)

Lemma malloc_cases (b : block) (a : allocator) :
  (exists rest, outcomes a = false :: rest
                /\ malloc b a = (NULL, {| blocks := blocks a; outcomes := rest |}))
  \/ malloc b a = (S (length (blocks a)),
                   {| blocks := blocks a ++ [Some b]; outcomes := tail (outcomes a) |}).
Proof.
  unfold malloc, alloc. destruct (outcomes a) as [|[|] rest]; [right|right|left]; eauto.
Qed.

Lemma malloc_succeeds (b : block) (a : allocator) :
  Forall (eq true) (outcomes a) ->
  malloc b a = (S (length (blocks a)),
                {| blocks := blocks a ++ [Some b]; outcomes := tail (outcomes a) |}).
Proof.
  intros H. unfold malloc, alloc. destruct (outcomes a) as [|[|] rest]; try reflexivity.
  apply Forall_cons in H as [[=] _].
Qed.

Lemma Forall_tail {A : Type} (P : A -> Prop) (l : list A) :
  Forall P l -> Forall P (tail l).
Proof. intros H. destruct H; [constructor|assumption]. Qed.

Lemma identity_keys_NoDup : NoDup identity_keys.
Proof. apply (bool_decide_unpack _). vm_compute. reflexivity. Qed.

Lemma set_identity_field_spec {Str Arr : Type} (key : list byte) (x : Str)
    (d : otel_process_ctx_data_of Str Arr) :
  match set_identity_field key x d with
  | Some d' =>
      exists i, identity_keys !! i = Some key
                /\ identity_fields d' = <[i := x]> (identity_fields d)
                /\ resources d' = resources d
                /\ get_identity_field key d = identity_fields d !! i
  | None => is_identity_key key = false /\ get_identity_field key d = None
  end.
Proof.
  unfold set_identity_field, get_identity_field.
  repeat (destruct (decide (key = _)) as [->|?];
          [first [ exists 0%nat; repeat split; reflexivity
                 | exists 1%nat; repeat split; reflexivity
                 | exists 2%nat; repeat split; reflexivity
                 | exists 3%nat; repeat split; reflexivity
                 | exists 4%nat; repeat split; reflexivity
                 | exists 5%nat; repeat split; reflexivity
                 | exists 6%nat; repeat split; reflexivity ]|]).
  split; [|reflexivity]. unfold is_identity_key. apply bool_decide_eq_false.
  unfold identity_keys. rewrite !not_elem_of_cons. repeat split; try assumption.
  apply not_elem_of_nil.
Qed.

Lemma get_identity_field_index {Str Arr : Type} (key : list byte) (i : nat)
    (d : otel_process_ctx_data_of Str Arr) :
  identity_keys !! i = Some key -> get_identity_field key d = identity_fields d !! i.
Proof.
  intros Hi. destruct i as [|[|[|[|[|[|[|i]]]]]]]; try discriminate;
    injection Hi as <-; reflexivity.
Qed.

(** The dispatch of the decoder, with the strcmp chain apart. *)
Lemma dispatch_set_identity_field (key value : list byte) (d : otel_process_ctx_data) :
  dispatch key value d
  = match set_identity_field key (Some value) d with
    | Some d' => Some d'
    | None =>
        if (resource_capacity <=? length (default [] (resources d)) + 2)%nat then None
        else Some (data_with_resources (Some (default [] (resources d) ++ [key; value])) d)
    end.
Proof.
  unfold dispatch, set_identity_field.
  destruct (decide (key = bytes_of "deployment.environment.name")); [reflexivity|].
  destruct (decide (key = bytes_of "service.instance.id")); [reflexivity|].
  destruct (decide (key = bytes_of "service.name")); [reflexivity|].
  destruct (decide (key = bytes_of "service.version")); [reflexivity|].
  destruct (decide (key = bytes_of "telemetry.sdk.language")); [reflexivity|].
  destruct (decide (key = bytes_of "telemetry.sdk.version")); [reflexivity|].
  destruct (decide (key = bytes_of "telemetry.sdk.name")); reflexivity.
Qed.

Lemma heap_lookup_take (p n : nat) (h : list (option block)) :
  (p <= n)%nat -> heap_lookup p (take n h) = heap_lookup p h.
Proof.
  intros Hp. destruct p as [|i]; [reflexivity|]. cbn [heap_lookup].
  rewrite lookup_take_lt by lia. reflexivity.
Qed.

Lemma heap_lookup_old (p : nat) (h h' : list (option block)) (x : block) :
  take (length h) h' = h -> heap_lookup p h = Some x -> heap_lookup p h' = Some x.
Proof.
  intros Ht Hl. pose proof (heap_lookup_bound _ _ _ Hl) as Hb.
  rewrite <- Ht, heap_lookup_take in Hl by lia. exact Hl.
Qed.

Lemma heap_lookup_store_cell (p array index q : nat) (h : list (option block)) :
  p <> array -> heap_lookup p (store_cell array index q h) = heap_lookup p h.
Proof.
  intros Hne. destruct array as [|j]; [reflexivity|]. destruct p as [|i]; [reflexivity|].
  cbn [heap_lookup store_cell]. rewrite list_lookup_alter_ne by congruence. reflexivity.
Qed.

Lemma store_cell_lookup (array index q : nat) (h : list (option block))
    (cells : list nat) :
  heap_lookup array h = Some (Pointers cells) ->
  heap_lookup array (store_cell array index q h) = Some (Pointers (<[index := q]> cells)).
Proof.
  destruct array as [|j]; [discriminate|]. cbn [heap_lookup store_cell].
  rewrite list_lookup_alter_eq. destruct (h !! j) as [[[bs|cs]|]|]; try discriminate.
  intros [= ->]. reflexivity.
Qed.

Lemma store_cell_length (array index q : nat) (h : list (option block)) :
  length (store_cell array index q h) = length h.
Proof. destruct array; [reflexivity|]. apply length_alter. Qed.

Lemma take_store_cell (n array index q : nat) (h : list (option block)) :
  (n < array)%nat -> take n (store_cell array index q h) = take n h.
Proof.
  intros Hn. destruct array as [|j]; [reflexivity|]. cbn [store_cell].
  rewrite take_alter. destruct (decide (j < n)%nat); [lia|reflexivity].
Qed.

Lemma take_free (n p : nat) (h : list (option block)) :
  (n < p)%nat -> take n (free p h) = take n h.
Proof.
  intros Hn. destruct p as [|j]; [reflexivity|]. cbn [free]. apply take_insert_ge. lia.
Qed.

Lemma lookup_free_other (i p : nat) (h : list (option block)) :
  p <> S i -> free p h !! i = h !! i.
Proof.
  intros Hne. destruct p as [|j]; [reflexivity|]. cbn [free].
  apply list_lookup_insert_ne. congruence.
Qed.

Lemma field_represents_mono (h h' : list (option block)) (p : nat)
    (v : option (list byte)) :
  (forall q x, heap_lookup q h = Some x -> heap_lookup q h' = Some x) ->
  field_represents h p v -> field_represents h' p v.
Proof. intros Hm. destruct v as [s|]; cbn [field_represents]; auto. Qed.

Lemma identity_fields_length {Str Arr : Type} (d : otel_process_ctx_data_of Str Arr) :
  length (identity_fields d) = 7%nat.
Proof. reflexivity. Qed.

Lemma identity_keys_index (i : nat) (key : list byte) :
  identity_keys !! i = Some key -> (i < 7)%nat /\ is_identity_key key = true.
Proof.
  intros Hi. split; [apply lookup_lt_Some in Hi; exact Hi|].
  unfold is_identity_key. apply bool_decide_eq_true. eapply list_elem_of_lookup_2, Hi.
Qed.

Lemma insert_two_cells (ptrs : list nat) (n : nat) (key value : nat) :
  (2 <= n)%nat ->
  <[(length ptrs + 1)%nat := value]> (<[length ptrs := key]> (ptrs ++ replicate n NULL))
  = (ptrs ++ [key; value]) ++ replicate (n - 2) NULL.
Proof.
  intros Hn. destruct n as [|[|n]]; try lia. cbn [replicate].
  rewrite insert_app_r_alt, Nat.sub_diag by lia. cbn [insert list_insert].
  rewrite insert_app_r_alt by lia.
  replace (length ptrs + 1 - length ptrs)%nat with 1%nat by lia.
  cbn [insert list_insert]. rewrite <- app_assoc. cbn [app].
  replace (S (S n) - 2)%nat with n by lia. reflexivity.
Qed.

(** The invariant only looks at the blocks the decoder holds: a heap that
    agrees with the one of the decoder on those, and has nothing live
    beyond, is as good. *)
Lemma decoder_heap_frame (h0 : list (option block)) (dp : otel_process_ctx_data_ptrs)
    (idx : nat) (a a' : allocator) (d : otel_process_ctx_data) :
  decoder_heap h0 {| out_data := dp; out_index := idx; out_allocator := a |} d ->
  (forall p, (p <= length (blocks a))%nat ->
             heap_lookup p (blocks a') = heap_lookup p (blocks a)) ->
  (forall p, (length (blocks a) < p)%nat -> heap_lookup p (blocks a') = None) ->
  decoder_heap h0 {| out_data := dp; out_index := idx; out_allocator := a' |} d.
Proof.
  unfold decoder_heap. cbn [out_data out_index out_allocator].
  intros (I1 & I2 & I4 & R1 & ptrs & strings & A1 & A2 & A3 & A4 & A5 & A6 & A7)
         Hold Hnew.
  assert (Hlive : forall q x, heap_lookup q (blocks a) = Some x ->
                              heap_lookup q (blocks a') = Some x).
  { intros q x Hq. rewrite Hold; [exact Hq|].
    apply heap_lookup_bound in Hq. lia. }
  pose proof (heap_lookup_bound _ _ _ A1) as Hb.
  split; [|split; [exact I2|split; [exact I4|split]]].
  - intros p Hp. rewrite Hold by lia. apply I1, Hp.
  - eapply Forall2_impl; [exact R1|]. intros p v. apply field_represents_mono, Hlive.
  - exists ptrs, strings. split; [apply Hlive, A1|].
    split; [exact A2|]. split; [exact A3|]. split; [exact A4|].
    split; [|split; [exact A6|]].
    + intros p Hp [x Hx]. apply A5; [exact Hp|].
      destruct (decide (p <= length (blocks a))%nat) as [Hle|Hgt].
      * rewrite Hold in Hx by exact Hle. eauto.
      * rewrite Hnew in Hx by lia. discriminate.
    + eapply Forall2_impl; [exact A7|]. intros p s. apply Hlive.
Qed.

Lemma heap_lookup_beyond (p : nat) (h : list (option block)) :
  (length h < p)%nat -> heap_lookup p h = None.
Proof.
  intros Hp. destruct (heap_lookup p h) as [x|] eqn:E; [|reflexivity].
  apply heap_lookup_bound in E. lia.
Qed.

(** A key that is one of the seven: the value goes to its field. *)
Lemma store_identity_step (h0 : list (option block)) (dp dp' : otel_process_ctx_data_ptrs)
    (idx : nat) (h : list (option block)) (outs outs' : list bool)
    (d : otel_process_ctx_data) (key value : list byte) :
  decoder_heap h0 {| out_data := dp; out_index := idx;
                     out_allocator := {| blocks := h; outcomes := outs |} |} d ->
  get_identity_field key dp = Some NULL ->
  set_identity_field key (S (length h)) dp = Some dp' ->
  exists d',
    dispatch key value d = Some d'
    /\ decoder_heap h0
         {| out_data := dp'; out_index := idx;
            out_allocator := {| blocks := h ++ [Some (Bytes value)];
                                outcomes := outs' |} |} d'.
Proof.
  unfold decoder_heap. cbn [out_data out_index out_allocator blocks].
  intros (I1 & I2 & I4 & R1 & ptrs & strings & A1 & A2 & A3 & A4 & A5 & A6 & A7)
         Hfresh Hset.
  pose proof (set_identity_field_spec key (S (length h)) dp) as Hs. rewrite Hset in Hs.
  destruct Hs as (i & Hi & Hf & Hr & Hg).
  destruct (identity_keys_index i key Hi) as [Hi7 Hid].
  pose proof (set_identity_field_spec key (Some value) d) as Hp.
  destruct (set_identity_field key (Some value) d) as [d'|] eqn:Hpure;
    [|destruct Hp as [Hp _]; congruence].
  destruct Hp as (j & Hj & Hf' & Hr' & _).
  assert (j = i) by (eapply NoDup_lookup; eauto using identity_keys_NoDup). subst j.
  exists d'. split; [rewrite dispatch_set_identity_field, Hpure; reflexivity|].
  pose proof (heap_lookup_bound _ _ _ A1) as Hb.
  assert (Hlive : forall q x, heap_lookup q h = Some x ->
                              heap_lookup q (h ++ [Some (Bytes value)]) = Some x)
    by (intros q x; apply heap_lookup_alloc_old).
  rewrite Hf, Hf', Hr, Hr'.
  split; [|split; [exact I2|split; [|split]]].
  - intros p Hp. rewrite heap_lookup_alloc. destruct (decide _); [lia|]. apply I1, Hp.
  - apply Forall_insert; [exact I4|]. right. lia.
  - apply Forall2_insert.
    + eapply Forall2_impl; [exact R1|]. intros p v. apply field_represents_mono, Hlive.
    + apply heap_lookup_alloc_new.
  - exists ptrs, strings. split; [apply Hlive, A1|].
    split; [exact A2|]. split; [exact A3|]. split; [exact A4|].
    split; [|split; [exact A6|]].
    + intros p Hp [x Hx]. rewrite heap_lookup_alloc in Hx.
      destruct (decide (p = S (length h))) as [->|Hne].
      * left. apply list_elem_of_lookup. exists i.
        apply list_lookup_insert_eq. rewrite identity_fields_length. exact Hi7.
      * destruct (A5 p Hp ltac:(eauto)) as [Hin|Hin]; [|right; exact Hin].
        left. apply list_elem_of_lookup in Hin as [j Hj'].
        apply list_elem_of_lookup. exists j.
        destruct (decide (j = i)) as [->|Hji].
        -- rewrite Hg, Hj' in Hfresh. injection Hfresh as ->. unfold NULL in Hp. lia.
        -- rewrite list_lookup_insert_ne by congruence. exact Hj'.
    + eapply Forall2_impl; [exact A7|]. intros p s. apply Hlive.
Qed.

(** A key that is none of the seven: key and value go to the next two
    cells of the resources array. *)
Lemma store_resource_step (h0 : list (option block)) (dp : otel_process_ctx_data_ptrs)
    (idx : nat) (h : list (option block)) (outs outs' : list bool)
    (d : otel_process_ctx_data) (key value : list byte) :
  decoder_heap h0 {| out_data := dp; out_index := idx;
                     out_allocator := {| blocks := h; outcomes := outs |} |} d ->
  is_identity_key key = false ->
  (idx + 2 < resource_capacity)%nat ->
  exists d',
    dispatch key value d = Some d'
    /\ decoder_heap h0
         {| out_data := dp; out_index := idx + 2;
            out_allocator :=
              {| blocks :=
                   store_cell (resources dp) (idx + 1) (S (length h))
                     (store_cell (resources dp) idx (S (S (length h)))
                        ((h ++ [Some (Bytes value)]) ++ [Some (Bytes key)]));
                 outcomes := outs' |} |} d'.
Proof.
  unfold decoder_heap. cbn [out_data out_index out_allocator blocks].
  intros (I1 & I2 & I4 & R1 & ptrs & strings & A1 & A2 & A3 & A4 & A5 & A6 & A7)
         Hid Hcap.
  pose proof (Forall2_length _ _ _ A7) as Hlen.
  exists (data_with_resources (Some (strings ++ [key; value])) d). split.
  { rewrite dispatch_resource by exact Hid. rewrite A6. cbn [default from_option id].
    destruct (Nat.leb_spec resource_capacity (length strings + 2)); [lia|reflexivity]. }
  pose proof (heap_lookup_bound _ _ _ A1) as Hb.
  set (h2 := (h ++ [Some (Bytes value)]) ++ [Some (Bytes key)]).
  assert (Hlive2 : forall q x, heap_lookup q h = Some x -> heap_lookup q h2 = Some x)
    by (intros q x Hq; unfold h2; apply heap_lookup_alloc_old, heap_lookup_alloc_old, Hq).
  assert (Hval : heap_lookup (S (length h)) h2 = Some (Bytes value)).
  { unfold h2. apply heap_lookup_alloc_old, heap_lookup_alloc_new. }
  assert (Hkey : heap_lookup (S (S (length h))) h2 = Some (Bytes key)).
  { unfold h2. replace (S (length h)) with (length (h ++ [Some (Bytes value)]))
      by (rewrite length_app; cbn [length]; lia).
    apply heap_lookup_alloc_new. }
  rewrite I2. set (array := S (length h0)) in *.
  set (h4 := store_cell array (idx + 1) (S (length h))
               (store_cell array idx (S (S (length h))) h2)).
  assert (Hother : forall p, p <> array -> heap_lookup p h4 = heap_lookup p h2).
  { intros p Hp. unfold h4. rewrite !heap_lookup_store_cell by exact Hp. reflexivity. }
  assert (Hlive4 : forall q x, q <> array -> heap_lookup q h = Some x ->
                               heap_lookup q h4 = Some x).
  { intros q x Hq Hx. rewrite Hother by exact Hq. apply Hlive2, Hx. }
  split; [|split; [reflexivity|split; [exact I4|split]]].
  - intros p Hp. rewrite Hother by (unfold array; lia). unfold h2.
    rewrite !heap_lookup_alloc. rewrite length_app. cbn [length].
    repeat (destruct (decide _); [lia|]). apply I1, Hp.
  - change (identity_fields (data_with_resources (Some (strings ++ [key; value])) d))
      with (identity_fields d).
    rewrite Forall_forall in I4.
    apply Forall2_same_length_lookup. split; [reflexivity|].
    intros i p v Hp Hv.
    pose proof (Forall2_lookup_lr _ _ _ _ _ _ R1 Hp Hv) as Hrep.
    destruct v as [s|]; cbn [field_represents] in *; [|exact Hrep].
    apply Hlive4; [|exact Hrep].
    destruct (I4 p (list_elem_of_lookup_2 _ _ _ Hp)) as [->|Hgt]; [discriminate|lia].
  - exists (ptrs ++ [S (S (length h)); S (length h)]), (strings ++ [key; value]).
    split; [|split; [|split; [|split; [|split; [|split]]]]].
    + unfold h4.
      rewrite (store_cell_lookup array (idx + 1) _ _
                 (<[idx := S (S (length h))]>
                    (ptrs ++ replicate (resource_capacity - idx) NULL))).
      * unfold resource_capacity in *. rewrite <- A2.
        rewrite insert_two_cells by lia.
        replace (201 - length ptrs - 2)%nat with (201 - (length ptrs + 2))%nat by lia.
        reflexivity.
      * apply store_cell_lookup, Hlive2, A1.
    + rewrite length_app. cbn [length]. lia.
    + exact Hcap.
    + apply Forall_app. split; [exact A4|].
      constructor; [unfold array; lia|constructor; [unfold array; lia|constructor]].
    + intros p Hp [x Hx]. rewrite Hother in Hx by lia. unfold h2 in Hx.
      rewrite !heap_lookup_alloc in Hx. rewrite length_app in Hx. cbn [length] in Hx.
      destruct (decide (p = S (length h + 1))) as [->|Hn1].
      { right. apply elem_of_app. right. replace (length h + 1)%nat with (S (length h))
          by lia. left. }
      destruct (decide (p = S (length h))) as [->|Hn2].
      { right. apply elem_of_app. right. right. left. }
      destruct (A5 p Hp ltac:(eauto)) as [Hin|Hin]; [left; exact Hin|].
      right. apply elem_of_app. left. exact Hin.
    + reflexivity.
    + apply Forall2_app.
      * rewrite Forall_forall in A4.
        apply Forall2_same_length_lookup. split; [exact Hlen|].
        intros i p s Hp Hs.
        pose proof (Forall2_lookup_lr _ _ _ _ _ _ A7 Hp Hs) as Hrep.
        apply Hlive4; [|exact Hrep].
        specialize (A4 p (list_elem_of_lookup_2 _ _ _ Hp)). lia.
      * constructor; [|constructor; [|constructor]];
          rewrite Hother by (unfold array; lia); assumption.
Qed.

Lemma get_identity_field_set_other {Str Arr : Type} (key k : list byte) (x : Str)
    (d d' : otel_process_ctx_data_of Str Arr) :
  set_identity_field key x d = Some d' -> k <> key ->
  get_identity_field k d' = get_identity_field k d.
Proof.
  intros Hset Hne. pose proof (set_identity_field_spec key x d) as Hs.
  rewrite Hset in Hs. destruct Hs as (i & Hi & Hf & _).
  pose proof (set_identity_field_spec k x d') as Hk.
  destruct (set_identity_field k x d') as [d2|].
  - destruct Hk as (j & Hj & _ & _ & Hg). rewrite Hg.
    rewrite (get_identity_field_index k j d Hj), Hf.
    apply list_lookup_insert_ne. intros ->. congruence.
  - destruct Hk as [Hnot Hnone]. rewrite Hnone.
    pose proof (set_identity_field_spec k x d) as Hk2.
    destruct (set_identity_field k x d).
    + destruct Hk2 as (j & Hj & _). apply identity_keys_index in Hj as [_ Hj]. congruence.
    + symmetry. apply Hk2.
Qed.

(** One turn of the second part of the body, whatever the allocator does. *)
Lemma store_keyvalue_step (h0 : list (option block)) (o : heap_out)
    (d : otel_process_ctx_data) (kb vb : list byte) :
  decoder_heap h0 o d ->
  (is_identity_key (cstr kb) = true ->
   get_identity_field (cstr kb) (out_data o) = Some NULL) ->
  match store_keyvalue kb vb o with
  | Stored o' =>
      exists d', dispatch (cstr kb) (cstr vb) d = Some d'
                 /\ decoder_heap h0 o' d'
                 /\ forall k, k <> cstr kb ->
                      get_identity_field k (out_data o') = get_identity_field k (out_data o)
  | Refused o' =>
      decoder_heap h0 o' d
      /\ (Forall (eq true) (outcomes (out_allocator o)) ->
          dispatch (cstr kb) (cstr vb) d = None)
  end
  /\ (Forall (eq true) (outcomes (out_allocator o)) ->
      Forall (eq true) (outcomes (out_allocator (stored_out (store_keyvalue kb vb o))))).
Proof.
  destruct o as [dp idx [h outs]]. cbn [out_data out_index out_allocator outcomes].
  intros Hinv Hfresh. unfold store_keyvalue, strdup. cbn [out_data out_index out_allocator].
  destruct (malloc_cases (Bytes (cstr vb)) {| blocks := h; outcomes := outs |})
    as [(rest & Hout & ->)| ->]; cbn [blocks outcomes] in *.
  { (* the copy of the value fails *)
    rewrite decide_True by reflexivity. cbn [stored_out out_allocator outcomes]. subst outs.
    split; [split|].
    - eapply decoder_heap_frame; [exact Hinv|reflexivity|].
      intros p Hp. apply heap_lookup_beyond, Hp.
    - intros [[=] _]%Forall_cons.
    - intros [_ H]%Forall_cons. exact H. }
  rewrite decide_False by discriminate.
  pose proof (set_identity_field_spec (cstr kb) (S (length h)) dp) as Hspec.
  destruct (set_identity_field (cstr kb) (S (length h)) dp) as [dp'|] eqn:Hset.
  { (* an identity key *)
    destruct Hspec as (i & Hi & _). apply identity_keys_index in Hi as [_ Hid].
    destruct (store_identity_step h0 dp dp' idx h outs (tail outs) d (cstr kb) (cstr vb)
                Hinv (Hfresh Hid) Hset) as (d' & Hd' & Hinv').
    cbn [stored_out out_allocator outcomes]. split; [|apply Forall_tail].
    exists d'. split; [exact Hd'|]. split; [exact Hinv'|].
    intros k Hk. cbn [out_data].
    apply (get_identity_field_set_other (cstr kb) k _ _ _ Hset Hk). }
  destruct Hspec as [Hid _].
  assert (Hnone : Forall (eq true) outs ->
                  (resource_capacity <=? idx + 2)%nat = true ->
                  dispatch (cstr kb) (cstr vb) d = None).
  { intros _ Hcap. destruct Hinv as (_ & _ & _ & _ & ptrs & strings & _ & A2 & _ & _ & _
                                     & A6 & A7).
    cbn [out_index out_allocator blocks] in *.
    pose proof (Forall2_length _ _ _ A7) as Hlen.
    rewrite dispatch_resource by exact Hid. rewrite A6. cbn [default from_option id].
    rewrite <- Hlen, A2, Hcap. reflexivity. }
  match goal with
  | |- context [malloc ?b ?a1] =>
      destruct (malloc_cases b a1) as [(rest & Hout & ->)| ->]
  end; cbn [blocks outcomes] in *.
  { (* the copy of the key fails *)
    rewrite bool_decide_eq_true_2 by reflexivity. cbn [orb stored_out out_allocator].
    unfold on_blocks. cbn [blocks outcomes].
    change (free NULL (h ++ [Some (Bytes (cstr vb))]))
      with (h ++ [Some (Bytes (cstr vb))]).
    split; [split|].
    - eapply decoder_heap_frame; [exact Hinv|..]; cbn [blocks].
      + intros p Hp. rewrite heap_lookup_free_eq. destruct (decide _); [lia|].
        rewrite heap_lookup_alloc. destruct (decide _); [lia|reflexivity].
      + intros p Hp. rewrite heap_lookup_free_eq. destruct (decide _); [reflexivity|].
        apply heap_lookup_beyond. rewrite length_app. cbn [length]. lia.
    - intros Hall. apply Forall_tail in Hall. rewrite Hout in Hall.
      apply Forall_cons in Hall as [[=] _].
    - intros Hall. apply Forall_tail in Hall. rewrite Hout in Hall.
      apply Forall_cons in Hall as [_ Hall]. exact Hall. }
  rewrite bool_decide_eq_false_2 by discriminate. cbn [orb].
  rewrite length_app. cbn [length]. replace (length h + 1)%nat with (S (length h)) by lia.
  destruct (Nat.leb_spec resource_capacity (idx + 2)) as [Hfull|Hroom].
  { (* the resources array is full *)
    cbn [stored_out out_allocator]. unfold on_blocks. cbn [blocks outcomes].
    split; [split|].
    - eapply decoder_heap_frame; [exact Hinv|..]; cbn [blocks].
      + intros p Hp. rewrite !heap_lookup_free_eq. repeat (destruct (decide _); [lia|]).
        rewrite !heap_lookup_alloc. rewrite length_app. cbn [length].
        repeat (destruct (decide _); [lia|]). reflexivity.
      + intros p Hp. rewrite !heap_lookup_free_eq.
        destruct (decide _); [reflexivity|]. destruct (decide _); [reflexivity|].
        apply heap_lookup_beyond. rewrite !length_app. cbn [length]. lia.
    - intros Hall. apply (Hnone Hall eq_refl).
    - intros Hall. apply Forall_tail, Forall_tail, Hall. }
  (* the pair is stored *)
  destruct (store_resource_step h0 dp idx h outs (tail (tail outs)) d (cstr kb) (cstr vb)
              Hinv Hid Hroom) as (d' & Hd' & Hinv').
  cbn [stored_out out_allocator]. unfold on_blocks. cbn [blocks outcomes].
  split; [|intros Hall; apply Forall_tail, Forall_tail, Hall].
  exists d'. split; [exact Hd'|]. split; [exact Hinv'|]. reflexivity.
Qed.

Lemma fields_pending_tail (k : list byte) (keys : list (list byte))
    (dp dp' : otel_process_ctx_data_ptrs) :
  fields_pending (k :: keys) dp ->
  (forall k', k' <> k -> get_identity_field k' dp' = get_identity_field k' dp) ->
  fields_pending keys dp'.
Proof.
  intros [Hnd Hnull] Hsame. rewrite filter_cons in Hnd. split.
  - destruct (decide (is_identity_key k = true)); [|exact Hnd].
    apply NoDup_cons in Hnd as [_ Hnd]. exact Hnd.
  - intros k' Hin Hid. rewrite Hsame; [apply Hnull; [right; exact Hin|exact Hid]|].
    intros ->. destruct (decide (is_identity_key k = true)); [|contradiction].
    apply NoDup_cons in Hnd as [Hnotin _]. apply Hnotin.
    apply list_elem_of_filter. auto.
Qed.

(** The second part of the body over a whole payload, whatever the
    allocator does: the invariant holds at the end, a run that stores every
    pair has followed the dispatches of the decoder, and a run that is
    refused although every allocation succeeded has met a dispatch that the
    decoder refuses. *)
Lemma store_all_steps (buffers : list (list byte * list byte)) :
  forall (h0 : list (option block)) (o : heap_out) (d : otel_process_ctx_data),
  decoder_heap h0 o d ->
  fields_pending (cstr <$> buffers.*1) (out_data o) ->
  (exists d', decoder_heap h0 (stored_out (store_all buffers o)) d')
  /\ match store_all buffers o with
     | Stored o' =>
         exists d', dispatch_all (buffer_strings <$> buffers) d = Some d'
                    /\ decoder_heap h0 o' d'
     | Refused _ =>
         Forall (eq true) (outcomes (out_allocator o)) ->
         dispatch_all (buffer_strings <$> buffers) d = None
     end.
Proof.
  induction buffers as [|[kb vb] buffers IH]; intros h0 o d Hinv Hpend.
  - cbn [store_all stored_out fmap list_fmap dispatch_all]. eauto.
  - cbn [store_all fmap list_fmap dispatch_all buffer_strings fst snd] in *.
    destruct (store_keyvalue_step h0 o d kb vb Hinv) as [Hstep Houts].
    { intros Hid. apply Hpend; [left|exact Hid]. }
    destruct (store_keyvalue kb vb o) as [o'|o'].
    + destruct Hstep as (d' & Hd' & Hinv' & Hsame). rewrite Hd'.
      destruct (IH h0 o' d' Hinv' (fields_pending_tail _ _ _ _ Hpend Hsame))
        as [Hend Hrun].
      split; [exact Hend|].
      destruct (store_all buffers o'); [exact Hrun|].
      intros Hall. apply Hrun, Houts, Hall.
    + destruct Hstep as [Hinv' Hnone]. cbn [stored_out]. split; [eauto|].
      intros Hall. rewrite (Hnone Hall). reflexivity.
Qed.

(** ** The decoder on the heap: what it leaves *)

Lemma until_null_app_nulls (ptrs : list nat) (n : nat) :
  Forall (fun p => p <> NULL) ptrs ->
  until_null (ptrs ++ replicate n NULL) = ptrs.
Proof.
  induction 1 as [|p ptrs Hp _ IH]; cbn [app until_null].
  - destruct n; reflexivity.
  - destruct p as [|p]; [contradiction|]. rewrite IH. reflexivity.
Qed.

Lemma drop_identity_strings_None (d : otel_process_ctx_data_ptrs)
    (h : list (option block)) (p : nat) :
  heap_lookup p h = None -> heap_lookup p (drop_identity_strings d h) = None.
Proof.
  intros H. unfold drop_identity_strings.
  repeat apply heap_lookup_free_if_set_None. exact H.
Qed.

Lemma read_data_drop_None (d : otel_process_ctx_data_ptrs) (h : list (option block))
    (p : nat) :
  heap_lookup p h = None -> heap_lookup p (otel_process_ctx_read_data_drop d h) = None.
Proof.
  intros H. unfold otel_process_ctx_read_data_drop.
  pose proof (drop_identity_strings_None d h p H) as H1.
  destruct (decide (resources d = NULL)); [exact H1|].
  apply heap_lookup_free_None, heap_lookup_free_all_None, H1.
Qed.

Lemma decoder_heap_array_intact (h0 : list (option block)) (o : heap_out)
    (d : otel_process_ctx_data) :
  decoder_heap h0 o d ->
  S (length h0) ∉ identity_fields (out_data o).
Proof.
  intros (_ & _ & I4 & _). rewrite Forall_forall in I4. intros Hin.
  destruct (I4 _ Hin) as [[=]|Hlt]. lia.
Qed.

(** Dropping what the decoder built gives back the heap it started from:
    every block it allocated is freed, none of the others is touched. *)
Lemma decoder_heap_drop (h0 : list (option block)) (o : heap_out)
    (d : otel_process_ctx_data) (p : nat) :
  decoder_heap h0 o d ->
  heap_lookup p (otel_process_ctx_read_data_drop (out_data o) (blocks (out_allocator o)))
  = heap_lookup p h0.
Proof.
  intros Hinv. pose proof (decoder_heap_array_intact h0 o d Hinv) as Harr.
  destruct Hinv as (I1 & I2 & I4 & _ & ptrs & strings & A1 & A2 & A3 & A4 & A5 & _).
  set (h := blocks (out_allocator o)) in *. set (dp := out_data o) in *.
  assert (Hcells : resource_cells (resources dp) (drop_identity_strings dp h) = ptrs).
  { unfold resource_cells. rewrite I2.
    rewrite drop_identity_strings_other by exact Harr. rewrite A1.
    apply until_null_app_nulls. eapply Forall_impl; [exact A4|].
    intros q Hq. cbv beta zeta in Hq |- *. unfold NULL. lia. }
  assert (Howned : owned_pointers dp h = identity_fields dp ++ ptrs ++ [S (length h0)]).
  { unfold owned_pointers. rewrite Hcells, I2.
    destruct (decide (S (length h0) = NULL)); [discriminate|reflexivity]. }
  rewrite Forall_forall in I4, A4.
  destruct (decide (p = NULL)) as [->|Hp0].
  { rewrite read_data_drop_None; reflexivity. }
  destruct (decide (p <= length h0)%nat) as [Hle|Hgt].
  - rewrite read_data_drop_other; [apply I1, Hle|].
    rewrite Howned. rewrite !not_elem_of_app. split; [|split].
    + intros Hin. destruct (I4 _ Hin); [contradiction|lia].
    + intros Hin. specialize (A4 _ Hin). lia.
    + rewrite list_elem_of_singleton. lia.
  - rewrite (heap_lookup_beyond p h0) by lia.
    destruct (heap_lookup p h) as [x|] eqn:Hlive; [|apply read_data_drop_None, Hlive].
    apply read_data_drop_frees. rewrite Howned. rewrite !elem_of_app.
    destruct (decide (p = S (length h0))) as [->|Hne].
    + right. right. left.
    + destruct (A5 p ltac:(lia) ltac:(eauto)); auto.
Qed.

(** What the decoder built holds the attribute object of the decoder, in
    any heap that has the blocks it allocated. *)
Lemma decoder_heap_represents (h0 : list (option block)) (o : heap_out)
    (d : otel_process_ctx_data) (h' : list (option block)) :
  decoder_heap h0 o d ->
  (forall p, (length h0 < p)%nat ->
             heap_lookup p h' = heap_lookup p (blocks (out_allocator o))) ->
  represents h' (out_data o) d.
Proof.
  intros (I1 & I2 & I4 & R1 & ptrs & strings & A1 & A2 & A3 & A4 & A5 & A6 & A7) Hsame.
  rewrite Forall_forall in I4, A4. split.
  - apply Forall2_same_length_lookup. split; [reflexivity|].
    intros i p v Hp Hv.
    pose proof (Forall2_lookup_lr _ _ _ _ _ _ R1 Hp Hv) as Hrep.
    destruct v as [s|]; cbn [field_represents] in *; [|exact Hrep].
    rewrite Hsame; [exact Hrep|].
    destruct (I4 p (list_elem_of_lookup_2 _ _ _ Hp)) as [->|Hgt]; [discriminate|lia].
  - exists (ptrs ++ replicate (resource_capacity - out_index o) NULL), strings.
    split; [rewrite I2, Hsame by lia; exact A1|].
    split.
    { apply elem_of_app. right.
      destruct (resource_capacity - out_index o)%nat eqn:E; [lia|]. left. }
    split; [exact A6|].
    rewrite until_null_app_nulls
      by (apply Forall_forall; intros q Hq; specialize (A4 q Hq); unfold NULL; lia).
    apply Forall2_same_length_lookup. split; [apply (Forall2_length _ _ _ A7)|].
    intros i p s Hp Hs.
    pose proof (Forall2_lookup_lr _ _ _ _ _ _ A7 Hp Hs) as Hrep.
    rewrite Hsame; [exact Hrep|].
    specialize (A4 p (list_elem_of_lookup_2 _ _ _ Hp)). lia.
Qed.

Lemma decoder_heap_required (h0 : list (option block)) (o : heap_out)
    (d : otel_process_ctx_data) :
  decoder_heap h0 o d -> all_required_set (out_data o) = all_required_found d.
Proof.
  intros (_ & _ & _ & R1 & _). revert R1.
  destruct (out_data o) as [p1 p2 p3 p4 p5 p6 p7 pr], d as [v1 v2 v3 v4 v5 v6 v7 vr].
  unfold identity_fields, all_required_set, all_required_found.
  cbn [deployment_environment_name service_instance_id service_name service_version
       telemetry_sdk_language telemetry_sdk_version telemetry_sdk_name].
  intros H.
  repeat match goal with
         | H : Forall2 _ (_ :: _) (_ :: _) |- _ =>
             apply Forall2_cons in H; destruct H as [? H]
         end.
  repeat match goal with
         | H : field_represents _ ?p ?v |- _ =>
             destruct v; cbn [field_represents] in H;
             [destruct p; [discriminate H|]|subst p]
         end; reflexivity.
Qed.

(** Freeing a block the decoder did not allocate leaves what it built. *)
Lemma decoder_heap_free_old (h0 : list (option block)) (o : heap_out)
    (d : otel_process_ctx_data) (q : nat) :
  decoder_heap h0 o d -> (q <= length h0)%nat ->
  decoder_heap (free q h0)
    {| out_data := out_data o; out_index := out_index o;
       out_allocator := on_blocks (free q) (out_allocator o) |} d.
Proof.
  unfold decoder_heap. cbn [out_data out_index out_allocator on_blocks blocks].
  rewrite free_length.
  intros (I1 & I2 & I4 & R1 & ptrs & strings & A1 & A2 & A3 & A4 & A5 & A6 & A7) Hq.
  assert (Hnew : forall p, (length h0 < p)%nat ->
            heap_lookup p (free q (blocks (out_allocator o)))
            = heap_lookup p (blocks (out_allocator o))).
  { intros p Hp. apply heap_lookup_free_other. lia. }
  rewrite Forall_forall in I4, A4.
  split; [|split; [exact I2|split; [apply Forall_forall; exact I4|split]]].
  - intros p Hp. rewrite !heap_lookup_free_eq.
    destruct (decide (p = q)); [reflexivity|apply I1, Hp].
  - apply Forall2_same_length_lookup. split; [reflexivity|].
    intros i p v Hp Hv.
    pose proof (Forall2_lookup_lr _ _ _ _ _ _ R1 Hp Hv) as Hrep.
    destruct v as [s|]; cbn [field_represents] in *; [|exact Hrep].
    rewrite Hnew; [exact Hrep|].
    destruct (I4 p (list_elem_of_lookup_2 _ _ _ Hp)) as [->|Hgt]; [discriminate|lia].
  - exists ptrs, strings. rewrite Hnew by lia.
    split; [exact A1|]. split; [exact A2|]. split; [exact A3|].
    split; [apply Forall_forall; exact A4|]. split; [|split; [exact A6|]].
    + intros p Hp. rewrite Hnew by lia. apply A5, Hp.
    + apply Forall2_same_length_lookup. split; [apply (Forall2_length _ _ _ A7)|].
      intros i p s Hp Hs.
      pose proof (Forall2_lookup_lr _ _ _ _ _ _ A7 Hp Hs) as Hrep.
      rewrite Hnew; [exact Hrep|].
      specialize (A4 p (list_elem_of_lookup_2 _ _ _ Hp)). lia.
Qed.

Lemma record_buffers_strings (recs : list kv_record) :
  buffer_strings <$> (record_buffers <$> recs) = record_pair <$> recs.
Proof. rewrite <- list_fmap_compose. reflexivity. Qed.

Lemma record_buffers_keys (recs : list kv_record) :
  cstr <$> (record_buffers <$> recs).*1 = (record_pair <$> recs).*1.
Proof. rewrite <- !list_fmap_compose. reflexivity. Qed.

Lemma get_identity_field_empty (key : list byte) (array : nat) :
  is_identity_key key = true ->
  get_identity_field key (with_resources_ptr array empty_data_ptrs) = Some NULL.
Proof.
  intros Hk. apply bool_decide_eq_true in Hk.
  apply list_elem_of_lookup in Hk as [i Hi].
  rewrite (get_identity_field_index key i) by exact Hi.
  destruct i as [|[|[|[|[|[|[|i]]]]]]]; try discriminate; reflexivity.
Qed.

(** The decoder on the heap at its start: the array allocated, nothing
    stored. *)
Lemma decoder_heap_initial (h : list (option block)) (outs : list bool) :
  decoder_heap h
    {| out_data := with_resources_ptr (S (length h)) empty_data_ptrs;
       out_index := 0;
       out_allocator :=
         {| blocks := h ++ [Some (Pointers (replicate resource_capacity NULL))];
            outcomes := outs |} |}
    initial_data_out.
Proof.
  unfold decoder_heap. cbn [out_data out_index out_allocator blocks].
  split; [|split; [reflexivity|split; [|split]]].
  - intros p Hp. rewrite heap_lookup_alloc.
    destruct (decide (p = S (length h))); [lia|reflexivity].
  - repeat (apply Forall_cons; split; [left; reflexivity|]). apply Forall_nil. exact I.
  - repeat (apply Forall2_cons; split; [reflexivity|]). apply Forall2_nil. exact I.
  - exists [], []. rewrite heap_lookup_alloc_new, Nat.sub_0_r.
    split; [reflexivity|]. split; [reflexivity|].
    split; [unfold resource_capacity; lia|]. split; [apply Forall_nil; exact I|].
    split; [|split; [reflexivity|apply Forall2_nil; exact I]].
    intros p Hp [x Hx]. apply heap_lookup_bound in Hx. rewrite length_app in Hx.
    cbn [length] in Hx. lia.
Qed.

(** The decoder on the heap, on the bytes of well-formed records with no
    identity key twice: either the array could not be allocated and
    nothing was, or the decoder leaves what [decoder_heap] describes, says
    yes only with the object of the decoder, and says yes with it when no
    allocation fails. *)
Lemma decode_on_heap_spec (recs : list kv_record) (kb vb : list byte) (a : allocator) :
  forallb kv_record_ok recs = true ->
  NoDup (filter (fun k => is_identity_key k = true) (record_pair <$> recs).*1) ->
  exists ok dp a',
    decode_payload_on_heap (records_bytes recs) (length (records_bytes recs)) kb vb a
    = (ok, dp, a')
    /\ ((ok = false /\ dp = empty_data_ptrs /\ blocks a' = blocks a
         /\ ~ Forall (eq true) (outcomes a))
        \/ exists o d,
             dp = out_data o /\ a' = out_allocator o
             /\ decoder_heap (blocks a) o d
             /\ (ok = true ->
                 dispatch_all (record_pair <$> recs) initial_data_out = Some d
                 /\ all_required_found d = true)
             /\ (Forall (eq true) (outcomes a) ->
                 is_Some (dispatch_all (record_pair <$> recs) initial_data_out
                          ≫= require_identity) ->
                 ok = true)).
Proof.
  intros Hok Hnd. rewrite decode_payload_on_heap_records by exact Hok.
  unfold calloc_pointers.
  destruct (malloc_cases (Pointers (replicate resource_capacity NULL)) a)
    as [(rest & Ho & ->)| ->].
  { destruct (decide (NULL = NULL)); [|congruence].
    eexists _, _, _. split; [reflexivity|]. left. repeat split.
    rewrite Ho. intros [[=] _]%Forall_cons. }
  destruct (decide (S (length (blocks a)) = NULL)); [discriminate|].
  match goal with
  | |- context [store_all ?bs ?o0] =>
      pose proof (store_all_steps bs (blocks a) o0 initial_data_out
                    (decoder_heap_initial _ _)) as Hsteps
  end.
  cbn [out_data out_allocator outcomes] in Hsteps.
  rewrite record_buffers_keys, record_buffers_strings in Hsteps.
  destruct Hsteps as [[d0 Hd0] Hcase].
  { split; [exact Hnd|]. intros k _ Hk. apply get_identity_field_empty, Hk. }
  destruct (store_all _ _) as [o'|o']; cbn [decode_result stored_out] in *.
  - destruct Hcase as (d' & Hd' & Hinv).
    eexists _, _, _. split; [reflexivity|]. right. exists o', d'.
    rewrite (decoder_heap_required _ _ _ Hinv).
    split; [reflexivity|]. split; [reflexivity|]. split; [exact Hinv|]. split.
    + intros Hreq. auto.
    + intros _. rewrite Hd'. cbn [mbind option_bind]. unfold require_identity.
      destruct (all_required_found d'); [reflexivity|]. intros [x [=]].
  - eexists _, _, _. split; [reflexivity|]. right. exists o', d0.
    split; [reflexivity|]. split; [reflexivity|]. split; [exact Hd0|]. split.
    + discriminate.
    + intros Hall. rewrite (Hcase (Forall_tail _ _ Hall)). intros [x [=]].
Qed.

(** ** Reading what was published *)

Lemma filter_no_identity_keys (pairs : list (list byte * list byte)) :
  Forall (fun kv => is_identity_key kv.1 = false) pairs ->
  filter (fun k => is_identity_key k = true) pairs.*1 = [].
Proof.
  induction 1 as [|kv l Hkv _ IH]; [reflexivity|].
  cbn [fmap list_fmap]. rewrite filter_cons.
  destruct (decide (is_identity_key kv.1 = true)) as [Hyes|_]; [congruence|exact IH].
Qed.

(** The bytes the encoder emits, as the records the decoder reads. *)
Lemma emitted_records (data : otel_process_ctx_data) :
  well_formed data = true ->
  c_strings (data_strings data) ->
  Forall (fun s => strlen s <= KEY_VALUE_LIMIT) (data_strings data) ->
  (length (resource_entries data) <= 200)%nat ->
  Forall (fun kv => is_identity_key kv.1 = false) (pair_up (resource_entries data)) ->
  exists recs,
    attributes_bytes (identity_entries data) ++ attributes_bytes (resource_entries data)
    = records_bytes recs
    /\ forallb kv_record_ok recs = true
    /\ NoDup (filter (fun k => is_identity_key k = true) (record_pair <$> recs).*1)
    /\ dispatch_all (record_pair <$> recs) initial_data_out = Some (as_read data)
    /\ all_required_found (as_read data) = true
    /\ Z.to_nat (uint32 (prepass_total_size data)) = length (records_bytes recs).
Proof.
  intros Hwf Hc Hlim Hcount Hkeys.
  pose proof (within_limit_passes_validation data Hwf Hlim) as Hv.
  pose proof (prepass_total_size_bytes data Hv) as Hsz.
  unfold well_formed in Hwf. apply andb_true_iff in Hwf as [Hreq Heven].
  unfold data_strings in *.
  apply Forall_app in Hlim as [Hlim1 Hlim2]. apply Forall_app in Hc as [Hc1 Hc2].
  destruct (well_formed_identity_entries data Hreq)
    as (v1 & v2 & v3 & v4 & v5 & v6 & v7 & Hids & Hdata).
  assert (Hsmall : uint32 (prepass_total_size data) = prepass_total_size data).
  { apply Z.mod_small. rewrite Hsz, length_app, Nat2Z.inj_add.
    pose proof (attributes_bytes_bound _ Hlim1) as B1.
    pose proof (attributes_bytes_bound _ Hlim2) as B2.
    rewrite Hids in B1 at 2. cbn [length] in B1. lia. }
  exists (record_of <$> pair_up (identity_entries data) ++ pair_up (resource_entries data)).
  assert (Hbytes : attributes_bytes (identity_entries data)
                   ++ attributes_bytes (resource_entries data)
                   = records_bytes (record_of <$> pair_up (identity_entries data)
                                                  ++ pair_up (resource_entries data))).
  { rewrite !attributes_bytes_records, <- records_bytes_app, <- fmap_app. reflexivity. }
  assert (Hpairs : record_pair <$> (record_of <$> pair_up (identity_entries data)
                                               ++ pair_up (resource_entries data))
                   = pair_up (identity_entries data) ++ pair_up (resource_entries data)).
  { rewrite !fmap_app, !record_pairs_of_entries by assumption. reflexivity. }
  split; [exact Hbytes|]. split.
  { rewrite fmap_app, forallb_app, !records_ok_of_entries by assumption. reflexivity. }
  rewrite Hpairs. split; [|split; [|split]].
  - rewrite fmap_app, filter_app.
    replace (filter _ (pair_up (resource_entries data)).*1) with (@nil (list byte)).
    + rewrite app_nil_r, Hids.
      change (NoDup identity_keys). apply identity_keys_NoDup.
    + symmetry. apply filter_no_identity_keys, Hkeys.
  - rewrite dispatch_all_app.
    assert (Hid : dispatch_all (pair_up (identity_entries data)) initial_data_out
                  = Some (data_with_resources (Some []) data)).
    { rewrite Hids. rewrite Hdata at 1. reflexivity. }
    rewrite Hid. cbn [mbind option_bind].
    rewrite (dispatch_all_resources _ (data_with_resources (Some []) data) []
               eq_refl Hkeys)
      by (pose proof (pair_up_length (resource_entries data)); cbn [length]; lia).
    cbn [app]. rewrite flatten_pair_up by exact Heven. reflexivity.
  - exact Hreq.
  - rewrite <- Hbytes, Hsmall, Hsz, Nat2Z.id. reflexivity.
Qed.

(** The two scratch buffers of the reader, allocated and freed again. *)
Lemma scratch_freed (h : list (option block)) (b1 b2 : block) (p : nat) :
  heap_lookup p (free (S (S (length h)))
                   (free (S (length h)) ((h ++ [Some b1]) ++ [Some b2])))
  = heap_lookup p h.
Proof.
  rewrite !heap_lookup_free_eq, !heap_lookup_alloc, length_app. cbn [length].
  replace (length h + 1)%nat with (S (length h)) by lia.
  destruct (decide (p = S (S (length h)))) as [->|H2]; [symmetry; apply heap_lookup_beyond; lia|].
  destruct (decide (p = S (length h))) as [->|H1]; [symmetry; apply heap_lookup_beyond; lia|].
  reflexivity.
Qed.

Lemma read_data_drop_empty (h : list (option block)) :
  otel_process_ctx_read_data_drop empty_data_ptrs h = h.
Proof. reflexivity. Qed.

Lemma one_scratch_freed (h : list (option block)) (b : block) (p : nat) :
  heap_lookup p (free (S (length h)) (h ++ [Some b])) = heap_lookup p h.
Proof.
  rewrite heap_lookup_free_eq, heap_lookup_alloc.
  destruct (decide (p = S (length h))) as [->|H1]; [|reflexivity].
  symmetry. apply heap_lookup_beyond. lia.
Qed.

Lemma read_published_spec (env : reader_env) (d : otel_process_ctx_data) (w : process) :
  published d w -> header_valid w -> finds_published_mapping env w ->
  well_formed d = true ->
  c_strings (data_strings d) ->
  Forall (fun s => strlen s <= KEY_VALUE_LIMIT) (data_strings d) ->
  (length (resource_entries d) <= 200)%nat ->
  Forall (fun kv => is_identity_key kv.1 = false) (pair_up (resource_entries d)) ->
  exists res h',
    otel_process_ctx_read env w = Some (res, h')
    /\ (forall p, heap_lookup p (after_read_drop res h') = heap_lookup p (heap w))
    /\ (read_success res = true ->
        read_error_message res = None
        /\ represents h' (data res) (as_read d)
        /\ forall p, (p <= length (heap w))%nat ->
                     heap_lookup p h' = heap_lookup p (heap w))
    /\ (read_success res = false -> data res = empty_data_ptrs)
    /\ (Forall (eq true) (read_outcomes env) -> read_success res = true).
Proof.
  intros (_ & (m & Hl & _ & Hpay & Hsz) & _) (m' & bs & Hl' & Hsig & Hver & _)
         (Hmap & r & Hr & Hmr) Hwf Hc Hlim Hcount Hkeys.
  rewrite Hl in Hl'. injection Hl' as <-.
  destruct (emitted_records d Hwf Hc Hlim Hcount Hkeys)
    as (recs & Hbytes & Hok & Hnd & Hdisp & Hreq & Hlen).
  rewrite Hbytes in Hpay. unfold load_mapping in Hl. rewrite Hmr in Hl.
  destruct (regions w !! r) as [[m0|]|] eqn:Er; try discriminate Hl.
  cbn in Hl. injection Hl as ->.
  unfold otel_process_ctx_read.
  destruct (Z.eqb_spec (try_finding_mapping (proc_self_maps env)) 0); [contradiction|].
  rewrite Hr. cbn [mbind option_bind]. rewrite Er, Hsig, Hver, Hsz, Hlen.
  rewrite bool_decide_eq_true_2 by reflexivity.
  cbn [negb orb Z.eqb Pos.eqb].
  unfold calloc_bytes.
  set (size := Z.to_nat (KEY_VALUE_LIMIT + 1)).
  destruct (malloc_cases (Bytes (replicate size x00))
              {| blocks := heap w; outcomes := read_outcomes env |})
    as [(rest1 & Ho1 & ->)| ->]; cbn [blocks outcomes] in *.
  - assert (Hnot : ~ Forall (eq true) (read_outcomes env))
      by (rewrite Ho1; intros [[=] _]%Forall_cons).
    destruct (malloc_cases (Bytes (replicate size x00))
                {| blocks := heap w; outcomes := rest1 |})
      as [(rest2 & Ho2 & ->)| ->]; cbn [blocks outcomes] in *.
    + rewrite bool_decide_eq_true_2 by reflexivity. cbn [orb].
      eexists _, _. split; [reflexivity|].
      split; [reflexivity|]. split; [discriminate|]. split; [reflexivity|].
      intros Hall. contradiction.
    + rewrite bool_decide_eq_true_2 by reflexivity. cbn [orb].
      eexists _, _. split; [reflexivity|].
      split; [intros p; apply one_scratch_freed|]. split; [discriminate|].
      split; [reflexivity|]. intros Hall. contradiction.
  - destruct (malloc_cases (Bytes (replicate size x00))
                {| blocks := heap w ++ [Some (Bytes (replicate size x00))];
                   outcomes := tail (read_outcomes env) |})
      as [(rest2 & Ho2 & ->)| ->]; cbn [blocks outcomes] in *.
    + assert (Hnot : ~ Forall (eq true) (read_outcomes env)).
      { intros Hall%Forall_tail. rewrite Ho2 in Hall.
        apply Forall_cons in Hall as [[=] _]. }
      rewrite (bool_decide_eq_true_2 (NULL = NULL)) by reflexivity.
      rewrite orb_true_r.
      eexists _, _. split; [reflexivity|].
      split; [intros p; apply one_scratch_freed|]. split; [discriminate|].
      split; [reflexivity|]. intros Hall. contradiction.
    + rewrite !bool_decide_eq_false_2 by discriminate. cbn [orb].
      rewrite (heap_lookup_alloc_old _ _ _ _ (heap_lookup_alloc_old _ _ _ _ Hpay)).
      rewrite Nat.ltb_irrefl.
      set (kbuf := Bytes (replicate size x00)).
      assert (Hq : S (length (heap w ++ [Some kbuf])) = S (S (length (heap w))))
        by (rewrite length_app; cbn [length]; lia).
      rewrite Hq.
      set (a2 := {| blocks := (heap w ++ [Some kbuf]) ++ [Some kbuf];
                    outcomes := tail (tail (read_outcomes env)) |}).
      assert (Hlen2 : length (blocks a2) = S (S (length (heap w))))
        by (unfold a2; cbn [blocks]; rewrite !length_app; cbn [length]; lia).
      destruct (decode_on_heap_spec recs (replicate size x00) (replicate size x00) a2
                  Hok Hnd) as (ok & dp & a' & -> & Hcase).
      destruct Hcase as [(-> & -> & Hb & Hnot)|(o & d' & -> & -> & Hinv & Hyes & Hall)].
      * cbn [negb]. eexists _, _. split; [reflexivity|].
        split; [|split; [discriminate|split; [reflexivity|]]].
        -- intros p. unfold after_read_drop.
           cbn [otel_process_ctx_read_drop read_failure read_success negb snd].
           rewrite read_data_drop_empty. cbn [on_blocks blocks]. rewrite Hb.
           apply scratch_freed.
        -- intros H. destruct Hnot. apply Forall_tail, Forall_tail, H.
      * pose proof (decoder_heap_free_old _ _ _ (S (length (heap w))) Hinv
                      ltac:(rewrite Hlen2; lia)) as Hinv1.
        pose proof (decoder_heap_free_old _ _ _ (S (S (length (heap w)))) Hinv1
                      ltac:(rewrite free_length, Hlen2; lia)) as Hinv2.
        cbn [out_data out_index out_allocator] in Hinv2. clear Hinv1.
        pose proof (fun p => decoder_heap_drop _ _ _ p Hinv2) as Hdrop.
        cbn [out_data out_allocator] in Hdrop.
        destruct ok; cbn [negb].
        -- destruct (Hyes eq_refl) as [Hd' _]. rewrite Hdisp in Hd'.
           injection Hd' as <-.
           eexists _, _. split; [reflexivity|].
           split; [|split; [intros _; split; [reflexivity|split]
                           |split; [discriminate|reflexivity]]].
           ++ intros p. unfold after_read_drop.
              cbn [otel_process_ctx_read_drop read_success negb snd data].
              rewrite Hdrop. apply scratch_freed.
           ++ apply (decoder_heap_represents _ _ _ _ Hinv2). reflexivity.
           ++ intros p Hp. destruct Hinv2 as (I1 & _). cbn [out_allocator] in I1.
              rewrite I1 by (rewrite !free_length, Hlen2; lia). apply scratch_freed.
        -- eexists _, _. split; [reflexivity|].
           split; [|split; [discriminate|split; [reflexivity|]]].
           ++ intros p. unfold after_read_drop.
              cbn [otel_process_ctx_read_drop read_failure read_success negb snd].
              rewrite Hdrop. apply scratch_freed.
           ++ intros H. apply Hall; [apply Forall_tail, Forall_tail, H|].
              rewrite Hdisp. cbn [mbind option_bind]. unfold require_identity.
              rewrite Hreq. eauto.
Qed.

Lemma header_valid_published_sample : header_valid published_sample.
Proof.
  apply (header_valid_reachable 42 published_sample).
  - apply rtc_once. left. exists (CallPublish (good_env 1) (Some sample_data)).
    reflexivity.
  - vm_compute. reflexivity.
Qed.

Lemma sample_reader_finds_mapping (outs : list bool) :
  finds_published_mapping (sample_reader_env outs) published_sample.
Proof.
  split; [vm_compute; discriminate|]. exists 0%nat. split; vm_compute; reflexivity.
Qed.

(** X19: in a process that has published an attribute object with strings
    of at most 4096 bytes and at most 100 resource pairs, none keyed by an
    identity key, and whose [/proc/self/maps] shows the mapping,
    [otel_process_ctx_read] returns a result. It succeeds when none of its
    allocations fails, and whenever it succeeds the result carries no error
    message and its data points at copies of what was published: the seven
    fields, and the resources in a NULL-terminated array, in order; the
    blocks that were on the heap before are as they were. *)
Theorem read_returns_published (env : reader_env) (d : otel_process_ctx_data)
    (w : process) :
  published d w -> header_valid w -> finds_published_mapping env w ->
  well_formed d = true ->
  c_strings (data_strings d) ->
  Forall (fun s => strlen s <= KEY_VALUE_LIMIT) (data_strings d) ->
  (length (resource_entries d) <= 200)%nat ->
  Forall (fun kv => is_identity_key kv.1 = false) (pair_up (resource_entries d)) ->
  exists res h',
    otel_process_ctx_read env w = Some (res, h')
    /\ (Forall (eq true) (read_outcomes env) -> read_success res = true)
    /\ (read_success res = true ->
        read_error_message res = None
        /\ represents h' (data res) (as_read d)
        /\ forall p, (p <= length (heap w))%nat ->
                     heap_lookup p h' = heap_lookup p (heap w)).
Proof.
  intros Hpub Hhdr Hfind Hwf Hc Hlim Hcount Hkeys.
  destruct (read_published_spec env d w Hpub Hhdr Hfind Hwf Hc Hlim Hcount Hkeys)
    as (res & h' & Hread & _ & Hyes & _ & Hall).
  exists res, h'. auto.
Qed.

Lemma read_returns_published_witness :
  exists res h',
    otel_process_ctx_read (sample_reader_env []) published_sample = Some (res, h')
    /\ (Forall (eq true) (read_outcomes (sample_reader_env [])) -> read_success res = true)
    /\ (read_success res = true ->
        read_error_message res = None
        /\ represents h' (data res) (as_read sample_data)
        /\ forall p, (p <= length (heap published_sample))%nat ->
                     heap_lookup p h' = heap_lookup p (heap published_sample)).
Proof.
  apply (read_returns_published (sample_reader_env []) sample_data published_sample).
  - apply published_sample_published.
  - apply header_valid_published_sample.
  - apply sample_reader_finds_mapping.
  - reflexivity.
  - apply (bool_decide_unpack _). vm_compute. reflexivity.
  - apply (bool_decide_unpack _). vm_compute. reflexivity.
  - vm_compute. lia.
  - apply (bool_decide_unpack _). vm_compute. reflexivity.
Defined.

(** X20: under the same conditions, and whichever of its allocations
    fail, [otel_process_ctx_read] followed by [otel_process_ctx_read_drop]
    on its result leaves the heap as it was before the read: the two
    scratch buffers, the resources array and every string copied are freed
    again, also when the read gave up half way, and no other block is
    touched. *)
Theorem read_then_drop_restores_heap (env : reader_env) (d : otel_process_ctx_data)
    (w : process) :
  published d w -> header_valid w -> finds_published_mapping env w ->
  well_formed d = true ->
  c_strings (data_strings d) ->
  Forall (fun s => strlen s <= KEY_VALUE_LIMIT) (data_strings d) ->
  (length (resource_entries d) <= 200)%nat ->
  Forall (fun kv => is_identity_key kv.1 = false) (pair_up (resource_entries d)) ->
  exists res h',
    otel_process_ctx_read env w = Some (res, h')
    /\ forall p, heap_lookup p (after_read_drop res h') = heap_lookup p (heap w).
Proof.
  intros Hpub Hhdr Hfind Hwf Hc Hlim Hcount Hkeys.
  destruct (read_published_spec env d w Hpub Hhdr Hfind Hwf Hc Hlim Hcount Hkeys)
    as (res & h' & Hread & Hdrop & _).
  exists res, h'. auto.
Qed.

Lemma read_then_drop_restores_heap_witness :
  exists res h',
    otel_process_ctx_read (sample_reader_env [true; true; true; true; false])
      published_sample = Some (res, h')
    /\ forall p, heap_lookup p (after_read_drop res h')
                 = heap_lookup p (heap published_sample).
Proof.
  apply (read_then_drop_restores_heap (sample_reader_env [true; true; true; true; false])
           sample_data published_sample).
  - apply published_sample_published.
  - apply header_valid_published_sample.
  - apply sample_reader_finds_mapping.
  - reflexivity.
  - apply (bool_decide_unpack _). vm_compute. reflexivity.
  - apply (bool_decide_unpack _). vm_compute. reflexivity.
  - vm_compute. lia.
  - apply (bool_decide_unpack _). vm_compute. reflexivity.
Defined.

(** X21: [otel_process_ctx_read] never hands out a half-built object:
    whenever it returns, a failure carries an error message and the empty
    attribute object, and a success carries no message. *)
Theorem failed_read_hands_out_nothing (env : reader_env) (w : process)
    (res : otel_process_ctx_read_result) (h' : list (option block)) :
  otel_process_ctx_read env w = Some (res, h') ->
  if read_success res then read_error_message res = None
  else data res = empty_data_ptrs /\ is_Some (read_error_message res).
Proof.
  unfold otel_process_ctx_read.
  destruct (_ =? 0); [intros [= <- _]; cbn; eauto|].
  destruct (_ ≫= _) as [[m|]|]; try discriminate.
  destruct (_ || _); [intros [= <- _]; cbn; eauto|].
  destruct (calloc_bytes _ _) as [kb a1].
  destruct (calloc_bytes _ _) as [vb a2].
  destruct (_ || _); [intros [= <- _]; cbn; eauto|].
  destruct (heap_lookup _ _) as [[payload|cells]|]; try discriminate.
  destruct (_ <? _)%nat; [discriminate|].
  destruct (decode_payload_on_heap _ _ _ _ _) as [[ok dp] a'].
  destruct ok; cbn [negb]; intros [= <- _]; cbn; eauto.
Qed.

Lemma failed_read_hands_out_nothing_witness :
  data (read_failure "No OTEL_CTX mapping found" "592") = empty_data_ptrs
  /\ is_Some (read_error_message (read_failure "No OTEL_CTX mapping found" "592")).
Proof.
  exact (failed_read_hands_out_nothing
           {| proc_self_maps := None; region_at := fun _ => None; read_outcomes := [] |}
           published_sample (read_failure "No OTEL_CTX mapping found" "592")
           (heap published_sample) eq_refl).
Defined.

(** X22: [otel_process_ctx_read] does not look at the timestamp of the
    header: a store of any timestamp through the mapping, 0 included,
    changes nothing in what it returns. *)
Theorem read_ignores_timestamp (env : reader_env) (t : Z) (w : process) :
  otel_process_ctx_read env (store_mapping (set_published_at_ns t) w)
  = otel_process_ctx_read env w.
Proof.
  unfold store_mapping. destruct (mapping (published_state w)) as [| |r]; try reflexivity.
  unfold otel_process_ctx_read. cbn [set_regions regions heap].
  destruct (_ =? 0); [reflexivity|].
  destruct (region_at env _) as [r'|]; [|reflexivity]. cbn [mbind option_bind].
  destruct (decide (r' = r)) as [->|Hne].
  - rewrite list_lookup_alter.
    destruct (decide (r = r)); [|congruence].
    destruct (regions w !! r) as [[m|]|]; reflexivity.
  - rewrite list_lookup_alter_ne by congruence. reflexivity.
Qed.
